(** * PC-Cleaner-Organizer: a shallow embedding of [pc_cleaner_organizer.py]

    The development follows the two destructive components of the script:
    [organize_files] (classification, duplicate detection, collision-safe
    relocation) and [clean_temp_files] (bulk deletion below the temp
    locations).  The operating-system calls the script makes ([os.path],
    [os.listdir], [os.makedirs], [os.remove], [shutil.move], [shutil.rmtree],
    [os.walk]) are modelled over a tree-shaped file system; the Python code
    itself is transcribed into a small state-and-exception monad. *)

From Stdlib Require Import Strings.Ascii Strings.Byte.
From stdpp Require Import base option list strings gmap pretty.

Local Open Scope string_scope.
Local Open Scope list_scope.

(** ** File names: [str.lower] and [os.path.splitext] *)

Module PathName.

(** [str.lower].  A name is held as the bytes of its UTF-8 encoding.  The
    letters [A] to [Z] go to [a] to [z], and the Kelvin sign (U+212A, the
    bytes E2 84 AA) goes to [k]: these are the characters whose lower case
    is an ASCII character.  Every other character outside ASCII has a lower
    case outside ASCII and is left as it is; the script compares what it has
    lowered with the extensions of [FILE_CATEGORIES] and with ["y"] only,
    which are ASCII. *)
Definition ascii_lower (c : ascii) : ascii :=
  let n := nat_of_ascii c in
  if (65 <=? n)%nat && (n <=? 90)%nat then ascii_of_nat (n + 32) else c.

Definition kelvin_sign : string :=
  String "226" (String "132" (String "170" EmptyString)).

Fixpoint lower (s : string) : string :=
  match s with
  | EmptyString => EmptyString
  | String c1 s1 =>
      match s1 with
      | String c2 (String c3 s3) =>
          if Ascii.eqb c1 "226" && Ascii.eqb c2 "132" && Ascii.eqb c3 "170"
          then String "k" (lower s3)
          else String (ascii_lower c1) (lower s1)
      | _ => String (ascii_lower c1) (lower s1)
      end
  end.

(** [split_last_dot s] cuts [s] in front of its last ['.'] ([str.rfind]). *)
Fixpoint split_last_dot (s : string) : option (string * string) :=
  match s with
  | EmptyString => None
  | String c s' =>
      match split_last_dot s' with
      | Some (b, e) => Some (String c b, e)
      | None => if Ascii.eqb c "." then Some (EmptyString, s) else None
      end
  end.

Fixpoint all_dots (s : string) : bool :=
  match s with
  | EmptyString => true
  | String c s' => Ascii.eqb c "." && all_dots s'
  end.

(** [os.path.splitext] on a name without directory separators (what
    [os.listdir] returns): the extension starts at the last dot, unless
    only dots precede it (leading dots are not extension separators). *)
Definition splitext (p : string) : string * string :=
  match split_last_dot p with
  | Some (b, e) => if all_dots b then (p, EmptyString) else (b, e)
  | None => (p, EmptyString)
  end.

End PathName.

(** ** The category table *)

(** [FILE_CATEGORIES]: a Python dict, iterated in insertion order. *)
Definition FILE_CATEGORIES : list (string * list string) :=
  [ ("Images",    [".jpg"; ".jpeg"; ".png"; ".gif"; ".bmp"]);
    ("Documents", [".pdf"; ".doc"; ".docx"; ".txt"; ".xlsx"]);
    ("Videos",    [".mp4"; ".mkv"; ".avi"]);
    ("Music",     [".mp3"; ".wav"]);
    ("Archives",  [".zip"; ".rar"; ".tar"]);
    ("Others",    []) ].

(** Lines 63-68 of [organize_files]: the extension, lower-cased, is looked up
    category by category; the first category listing it wins, and ["Others"]
    is the default. *)
Definition file_ext (filename : string) : string :=
  PathName.lower (PathName.splitext filename).2.

Fixpoint first_category (ext : string) (table : list (string * list string))
    (default : string) : string :=
  match table with
  | [] => default
  | (cat, exts) :: table' =>
      if bool_decide (ext ∈ exts) then cat else first_category ext table' default
  end.

Definition category_of (filename : string) : string :=
  first_category (file_ext filename) FILE_CATEGORIES "Others".

(** ** The file system

    A regular file carries its bytes and two attributes standing for the
    conditions under which the script's calls fail on it: an unreadable file
    cannot be opened for hashing; a locked file (in use, or write-protected)
    can be neither deleted nor renamed.  A directory lists its entries in
    enumeration order, the order in which [os.listdir] and [os.scandir]
    report them.  Symbolic links and special files are not modelled. *)

Record file := mkFile { data : list byte; readable : bool; locked : bool }.

#[warnings="-register-all"]
Inductive node :=
| File (f : file)
| Dir (entries : list (string * node)).

Abbreviation entries := (list (string * node)).
Abbreviation path := (list string).

Module FS.

Fixpoint assoc (x : string) (es : entries) : option node :=
  match es with
  | [] => None
  | (y, c) :: es' => if decide (x = y) then Some c else assoc x es'
  end.

(** Binding a name: an existing entry is replaced in place, a new one is
    listed last. *)
Fixpoint entries_insert (x : string) (c : node) (es : entries) : entries :=
  match es with
  | [] => [(x, c)]
  | (y, d) :: es' =>
      if decide (x = y) then (x, c) :: es' else (y, d) :: entries_insert x c es'
  end.

Definition entries_delete (x : string) (es : entries) : entries :=
  filter (λ e, e.1 ≠ x) es.

Definition entries_put (x : string) (o : option node) (es : entries) : entries :=
  match o with
  | Some c => entries_insert x c es
  | None => entries_delete x es
  end.

(** Path resolution from the root of the tree. *)
Fixpoint lookup (p : path) (n : node) : option node :=
  match p with
  | [] => Some n
  | x :: p' =>
      match n with
      | Dir es => assoc x es ≫= lookup p'
      | File _ => None
      end
  end.

(** [put p o n] rebinds path [p] to [o] ([None] unlinks it).  Nothing
    happens when the parent of [p] is not a directory; the root itself can
    be replaced but not unlinked. *)
Fixpoint put (p : path) (o : option node) (n : node) : node :=
  match p with
  | [] => default n o
  | x :: p' =>
      match n with
      | Dir es =>
          match p' with
          | [] => Dir (entries_put x o es)
          | _ => Dir (entries_put x (put p' o <$> assoc x es) es)
          end
      | File _ => n
      end
  end.

(** What [os.stat] can tell about a path. *)
Inductive kind := Absent | IsDir | IsFile (f : file).

Definition kind_of (o : option node) : kind :=
  match o with
  | None => Absent
  | Some (Dir _) => IsDir
  | Some (File f) => IsFile f
  end.

Definition stat (p : path) (n : node) : kind := kind_of (lookup p n).

Definition exists_ (p : path) (n : node) : bool :=
  match stat p n with Absent => false | _ => true end.
Definition isfile (p : path) (n : node) : bool :=
  match stat p n with IsFile _ => true | _ => false end.
Definition isdir (p : path) (n : node) : bool :=
  match stat p n with IsDir => true | _ => false end.

Definition parent (p : path) : path := removelast p.
Definition basename (p : path) : string := List.last p "".

End FS.

(** ** Operating-system calls

    Each call is a function of the tree that either fails with the Python
    exception the call raises, or yields the tree it leaves behind.  A call
    that fails leaves the tree as it was, except [shutil.move], which is
    made of several calls.

    The failures modelled are those that go with the path (missing, of the
    wrong kind) and with the two attributes of a regular file.  Directories
    carry no permissions: a directory that may not be listed or written to
    makes [os.listdir] and [os.makedirs] raise as well, which the script
    does not catch either.  The statements about [organize_files] below
    therefore speak of the runs that return and say nothing of the
    exceptions other than those shown.  Likewise for the purge: [os.walk]
    passes over a directory that may not be listed, and [shutil.rmtree]
    leaves what it may not remove; the purge then removes less than it does
    here, and logs nothing about it. *)

Inductive exn :=
| FileNotFoundError
| FileExistsError
| NotADirectoryError
| IsADirectoryError
| PermissionError
| ShutilError
| EOFError.

Module OS.
Import FS.

(** [os.listdir] *)
Definition listdir (p : path) (n : node) : exn + list string :=
  match lookup p n with
  | Some (Dir es) => inr es.*1
  | Some (File _) => inl NotADirectoryError
  | None => inl FileNotFoundError
  end.

Definition entry_count (p : path) (n : node) : nat :=
  match lookup p n with
  | Some (Dir es) => length es
  | _ => 0
  end.

(** [open(p, 'rb')] followed by reading the file to its end *)
Definition read_bytes (p : path) (n : node) : exn + list byte :=
  match stat p n with
  | IsFile f => if readable f then inr (data f) else inl PermissionError
  | IsDir => inl IsADirectoryError
  | Absent => inl FileNotFoundError
  end.

(** [os.path.getsize]; only ever applied to regular files here, the size of
    a directory entry is of no consequence. *)
Definition getsize (p : path) (n : node) : exn + nat :=
  match stat p n with
  | IsFile f => inr (length (data f))
  | IsDir => inr 0
  | Absent => inl FileNotFoundError
  end.

(** [os.mkdir] *)
Definition mkdir (p : path) (n : node) : exn + node :=
  match stat p n with
  | Absent =>
      match stat (parent p) n with
      | IsDir => inr (put p (Some (Dir [])) n)
      | IsFile _ => inl NotADirectoryError
      | Absent => inl FileNotFoundError
      end
  | _ => inl FileExistsError
  end.

(** [os.makedirs(name, exist_ok=True)], on the reversed path so that the
    recursion on the head of [os.path.split] is structural: missing ancestors
    are created first; a failing [mkdir] is forgiven exactly when the path
    is an existing directory. *)
Fixpoint makedirs_rev (rp : list string) (n : node) : exn + node :=
  let name := rev rp in
  let made_head :=
    match rp with
    | [] => inr n
    | _ :: rhead =>
        if exists_ (rev rhead) n then inr n
        else match makedirs_rev rhead n with
             | inl FileExistsError => inr n
             | r => r
             end
    end in
  match made_head with
  | inl e => inl e
  | inr n1 =>
      match mkdir name n1 with
      | inr n2 => inr n2
      | inl e => if isdir name n1 then inr n1 else inl e
      end
  end.

Definition makedirs (p : path) (n : node) : exn + node := makedirs_rev (rev p) n.

(** [os.remove] *)
Definition remove (p : path) (n : node) : exn + node :=
  match stat p n with
  | IsFile f => if locked f then inl PermissionError else inr (put p None n)
  | IsDir => inl IsADirectoryError
  | Absent => inl FileNotFoundError
  end.

(** [os.rename] of a regular file; an existing regular file at the
    destination is replaced.  (Directories are never renamed by the script:
    it moves only paths for which [os.path.isfile] held.) *)
Definition rename (src dst : path) (n : node) : exn + node :=
  match stat src n with
  | IsFile f =>
      if locked f then inl PermissionError else
      match stat dst n, stat (parent dst) n with
      | IsDir, _ => inl IsADirectoryError
      | _, IsDir => inr (put dst (Some (File f)) (put src None n))
      | _, IsFile _ => inl NotADirectoryError
      | _, Absent => inl FileNotFoundError
      end
  | IsDir => inl PermissionError
  | Absent => inl FileNotFoundError
  end.

(** What [shutil.copy2] leaves at the destination: a new regular file with
    the bytes and the permission bits of the source.  What keeps the source
    from being deleted or renamed does not go over with it. *)
Definition copy_of (f : file) : file := mkFile (data f) (readable f) false.

(** [shutil.copy2] of a regular file: the source is opened for reading, then
    the destination for writing, which creates or truncates it.  A
    destination that is a directory receives the copy under the name of the
    source; copying a file onto itself raises [SameFileError], a
    [shutil.Error]. *)
Definition copy2 (src dst : path) (n : node) : exn + node :=
  let dst := if isdir dst n then dst ++ [basename src] else dst in
  if decide (src = dst) then
    (if exists_ src n then inl ShutilError else inl FileNotFoundError)
  else
    match stat src n with
    | IsFile f =>
        if readable f then
          match stat dst n, stat (parent dst) n with
          | IsDir, _ => inl IsADirectoryError
          | IsFile g, _ =>
              if locked g then inl PermissionError
              else inr (put dst (Some (File (copy_of f))) n)
          | Absent, IsDir => inr (put dst (Some (File (copy_of f))) n)
          | Absent, IsFile _ => inl NotADirectoryError
          | Absent, Absent => inl FileNotFoundError
          end
        else inl PermissionError
    | IsDir => inl IsADirectoryError
    | Absent => inl FileNotFoundError
    end.

(** [shutil.move]: a destination that is a directory receives the source
    under its own name, unless that name is taken; otherwise the source is
    renamed to the destination.  When [os.rename] fails, the [OSError] is
    caught and the move falls back on [copy2] followed by [os.unlink]: a
    file that can be read but neither renamed nor deleted is copied to the
    destination before the exception of [os.unlink] leaves the call.  The
    result is the exception that leaves the call, if any, and the tree the
    call leaves behind.  (The fallback for a source that is a directory is
    [copytree]; the script moves only paths for which [os.path.isfile]
    held.) *)
Definition move (src dst : path) (n : node) : option exn * node :=
  let real_dst := if isdir dst n then dst ++ [basename src] else dst in
  if isdir dst n && exists_ real_dst n then (Some ShutilError, n)
  else
    match rename src real_dst n with
    | inr n' => (None, n')
    | inl e =>
        match stat src n with
        | IsDir => (Some e, n)
        | _ =>
            match copy2 src real_dst n with
            | inl e' => (Some e', n)
            | inr n1 =>
                match remove src n1 with
                | inr n2 => (None, n2)
                | inl e' => (Some e', n1)
                end
            end
        end
    end.

(** [shutil.rmtree(p, ignore_errors=True)] on a subtree: whatever can be
    unlinked is; a directory goes once it is empty.  [None] means that the
    whole subtree is gone. *)
Fixpoint rmtree_node (n : node) : option node :=
  match n with
  | File f => if locked f then Some (File f) else None
  | Dir es =>
      let fix go (es : entries) : entries :=
        match es with
        | [] => []
        | (x, c) :: es' =>
            match rmtree_node c with
            | Some c' => (x, c') :: go es'
            | None => go es'
            end
        end in
      match go es with
      | [] => None
      | es' => Some (Dir es')
      end
  end.

Definition rmtree_ignore_errors (p : path) (n : node) : node :=
  match lookup p n with
  | Some (Dir es) => put p (rmtree_node (Dir es)) n
  | _ => n
  end.

Definition is_dir_node (n : node) : bool :=
  match n with Dir _ => true | File _ => false end.

(** What [os.scandir] sorts into [dirs] and [nondirs]. *)
Definition dirs_of (es : entries) : list string :=
  (filter (λ e, is_dir_node e.2) es).*1.
Definition nondirs_of (es : entries) : list string :=
  (filter (λ e, ¬ is_dir_node e.2) es).*1.

(** [os.walk(top, topdown=False)]: the triples [(root, dirs, files)] in the
    order in which the generator yields them, every sub-directory before the
    directory that lists it.  The generator scans a directory when it enters
    it; the loop bodies that have run by then only touched subtrees of
    directories visited earlier, so the scan sees what the tree held when
    the walk began. *)
Fixpoint walk_bottom_up (top : path) (n : node) : list (path * list string * list string) :=
  match n with
  | File _ => []
  | Dir es =>
      let fix sub (es : entries) :=
        match es with
        | [] => []
        | (x, c) :: es' => walk_bottom_up (top ++ [x]) c ++ sub es'
        end in
      sub es ++ [(top, dirs_of es, nondirs_of es)]
  end.

Definition walk (top : path) (n : node) : list (path * list string * list string) :=
  match lookup top n with
  | Some c => walk_bottom_up top c
  | None => []
  end.

End OS.

(** ** The script's effects

    A run reads and changes the file system and writes to the log file and
    to the terminal; it ends by returning a value or with an uncaught
    exception.  [Hang] stands for a loop that does not come to an end. *)

Inductive channel := LoggingError | LoggingWarning | LoggingInfo | Printed.

Inductive message :=
| DirectoryDoesNotExist (source_dir : path)
| ErrorHashing (file_path : path) (e : exn)
| DuplicateFound (filename : string)
| Moved (filename category : string)
| FailedToMove (filename : string) (e : exn)
| CleanupWarning
| CleanupAborted
| Deleted (file_path : path) (file_size : nat)
| FailedToDelete (p : path) (e : exn)
| DeletedDirectory (dir_path : path).

Record world := World { fs : node; log : list (channel * message) }.

Inductive outcome (A : Type) :=
| Return (a : A)
| Raise (e : exn)
| Hang.
Arguments Return {A} a.
Arguments Raise {A} e.
Arguments Hang {A}.

Definition M (A : Type) : Type := world → outcome A * world.

#[global] Instance M_ret : MRet M := λ A a w, (Return a, w).

#[global] Instance M_bind : MBind M := λ A B k m w,
  match m w with
  | (Return a, w') => k a w'
  | (Raise e, w') => (Raise e, w')
  | (Hang, w') => (Hang, w')
  end.

(** [try: m  except Exception as e: h e] *)
Definition try_except {A} (m : M A) (h : exn → M A) : M A := λ w,
  match m w with
  | (Raise e, w') => h e w'
  | r => r
  end.

Definition hang {A} : M A := λ w, (Hang, w).

Definition raise {A} (e : exn) : M A := λ w, (Raise e, w).

Definition query {A} (f : node → A) : M A := λ w, (Return (f (fs w)), w).

Definition query_or_raise {A} (f : node → exn + A) : M A := λ w,
  match f (fs w) with
  | inr a => (Return a, w)
  | inl e => (Raise e, w)
  end.

Definition syscall (f : node → exn + node) : M unit := λ w,
  match f (fs w) with
  | inr n => (Return (), World n (log w))
  | inl e => (Raise e, w)
  end.

(** A call that may have changed the tree by the time it raises. *)
Definition syscall_in_steps (f : node → option exn * node) : M unit := λ w,
  match f (fs w) with
  | (None, n) => (Return (), World n (log w))
  | (Some e, n) => (Raise e, World n (log w))
  end.

Definition emit (c : channel) (m : message) : M unit := λ w,
  (Return (), World (fs w) (log w ++ [(c, m)])).

Definition os_path_exists (p : path) : M bool := query (FS.exists_ p).
Definition os_path_isfile (p : path) : M bool := query (FS.isfile p).
Definition os_listdir (p : path) : M (list string) := query_or_raise (OS.listdir p).
Definition os_path_getsize (p : path) : M nat := query_or_raise (OS.getsize p).
Definition os_makedirs_exist_ok (p : path) : M unit := syscall (OS.makedirs p).
Definition os_remove (p : path) : M unit := syscall (OS.remove p).
Definition shutil_move (src dst : path) : M unit := syscall_in_steps (OS.move src dst).
Definition shutil_rmtree_ignore_errors (p : path) : M unit :=
  syscall (λ n, inr (OS.rmtree_ignore_errors p n)).
Definition os_walk_bottom_up (top : path) : M (list (path * list string * list string)) :=
  query (OS.walk top).
Definition logging_error : message → M unit := emit LoggingError.
Definition logging_warning : message → M unit := emit LoggingWarning.
Definition logging_info : message → M unit := emit LoggingInfo.
Definition print : message → M unit := emit Printed.

(** A [for] loop threading the variables the body assigns. *)
Fixpoint for_each {A S} (body : S → A → M S) (l : list A) (s : S) : M S :=
  match l with
  | [] => mret s
  | a :: l' => s' ← body s a; for_each body l' s'
  end.

(** ** [get_file_hash] and [organize_files] *)

Section Organizer.

(** [hashlib.md5(content).hexdigest()]; the file is read in chunks of 4096
    bytes until it is exhausted, so the digest is that of all its bytes. *)
Variable md5 : list byte → string.

Definition get_file_hash (file_path : path) : M (option string) :=
  try_except
    (content ← query_or_raise (OS.read_bytes file_path);
     mret (Some (md5 content)))
    (λ e, logging_error (ErrorHashing file_path e);; mret None).

(** The variables of the loop of [organize_files]. *)
Record tally := Tally {
  file_hashes : gmap string path;
  moved_count : nat;
  duplicate_count : nat
}.

(** Python's truth value of [file_hash]: [None] and the empty string are
    false. *)
Definition truthy (file_hash : option string) : option string :=
  match file_hash with
  | Some h => if decide (h = "") then None else Some h
  | None => None
  end.

(** Lines 75-83.  [inl] is the [continue] of line 81: the file was deleted as
    a duplicate; [inr] goes on to the move. *)
Definition check_duplicate (source_path : path) (filename : string) (t : tally)
    : M (tally + tally) :=
  file_hash ← get_file_hash source_path;
  match truthy file_hash with
  | Some h =>
      if decide (is_Some (file_hashes t !! h)) then
        logging_warning (DuplicateFound filename);;
        os_remove source_path;;
        mret (inl (Tally (file_hashes t) (moved_count t) (duplicate_count t + 1)))
      else
        mret (inr (Tally (<[h := source_path]> (file_hashes t))
                     (moved_count t) (duplicate_count t)))
  | None => mret (inr t)
  end.

(** Lines 91-93: [while os.path.exists(dest_path)].  Every round that finds
    the path taken tries the next counter. *)
Fixpoint next_free (category_dir : path) (base ext : string)
    (fuel counter : nat) (dest_path : path) : M path :=
  match fuel with
  | 0 => hang
  | S fuel' =>
      taken ← os_path_exists dest_path;
      if (taken : bool) then
        next_free category_dir base ext fuel' (S counter)
          (category_dir ++ [base +:+ "_" +:+ pretty counter +:+ ext])
      else mret dest_path
  end.

(** Lines 86-93.  The loop is run for two rounds more than the category
    folder has entries; [choose_dest_spec] shows that it has always found
    a free name by then. *)
Definition choose_dest (category_dir : path) (filename : string) : M path :=
  let dest_path := category_dir ++ [filename] in
  taken ← os_path_exists dest_path;
  if (taken : bool) then
    let '(base, ext) := PathName.splitext filename in
    entries ← query (OS.entry_count category_dir);
    next_free category_dir base ext (S (S entries)) 1 dest_path
  else mret dest_path.

(** Lines 85-101. *)
Definition relocate (source_dir : path) (category filename : string) (t : tally)
    : M tally :=
  let source_path := source_dir ++ [filename] in
  let category_dir := source_dir ++ [category] in
  dest_path ← choose_dest category_dir filename;
  try_except
    (shutil_move source_path dest_path;;
     logging_info (Moved filename category);;
     mret (Tally (file_hashes t) (moved_count t + 1) (duplicate_count t)))
    (λ e,
     logging_error (FailedToMove filename e);;
     print (FailedToMove filename e);;
     mret t).

(** The body of the loop, lines 60-101. *)
Definition organize_entry (source_dir : path) (delete_duplicates : bool)
    (t : tally) (filename : string) : M tally :=
  let source_path := source_dir ++ [filename] in
  is_file ← os_path_isfile source_path;
  if (is_file : bool) then
    let category := category_of filename in
    let category_dir := source_dir ++ [category] in
    os_makedirs_exist_ok category_dir;;
    if delete_duplicates then
      r ← check_duplicate source_path filename t;
      match r with
      | inl t' => mret t'
      | inr t' => relocate source_dir category filename t'
      end
    else relocate source_dir category filename t
  else mret t.

Definition organize_files (source_dir : path) (delete_duplicates : bool)
    : M (nat * nat) :=
  found ← os_path_exists source_dir;
  if (found : bool) then
    listing ← os_listdir source_dir;
    t ← for_each (organize_entry source_dir delete_duplicates) listing (Tally ∅ 0 0);
    mret (moved_count t, duplicate_count t)
  else
    logging_error (DirectoryDoesNotExist source_dir);;
    print (DirectoryDoesNotExist source_dir);;
    mret (0, 0).

End Organizer.

(** ** [clean_temp_files] *)

(** What the expansions in [TEMP_DIRS] resolve to: [%temp%], [%appdata%]
    and [~]. *)
Record environ := Environ { temp : path; appdata : path; home : path }.

Definition TEMP_DIRS (env : environ) : list (string * list path) :=
  [ ("Windows", [temp env; appdata env ++ ["Microsoft"; "Windows"; "Recent"]]);
    ("Linux",   [["tmp"]; home env ++ [".cache"]]);
    ("Darwin",  [home env ++ ["Library"; "Caches"]; ["private"; "var"; "tmp"]]) ].

(** [dict.get(key, default)] *)
Fixpoint dict_get {V} (key : string) (d : list (string * V)) (default : V) : V :=
  match d with
  | [] => default
  | (k, v) :: d' => if decide (key = k) then v else dict_get key d' default
  end.

(** Lines 124-133: one file of the walk. *)
Definition delete_file (root : path) (acc : nat * nat) (file : string)
    : M (nat * nat) :=
  let file_path := root ++ [file] in
  try_except
    (file_size ← os_path_getsize file_path;
     os_remove file_path;;
     logging_info (Deleted file_path file_size);;
     mret (acc.1 + 1, acc.2 + file_size))
    (λ e, logging_error (FailedToDelete file_path e);; mret acc).

(** Lines 134-140: one sub-directory of the walk. *)
Definition delete_dir (root : path) (acc : nat * nat) (dir : string)
    : M (nat * nat) :=
  let dir_path := root ++ [dir] in
  try_except
    (shutil_rmtree_ignore_errors dir_path;;
     logging_info (DeletedDirectory dir_path);;
     mret acc)
    (λ e, logging_error (FailedToDelete dir_path e);; mret acc).

(** Lines 123-140: the body of the loop over [os.walk]. *)
Definition purge_triple (acc : nat * nat) (triple : path * list string * list string)
    : M (nat * nat) :=
  let '(root, dirs, files) := triple in
  acc ← for_each (delete_file root) files acc;
  for_each (delete_dir root) dirs acc.

(** Lines 120-140: one temp location. *)
Definition purge_location (acc : nat * nat) (temp_dir : path) : M (nat * nat) :=
  found ← os_path_exists temp_dir;
  if (found : bool) then
    triples ← os_walk_bottom_up temp_dir;
    for_each purge_triple triples acc
  else mret acc.

(** [system] is what [platform.system()] returns, [answer] what the user
    types at the prompt. *)
Definition clean_temp_files (env : environ) (system answer : string)
    : M (nat * nat) :=
  let temp_dirs := dict_get system (TEMP_DIRS env) [] in
  print CleanupWarning;;
  let confirm := PathName.lower answer in
  if decide (confirm ≠ "y") then
    print CleanupAborted;;
    mret (0, 0)
  else
    for_each purge_location temp_dirs (0, 0).

(** ** [run_automation] *)

(** The two lines that [run_automation] itself writes.  The summary carries
    the four numbers it reports; [total_size] is in bytes (the script prints
    it divided by 1024, with two decimals). *)
Inductive notice :=
| Starting
| Summary (moved_count duplicate_count deleted_count total_size : nat).

(** A run of the script: the file system, and all that has been written to
    the log file and to the terminal, by the components or by
    [run_automation]. *)
Record session := Session {
  disk : node;
  journal : list (channel * (message + notice))
}.

(** A component works on the file system of the session; the lines it
    writes are appended to the journal. *)
Definition component {A} (m : M A) (s : session) : outcome A * session :=
  let '(r, w') := m (World (disk s) []) in
  (r, Session (fs w') (journal s ++ (prod_map id inl <$> log w'))).

Definition note (c : channel) (n : notice) (s : session) : session :=
  Session (disk s) (journal s ++ [(c, inr n)]).

(** [clean_temp_files] as [run_automation] calls it, with what standard
    input holds: [input] at line 114 returns the line typed at the prompt,
    or raises [EOFError] when there is no line to read.  The warning has
    been printed by then, and nothing catches the exception. *)
Definition clean_temp_files_at_prompt (env : environ) (system : string)
    (stdin : option string) : M (nat * nat) :=
  match stdin with
  | Some answer => clean_temp_files env system answer
  | None => print CleanupWarning;; raise EOFError
  end.

(** Lines 144-165.  [source_dir] is [None] when the script is started
    without a directory ([if source_dir:] fails for [None] and for the empty
    string). *)
Definition run_automation (md5 : list byte → string) (env : environ)
    (system : string) (stdin : option string) (source_dir : option path)
    (delete_duplicates clean_temp : bool) (s : session) : outcome unit * session :=
  let s := note LoggingInfo Starting s in
  let '(organized, s) :=
    match source_dir with
    | Some d => component (organize_files md5 d delete_duplicates) s
    | None => (Return (0, 0), s)
    end in
  match organized with
  | Return (moved_count, duplicate_count) =>
      let '(cleaned, s) :=
        if clean_temp then component (clean_temp_files_at_prompt env system stdin) s
        else (Return (0, 0), s) in
      match cleaned with
      | Return (deleted_count, total_size) =>
          let summary := Summary moved_count duplicate_count deleted_count total_size in
          (Return (), note Printed summary (note LoggingInfo summary s))
      | Raise e => (Raise e, s)
      | Hang => (Hang, s)
      end
  | Raise e => (Raise e, s)
  | Hang => (Hang, s)
  end.

(** ** Sample runs *)

Module Samples.

(** An injective stand-in for the digest: the bytes, behind a marker. *)
Definition toy_md5 (content : list byte) : string :=
  String "#" (String.string_of_list_ascii (ascii_of_byte <$> content)).

Definition bytes_of (s : string) : list byte :=
  byte_of_ascii <$> String.list_ascii_of_string s.

Definition plain (s : string) : node := File (mkFile (bytes_of s) true false).
Definition in_use (s : string) : node := File (mkFile (bytes_of s) true true).

Definition downloads : node :=
  Dir [("home", Dir [("dl", Dir [
    ("a.txt", plain "A"); ("b.JPG", plain "B"); ("copy.txt", plain "A");
    ("Documents", Dir [("a.txt", plain "old"); ("a_1.txt", plain "older")]);
    ("notes", plain "N"); ("busy.mp3", in_use "M")])])].


Definition mixed_entries : entries :=
  [("a.txt", plain "A"); ("b.JPG", plain "B");
   ("busy.mp3", in_use "M"); ("notes", plain "N")].

Definition mixed_world : world := World (Dir [("dl", Dir mixed_entries)]) [].

Definition twin_world : world :=
  World (Dir [("dl", Dir [("a.txt", plain "A"); ("copy.txt", plain "A")])]) [].






(** A duplicate that cannot be deleted, between two other files. *)
Definition interrupted_world : world :=
  World (Dir [("dl", Dir [("a.txt", plain "A"); ("copy.txt", in_use "A");
                          ("b.txt", plain "B")])]) [].


(** Linux with the home directory at [/home/u]: the temp locations are
    [/tmp] and [/home/u/.cache]. *)
Definition linux_env : environ := Environ [] [] ["home"; "u"].

Definition busy_tmp : world :=
  World (Dir [("tmp", Dir [("x", plain "abc");
                           ("d", Dir [("y", in_use "12345"); ("e", Dir [])])]);
              ("home", Dir [("u", Dir [(".cache", Dir [("z", plain "zz")])])])]) [].

(** Linux with the home directory at [/tmp/u]: the second temp location,
    [/tmp/u/.cache], lies inside the first. *)
Definition nested_env : environ := Environ [] [] ["tmp"; "u"].

Definition nested_tmp : world :=
  World (Dir [("tmp", Dir [("x", plain "abc");
                           ("u", Dir [(".cache", Dir [("y", plain "12345")])])])]) [].

End Samples.

(** * Notions used in the statements

    Everything the lemmas and theorems below speak about, beyond the model
    itself. *)

Module Notions.
Import FS.

(** A node without anything below it: nothing, a regular file, or an empty
    directory. *)
Definition leafy (o : option node) : Prop :=
  ∀ x r, o ≫= lookup (x :: r) = None.

(** The name tried in round [counter] of the loop: [f"{base}_{counter}{ext}"]. *)
Definition numbered (base ext : string) (counter : nat) : string :=
  base +:+ "_" +:+ pretty counter +:+ ext.

(** The names the mover tries, in order: the file's own name, then the
    numbered ones. *)
Definition candidate (filename : string) (i : nat) : string :=
  match i with
  | 0 => filename
  | S _ => numbered (PathName.splitext filename).1 (PathName.splitext filename).2 i
  end.

(** What the attempt to move a regular file leaves at the destination: the
    file itself; or, when the file can be neither renamed nor deleted, a copy
    of it if it can be read, and nothing if it cannot. *)
Definition landed (f : file) : kind :=
  if locked f then (if readable f then IsFile (OS.copy_of f) else Absent)
  else IsFile f.

(** The same, as far as the code decides it: what [copy2] leaves is a file
    with the bytes of the source. *)
Definition arrives (f : file) (k : kind) : Prop :=
  if locked f then
    if readable f then ∃ g, k = IsFile g ∧ data g = data f else k = Absent
  else k = IsFile f.

(** The tree once line 72 has run. *)
Definition after_makedirs (src : path) (cat : string) (n : node) : node :=
  match stat (src ++ [cat]) n with
  | Absent => put (src ++ [cat]) (Some (Dir [])) n
  | _ => n
  end.

(** A file that [shutil.move] can move. *)
Definition movable (e : string * node) : bool :=
  match e.2 with
  | File f => negb (locked f)
  | Dir _ => false
  end.

Definition only_files (es : entries) : Prop :=
  Forall (λ e, ∃ f, e.2 = File f) es.

(** The state of a directory of regular files once the names in [done] have
    been dealt with, paths being relative to the source directory: the files
    not yet dealt with are where they were; a file dealt with has landed
    under its category folder, and is still in the directory if it could not
    be moved; there is no other regular file, and no directory but the
    category folders. *)
Record sorted_upto (src : path) (es : entries)
    (done : list string) (n : node) : Prop := {
  su_src : stat src n = IsDir;
  su_todo : ∀ name f, (name, File f) ∈ es → name ∉ done →
            stat (src ++ [name]) n = IsFile f;
  su_done : ∀ name f, (name, File f) ∈ es → name ∈ done →
            stat (src ++ [category_of name; name]) n = landed f
            ∧ (locked f = true → stat (src ++ [name]) n = IsFile f);
  su_files : ∀ q g, stat (src ++ q) n = IsFile g →
             ∃ name f, (name, File f) ∈ es
               ∧ ((q = [name] ∧ g = f ∧ (name ∈ done → locked f = true))
                  ∨ (q = [category_of name; name] ∧ name ∈ done
                     ∧ landed f = IsFile g));
  su_dirs : ∀ q, stat (src ++ q) n = IsDir → q = [] ∨ ∃ c, q = [c]
}.

(** The sum of [μ] over the regular files of a tree. *)
Fixpoint weigh (μ : file → nat) (n : node) : nat :=
  match n with
  | File f => μ f
  | Dir es =>
      (fix go (es : entries) : nat :=
         match es with
         | [] => 0
         | (_, c) :: es' => weigh μ c + go es'
         end) es
  end.

Definition weigh_opt (μ : file → nat) (o : option node) : nat :=
  from_option (weigh μ) 0 o.

Definition file_count : node → nat := weigh (λ _, 1).
Definition total_bytes : node → nat := weigh (λ f, length (data f)).

(** Well-formed trees: the names in a directory are pairwise distinct. *)
Fixpoint wf (n : node) : Prop :=
  match n with
  | File _ => True
  | Dir es =>
      NoDup es.*1 ∧
      (fix go (es : entries) : Prop :=
         match es with
         | [] => True
         | (_, c) :: es' => wf c ∧ go es'
         end) es
  end.

Definition wf_opt (o : option node) : Prop := from_option wf True o.

(** [q] lies strictly inside [top]. *)
Definition inside (top q : path) : Prop := ∃ x r, q = top ++ x :: r.

Definition walk_children (top : path) (es : entries)
    : list (path * list string * list string) :=
  (fix sub (es : entries) :=
     match es with
     | [] => []
     | (x, c) :: es' => OS.walk_bottom_up (top ++ [x]) c ++ sub es'
     end) es.

Definition rmtree_entries (es : entries) : entries :=
  (fix go (es : entries) : entries :=
     match es with
     | [] => []
     | (x, c) :: es' =>
         match OS.rmtree_node c with
         | Some c' => (x, c') :: go es'
         | None => go es'
         end
     end) es.

(** What a stretch of the purge below [top] leaves of the world [w]. *)
Definition tame (top : path) (w w' : world) : Prop :=
  wf (fs w')
  ∧ (∀ q, ¬ top `prefix_of` q → ¬ q `prefix_of` top →
          lookup q (fs w') = lookup q (fs w))
  ∧ (∀ q f, stat q (fs w') = IsFile f → stat q (fs w) = IsFile f)
  ∧ (∀ q, ¬ inside top q → stat q (fs w') = stat q (fs w))
  ∧ (∃ l, log w' = log w ++ l).

(** The counters have grown by what the tree has lost. *)
Definition tally_ok (w w' : world) (acc acc' : nat * nat) : Prop :=
  file_count (fs w) + acc.1 = file_count (fs w') + acc'.1
  ∧ total_bytes (fs w) + acc.2 = total_bytes (fs w') + acc'.2.

(** Every file at or below [top] is locked. *)
Definition all_locked (top : path) (n : node) : Prop :=
  ∀ r f, stat (top ++ r) n = IsFile f → locked f = true.

(** Every file strictly inside [top] is one that could not be deleted, and
    the failure is in the log. *)
Definition settled (top : path) (w : world) : Prop :=
  ∀ x r f, stat (top ++ x :: r) (fs w) = IsFile f →
    locked f = true
    ∧ (LoggingError, FailedToDelete (top ++ x :: r) PermissionError) ∈ log w.

(** What walking the tree [n] found at [top] achieves. *)
Definition walk_ok (n : node) : Prop :=
  ∀ top w acc acc' w',
    wf (fs w) → lookup top (fs w) = Some n →
    for_each purge_triple (OS.walk_bottom_up top n) acc w = (Return acc', w') →
    tally_ok w w' acc acc' ∧ settled top w'.

(** A source directory on which [organize_files] has nothing left to do:
    every regular file directly in it is one that cannot be moved, its
    category folder is there, and, when duplicates are looked for, no two of
    these files have the same usable digest. *)
Definition stuck (md5 : list byte → string) (src : path) (dd : bool) (n : node) : Prop :=
  (∀ m g, stat (src ++ [m]) n = IsFile g →
          locked g = true ∧ stat (src ++ [category_of m]) n = IsDir)
  ∧ (dd = true → ∀ m1 m2 g1 g2 h,
       stat (src ++ [m1]) n = IsFile g1 → stat (src ++ [m2]) n = IsFile g2 →
       readable g1 = true → readable g2 = true →
       truthy (Some (md5 (data g1))) = Some h → truthy (Some (md5 (data g2))) = Some h →
       m1 = m2).

(** A string without a dot. *)
Fixpoint dotless (s : string) : bool :=
  match s with
  | EmptyString => true
  | String c s' => negb (Ascii.eqb c ".") && dotless s'
  end.

(** Whether a string starts with the Kelvin sign. *)
Definition kelvin_head (s : string) : bool :=
  match s with
  | String c1 (String c2 (String c3 _)) =>
      Ascii.eqb c1 "226" && Ascii.eqb c2 "132" && Ascii.eqb c3 "170"
  | _ => false
  end.

(** What a stretch of [organize_files] on [src] leaves alone: everything
    outside [src], every regular file in a subfolder of [src], and every
    directory. *)
Definition spares (src : path) (n n' : node) : Prop :=
  (∀ q, ¬ src `prefix_of` q → stat q n' = stat q n)
  ∧ (∀ c x r f, stat (src ++ c :: x :: r) n = IsFile f →
                stat (src ++ c :: x :: r) n' = IsFile f)
  ∧ (∀ q, stat q n = IsDir → stat q n' = IsDir).

(** The names of [names] under which [src] holds a regular file. *)
Definition files_in (src : path) (n : node) (names : list string) : list string :=
  filter (λ x, isfile (src ++ [x]) n = true) names.

(** No two readable regular files of the directory have the same digest. *)
Definition twinless (md5 : list byte → string) (src : path) (n : node) : Prop :=
  ∀ n1 n2 f1 f2, n1 ≠ n2 →
    stat (src ++ [n1]) n = IsFile f1 → stat (src ++ [n2]) n = IsFile f2 →
    readable f1 = true → readable f2 = true → md5 (data f1) ≠ md5 (data f2).


(** Whatever [n'] holds, [n] held at the same place. *)
Definition wanes (n n' : node) : Prop :=
  ∀ q, stat q n' = Absent ∨ stat q n' = stat q n.

(** A stretch of the purge below [top]. *)
Definition dwindles (top : path) (w w' : world) : Prop :=
  tame top w w' ∧ wanes (fs w) (fs w').

End Notions.

(** * Facts about the model *)

Local Close Scope string_scope.

Module FSFacts.
Import FS.
Import Notions.

Lemma assoc_entries_insert y x c es :
  assoc y (entries_insert x c es) = if decide (y = x) then Some c else assoc y es.
Proof.
  induction es as [|[z d] es IH]; simpl.
  - repeat case_decide; congruence.
  - destruct (decide (x = z)) as [->|Hxz]; simpl.
    + repeat case_decide; congruence.
    + rewrite IH. repeat case_decide; congruence.
Qed.

Lemma assoc_entries_delete y x es :
  assoc y (entries_delete x es) = if decide (y = x) then None else assoc y es.
Proof.
  unfold entries_delete.
  induction es as [|[z d] es IH]; simpl.
  - by case_decide.
  - rewrite filter_cons. simpl. destruct (decide (z ≠ x)) as [Hzx|Hzx]; simpl.
    + rewrite IH. repeat case_decide; congruence.
    + apply dec_stable in Hzx as ->. rewrite IH. repeat case_decide; congruence.
Qed.

Lemma assoc_entries_put y x o es :
  assoc y (entries_put x o es) = if decide (y = x) then o else assoc y es.
Proof. destruct o; [apply assoc_entries_insert | apply assoc_entries_delete]. Qed.

Lemma lookup_app p r n : lookup (p ++ r) n = lookup p n ≫= lookup r.
Proof.
  revert n. induction p as [|x p IH]; intros n; [done|].
  simpl. destruct n as [f|es]; [done|].
  destruct (assoc x es) as [c|]; simpl; [apply IH | done].
Qed.

Lemma leafy_None : leafy None.
Proof. done. Qed.
Lemma leafy_File f : leafy (Some (File f)).
Proof. done. Qed.
Lemma leafy_empty_Dir : leafy (Some (Dir [])).
Proof. done. Qed.

Lemma stat_root_IsDir n : stat [] n = IsDir → ∃ es, n = Dir es.
Proof. destruct n; [done | eauto]. Qed.

Lemma put_cons x z p o es :
  put (x :: z :: p) o (Dir es)
  = Dir (entries_put x (put (z :: p) o <$> assoc x es) es).
Proof. done. Qed.

Lemma put_singleton x o es : put [x] o (Dir es) = Dir (entries_put x o es).
Proof. done. Qed.

#[local] Arguments put : simpl never.

Lemma stat_cons y r es :
  stat (y :: r) (Dir es) = match assoc y es with Some c => stat r c | None => Absent end.
Proof. unfold stat. simpl. by destruct (assoc y es). Qed.

Lemma stat_cons_File y r f : stat (y :: r) (File f) = Absent.
Proof. done. Qed.

Lemma leafy_Some c x r : leafy (Some c) → lookup (x :: r) c = None.
Proof. intros H. exact (H x r). Qed.

Lemma lookup_singleton x es : lookup [x] (Dir es) = assoc x es.
Proof. simpl. by destruct (assoc x es). Qed.

Lemma leafy_stat o x r : leafy o → kind_of (o ≫= lookup (x :: r)) = Absent.
Proof. intros H. by rewrite H. Qed.

(** Rebinding one leaf to another changes what [stat] reports at that path
    and nowhere else. *)
Lemma stat_put_leaf p o n q :
  p ≠ [] → stat (parent p) n = IsDir → leafy (lookup p n) → leafy o →
  stat q (put p o n) = if decide (q = p) then kind_of o else stat q n.
Proof.
  revert n q. induction p as [|x p IH]; intros n q Hne Hpar Hold Hnew; [done|].
  destruct p as [|z p].
  - apply stat_root_IsDir in Hpar as [es ->]. rewrite put_singleton.
    destruct q as [|y r]; [by case_decide|].
    rewrite !stat_cons, assoc_entries_put.
    destruct (decide (y = x)) as [->|Hyx].
    + destruct r as [|r1 r].
      * rewrite decide_True by done. by destruct o.
      * rewrite decide_False by congruence.
        rewrite (lookup_singleton x es) in Hold. unfold stat.
        destruct o as [c|]; rewrite ?(leafy_Some _ _ _ Hnew);
          destruct (assoc x es) as [d|]; by rewrite ?(leafy_Some _ _ _ Hold).
    + by rewrite decide_False by congruence.
  - change (parent (x :: z :: p)) with (x :: parent (z :: p)) in Hpar.
    destruct n as [f|es]; [done|]. rewrite stat_cons in Hpar.
    destruct (assoc x es) as [c|] eqn:Hc; [|done].
    rewrite put_cons, Hc. simpl fmap.
    destruct q as [|y r]; [by case_decide|].
    rewrite !stat_cons. unfold entries_put. rewrite assoc_entries_insert.
    destruct (decide (y = x)) as [->|Hyx].
    + rewrite Hc. simpl. rewrite IH; [|done|done| |done].
      * repeat case_decide; congruence.
      * intros a b. specialize (Hold a b). simpl in Hold. rewrite Hc in Hold. done.
    + rewrite decide_False by congruence. done.
Qed.

End FSFacts.

Module NameFacts.
Import FS FSFacts.
Import Notions.

Lemma string_app_length (s1 s2 : string) :
  String.length (s1 +:+ s2) = String.length s1 + String.length s2.
Proof. induction s1 as [|c s1 IH]; simpl; [done | by rewrite IH]. Qed.

Lemma string_app_inj_r (s1 s2 e : string) : s1 +:+ e = s2 +:+ e → s1 = s2.
Proof.
  revert s2. induction s1 as [|c s1 IH]; intros [|c' s2] H; simpl in H.
  - done.
  - apply (f_equal String.length) in H.
    change (String.length e = S (String.length (s2 +:+ e))) in H.
    rewrite string_app_length in H. lia.
  - apply (f_equal String.length) in H.
    change (S (String.length (s1 +:+ e)) = String.length e) in H.
    rewrite string_app_length in H. lia.
  - injection H as -> H. f_equal. by apply IH.
Qed.

#[global] Instance numbered_inj base ext : Inj (=) (=) (numbered base ext).
Proof.
  intros i j H. unfold numbered in H.
  apply (inj (String.append base)) in H.
  apply (inj (String.append "_")) in H.
  apply string_app_inj_r in H. by apply (inj pretty) in H.
Qed.

Lemma assoc_Some_elem x es c : assoc x es = Some c → x ∈ es.*1.
Proof.
  induction es as [|[y d] es IH]; simpl; [done|].
  case_decide as Hxy; [subst; intros _; apply list_elem_of_here|].
  intros H. apply list_elem_of_further, IH, H.
Qed.

Lemma assoc_None_elem x es : assoc x es = None ↔ x ∉ es.*1.
Proof.
  induction es as [|[y d] es IH]; simpl; [by split; [intros _; apply not_elem_of_nil|]|].
  rewrite not_elem_of_cons.
  case_decide as Hxy; [subst; split; [done | tauto] |].
  rewrite IH. tauto.
Qed.

(** Among more candidates than the directory has entries, one is free. *)
Lemma free_candidate (base ext : string) (es : entries) :
  ∃ k : nat, (1 ≤ k ≤ S (length es))%nat ∧ assoc (numbered base ext k) es = None.
Proof.
  set (cands := numbered base ext <$> seq 1 (S (length es))).
  destruct (decide (Exists (λ x, assoc x es = None) cands)) as [Hex|Hall].
  - apply Exists_exists in Hex as (x & Hx & Hfree).
    apply list_elem_of_fmap in Hx as (k & -> & Hk).
    apply elem_of_seq in Hk. exists k. split; [lia | done].
  - exfalso. apply not_Exists_Forall in Hall; [|intros x; apply _].
    assert (cands ⊆+ es.*1) as Hsub.
    { apply NoDup_submseteq.
      - apply (NoDup_fmap_2 (numbered base ext)), NoDup_seq.
      - intros x Hx. rewrite Forall_forall in Hall. specialize (Hall x Hx).
        simpl in Hall. destruct (assoc x es) eqn:E; [|done].
        by eapply assoc_Some_elem. }
    apply submseteq_length in Hsub.
    unfold cands in Hsub. rewrite !length_fmap, length_seq in Hsub. lia.
Qed.

End NameFacts.

Module OSFacts.
Import FS FSFacts NameFacts.
Import Notions.

Lemma parent_snoc (p : path) x : parent (p ++ [x]) = p.
Proof. apply removelast_last. Qed.

Lemma kind_of_Absent o : kind_of o = Absent → o = None.
Proof. by destruct o as [[]|]. Qed.

Lemma stat_Absent p n : stat p n = Absent ↔ lookup p n = None.
Proof. unfold stat. split; [apply kind_of_Absent | by intros ->]. Qed.

Lemma stat_IsDir p n : stat p n = IsDir ↔ ∃ es, lookup p n = Some (Dir es).
Proof.
  unfold stat. destruct (lookup p n) as [[f|es]|]; simpl; split;
    try done; try (intros [? ?]; done). eauto.
Qed.

Lemma stat_IsFile p n f : stat p n = IsFile f ↔ lookup p n = Some (File f).
Proof.
  unfold stat. destruct (lookup p n) as [[g|es]|]; simpl; split; congruence.
Qed.

Lemma stat_child p x n es :
  lookup p n = Some (Dir es) → stat (p ++ [x]) n = kind_of (assoc x es).
Proof.
  intros H. unfold stat. rewrite lookup_app, H. simpl.
  by destruct (assoc x es).
Qed.

Lemma stat_child_Absent p x n :
  stat p n ≠ IsDir → stat (p ++ [x]) n = Absent.
Proof.
  intros H. unfold stat in *. rewrite lookup_app.
  destruct (lookup p n) as [[f|es]|]; simpl; done.
Qed.

Lemma stat_parent_IsDir p n :
  p ≠ [] → stat p n ≠ Absent → stat (parent p) n = IsDir.
Proof.
  intros Hne Hp. destruct (exists_last Hne) as (q & x & ->).
  rewrite parent_snoc.
  destruct (stat q n) eqn:E; [|done|];
    rewrite stat_child_Absent in Hp by (by rewrite E); done.
Qed.

Lemma stat_leafy p n : stat p n ≠ IsDir → leafy (lookup p n).
Proof.
  unfold stat. destruct (lookup p n) as [[f|es]|]; simpl; try done.
Qed.

(** *** [os.makedirs] of a child of an existing directory *)
Lemma makedirs_child src c n :
  stat src n = IsDir →
  OS.makedirs (src ++ [c]) n =
    match stat (src ++ [c]) n with
    | Absent => inr (put (src ++ [c]) (Some (Dir [])) n)
    | IsDir => inr n
    | IsFile _ => inl FileExistsError
    end.
Proof.
  intros Hsrc. unfold OS.makedirs. rewrite rev_unit. simpl.
  rewrite rev_involutive. unfold exists_. rewrite Hsrc.
  unfold OS.mkdir, isdir. rewrite parent_snoc, Hsrc.
  by destruct (stat (src ++ [c]) n).
Qed.

(** *** Moving a regular file to a free path *)
Lemma stat_move_file s d f n q :
  stat s n = IsFile f → stat d n = Absent → stat (parent d) n = IsDir → d ≠ [] →
  stat q (put d (Some (File f)) (put s None n))
  = if decide (q = d) then IsFile f else if decide (q = s) then Absent else stat q n.
Proof.
  intros Hs Hd Hpd Hne.
  assert (s ≠ []) as Hsne.
  { intros ->. destruct n as [g|]; [|done]. by destruct (parent d). }
  assert (∀ q', stat q' (put s None n) = if decide (q' = s) then Absent else stat q' n) as H1.
  { intros q'. apply stat_put_leaf; [done| | |apply leafy_None].
    - apply stat_parent_IsDir; [done|]. by rewrite Hs.
    - apply stat_leafy. by rewrite Hs. }
  rewrite stat_put_leaf; [ |done| | |apply leafy_File].
  - by rewrite H1.
  - rewrite H1. case_decide as E; [|done]. rewrite E, Hs in Hpd. done.
  - apply stat_leafy. rewrite H1. case_decide; [done|]. by rewrite Hd.
Qed.

Lemma stat_copy_file d g n q :
  stat d n = Absent → stat (parent d) n = IsDir → d ≠ [] →
  stat q (put d (Some (File g)) n) = if decide (q = d) then IsFile g else stat q n.
Proof.
  intros Hd Hpd Hne. rewrite stat_put_leaf; [done|done|done| |apply leafy_File].
  apply stat_leafy. by rewrite Hd.
Qed.

(** [shutil.move] of a regular file to a free path in an existing directory:
    renamed; or, when it can be neither renamed nor deleted, copied if it can
    be read, and the exception of [os.unlink], or of [open], leaves the
    call. *)
Lemma move_file s d f n :
  stat s n = IsFile f → stat d n = Absent → stat (parent d) n = IsDir →
  OS.move s d n =
    if locked f then
      (Some PermissionError,
       if readable f then put d (Some (File (OS.copy_of f))) n else n)
    else (None, put d (Some (File f)) (put s None n)).
Proof.
  intros Hs Hd Hpd.
  assert (s ≠ d) as Hsd by (intros ->; congruence).
  assert (d ≠ []) as Hne.
  { intros ->. by destruct n. }
  unfold OS.move, isdir, OS.rename. rewrite Hd, Hs, Hpd. simpl.
  destruct (locked f) eqn:Hl; [|by rewrite Hd].
  unfold OS.copy2, isdir. rewrite Hd. rewrite decide_False by done.
  rewrite Hs, Hd, Hpd.
  destruct (readable f); [|done].
  unfold OS.remove. rewrite stat_copy_file by done.
  rewrite decide_False by done. by rewrite Hs, Hl.
Qed.

Lemma stat_remove_file s f n q :
  s ≠ [] → stat s n = IsFile f →
  stat q (put s None n) = if decide (q = s) then Absent else stat q n.
Proof.
  intros Hsne Hs.
  apply stat_put_leaf; [done| | |apply leafy_None].
  - apply stat_parent_IsDir; [done|]. by rewrite Hs.
  - apply stat_leafy. by rewrite Hs.
Qed.

Lemma stat_mkdir src c n q :
  stat src n = IsDir → stat (src ++ [c]) n = Absent →
  stat q (put (src ++ [c]) (Some (Dir [])) n)
  = if decide (q = src ++ [c]) then IsDir else stat q n.
Proof.
  intros Hsrc Hc. apply stat_put_leaf.
  - by destruct src.
  - by rewrite parent_snoc.
  - apply stat_leafy. by rewrite Hc.
  - apply leafy_empty_Dir.
Qed.

End OSFacts.

Module OrganizerFacts.
Import FS FSFacts NameFacts OSFacts.
Import Notions.

Ltac run :=
  cbv [mbind M_bind mret M_ret try_except hang query query_or_raise syscall
       syscall_in_steps emit
       os_path_exists os_path_isfile os_listdir os_path_getsize
       os_makedirs_exist_ok os_remove shutil_move shutil_rmtree_ignore_errors
       os_walk_bottom_up logging_error logging_warning logging_info print];
  cbn [fs log].

Section WithDigest.
Variable md5 : list byte → string.

Lemma get_file_hash_spec p w :
  get_file_hash md5 p w =
    match OS.read_bytes p (fs w) with
    | inr content => (Return (Some (md5 content)), w)
    | inl e => (Return None, World (fs w) (log w ++ [(LoggingError, ErrorHashing p e)]))
    end.
Proof. unfold get_file_hash. run. by destruct (OS.read_bytes p (fs w)). Qed.

Lemma next_free_spec cdir filename w fuel i :
  (∃ k, i ≤ k < i + fuel ∧ stat (cdir ++ [candidate filename k]) (fs w) = Absent) →
  ∃ k, i ≤ k
    ∧ next_free cdir (PathName.splitext filename).1 (PathName.splitext filename).2
        fuel (S i) (cdir ++ [candidate filename i]) w
      = (Return (cdir ++ [candidate filename k]), w)
    ∧ stat (cdir ++ [candidate filename k]) (fs w) = Absent
    ∧ ∀ j, i ≤ j < k → stat (cdir ++ [candidate filename j]) (fs w) ≠ Absent.
Proof.
  revert i. induction fuel as [|fuel IH]; intros i (k & Hk & Hfree); [lia|].
  simpl. run. unfold exists_.
  destruct (stat (cdir ++ [candidate filename i]) (fs w)) eqn:Hi.
  - exists i. split; [lia|]. split; [done|]. split; [done|]. intros j ?; lia.
  - destruct (IH (S i)) as (k' & Hk' & Hrun & Hfree' & Hmin).
    { exists k. split; [|done]. destruct (decide (k = i)) as [->|]; [congruence|lia]. }
    exists k'. split; [lia|]. split; [exact Hrun|]. split; [done|].
    intros j Hj. destruct (decide (j = i)) as [->|]; [by rewrite Hi|apply Hmin; lia].
  - destruct (IH (S i)) as (k' & Hk' & Hrun & Hfree' & Hmin).
    { exists k. split; [|done]. destruct (decide (k = i)) as [->|]; [congruence|lia]. }
    exists k'. split; [lia|]. split; [exact Hrun|]. split; [done|].
    intros j Hj. destruct (decide (j = i)) as [->|]; [by rewrite Hi|apply Hmin; lia].
Qed.

Lemma choose_dest_taken cdir filename w :
  stat (cdir ++ [filename]) (fs w) ≠ Absent →
  ∃ k, (let '(base, ext) := PathName.splitext filename in
        entries ← query (OS.entry_count cdir);
        next_free cdir base ext (S (S entries)) 1 (cdir ++ [filename])) w
       = (Return (cdir ++ [candidate filename k]), w)
     ∧ stat (cdir ++ [candidate filename k]) (fs w) = Absent
     ∧ ∀ j, j < k → stat (cdir ++ [candidate filename j]) (fs w) ≠ Absent.
Proof.
  intros Htaken.
  destruct (stat cdir (fs w)) eqn:Hdir;
    try (rewrite stat_child_Absent in Htaken by (by rewrite Hdir); done).
  apply stat_IsDir in Hdir as [es Hes].
  destruct (next_free_spec cdir filename w (S (S (length es))) 0) as (k & _ & Hrun & Hfree & Hmin).
  { destruct (free_candidate (PathName.splitext filename).1
                (PathName.splitext filename).2 es) as (k & Hk & Hnone).
    exists k. split; [lia|]. rewrite (stat_child _ _ _ es) by done.
    destruct k as [|k]; [lia|]. simpl. by rewrite Hnone. }
  exists k. split; [|split; [done | intros j Hj; apply Hmin; lia]].
  destruct (PathName.splitext filename) as [base ext]. run.
  unfold OS.entry_count. rewrite Hes. exact Hrun.
Qed.

(** Lines 86-93 always come up with a destination: the first candidate that
    does not exist. *)
Lemma choose_dest_spec cdir filename w :
  ∃ k, choose_dest cdir filename w = (Return (cdir ++ [candidate filename k]), w)
     ∧ stat (cdir ++ [candidate filename k]) (fs w) = Absent
     ∧ ∀ j, j < k → stat (cdir ++ [candidate filename j]) (fs w) ≠ Absent.
Proof.
  unfold choose_dest. run. unfold exists_.
  destruct (stat (cdir ++ [filename]) (fs w)) eqn:H0.
  - exists 0. split; [done|]. split; [done|]. intros j ?; lia.
  - (* a directory at the destination *)
    apply choose_dest_taken. by rewrite H0.
  - apply choose_dest_taken. by rewrite H0.
Qed.

Lemma landed_arrives f : arrives f (landed f).
Proof.
  unfold arrives, landed. destruct (locked f); [|done].
  destruct (readable f); [|done]. by exists (OS.copy_of f).
Qed.

(** Lines 85-101 on a regular file whose category folder exists. *)
Lemma relocate_spec src cat name t w f :
  stat (src ++ [name]) (fs w) = IsFile f →
  stat (src ++ [cat]) (fs w) = IsDir →
  ∃ k, let dst := src ++ [cat; candidate name k] in
    stat dst (fs w) = Absent
    ∧ (∀ j, j < k → stat (src ++ [cat; candidate name j]) (fs w) ≠ Absent)
    ∧ relocate src cat name t w =
        if locked f then
          (Return t,
           World (if readable f then put dst (Some (File (OS.copy_of f))) (fs w)
                  else fs w)
                 (log w ++ [(LoggingError, FailedToMove name PermissionError);
                            (Printed, FailedToMove name PermissionError)]))
        else
          (Return (Tally (file_hashes t) (moved_count t + 1) (duplicate_count t)),
           World (put dst (Some (File f)) (put (src ++ [name]) None (fs w)))
                 (log w ++ [(LoggingInfo, Moved name cat)])).
Proof.
  intros Hf Hcat.
  destruct (choose_dest_spec (src ++ [cat]) name w) as (k & Hrun & Hfree & Hmin).
  rewrite <- !app_assoc in Hrun, Hfree. simpl in Hrun, Hfree.
  exists k. simpl. split; [done|]. split.
  { intros j Hj. specialize (Hmin j Hj). by rewrite <- app_assoc in Hmin. }
  unfold relocate. run. rewrite Hrun.
  rewrite (move_file _ _ f); [|done|done|].
  - destruct (locked f); [|done]. by rewrite <- app_assoc.
  - change (src ++ [cat; candidate name k]) with (src ++ [cat] ++ [candidate name k]).
    by rewrite app_assoc, parent_snoc.
Qed.

Lemma check_duplicate_spec sp name t w f :
  stat sp (fs w) = IsFile f →
  check_duplicate md5 sp name t w =
    if readable f then
      match truthy (Some (md5 (data f))) with
      | Some h =>
          if decide (is_Some (file_hashes t !! h)) then
            let w' := World (fs w) (log w ++ [(LoggingWarning, DuplicateFound name)]) in
            if locked f then (Raise PermissionError, w')
            else (Return (inl (Tally (file_hashes t) (moved_count t) (duplicate_count t + 1))),
                  World (put sp None (fs w)) (log w'))
          else
            (Return (inr (Tally (<[h := sp]> (file_hashes t)) (moved_count t)
                           (duplicate_count t))), w)
      | None => (Return (inr t), w)
      end
    else
      (Return (inr t),
       World (fs w) (log w ++ [(LoggingError, ErrorHashing sp PermissionError)])).
Proof.
  intros Hf. unfold check_duplicate.
  cbv [mbind M_bind]. rewrite get_file_hash_spec.
  unfold OS.read_bytes. rewrite Hf.
  destruct (readable f); [|done].
  destruct (truthy (Some (md5 (data f)))) as [h|]; [|done].
  destruct (decide (is_Some (file_hashes t !! h))); [|done].
  run. unfold OS.remove. rewrite Hf. by destruct (locked f).
Qed.

Lemma stat_after_makedirs src cat n q :
  stat src n = IsDir → (∀ g, stat (src ++ [cat]) n ≠ IsFile g) →
  stat q (after_makedirs src cat n)
  = if decide (q = src ++ [cat]) then IsDir else stat q n.
Proof.
  intros Hsrc Hcat. unfold after_makedirs.
  destruct (stat (src ++ [cat]) n) eqn:E.
  - by apply stat_mkdir.
  - case_decide; [by subst|done].
  - by destruct (Hcat f).
Qed.

Lemma organize_entry_skip src dd t name w :
  (∀ f, stat (src ++ [name]) (fs w) ≠ IsFile f) →
  organize_entry md5 src dd t name w = (Return t, w).
Proof.
  intros H. unfold organize_entry. run. unfold isfile.
  destruct (stat (src ++ [name]) (fs w)) eqn:E; try done. by destruct (H f).
Qed.

Lemma organize_entry_blocked src dd t name w f g :
  stat (src ++ [name]) (fs w) = IsFile f → stat src (fs w) = IsDir →
  stat (src ++ [category_of name]) (fs w) = IsFile g →
  organize_entry md5 src dd t name w = (Raise FileExistsError, w).
Proof.
  intros Hf Hsrc Hcat. unfold organize_entry. run. unfold isfile. rewrite Hf.
  rewrite makedirs_child, Hcat by done. done.
Qed.

Lemma organize_entry_file src dd t name w f :
  stat (src ++ [name]) (fs w) = IsFile f → stat src (fs w) = IsDir →
  (∀ g, stat (src ++ [category_of name]) (fs w) ≠ IsFile g) →
  organize_entry md5 src dd t name w =
    let cat := category_of name in
    let w1 := World (after_makedirs src cat (fs w)) (log w) in
    if dd then
      (r ← check_duplicate md5 (src ++ [name]) name t;
       match r with
       | inl t' => mret t'
       | inr t' => relocate src cat name t'
       end) w1
    else relocate src cat name t w1.
Proof.
  intros Hf Hsrc Hcat. unfold organize_entry. run. unfold isfile. rewrite Hf.
  rewrite makedirs_child by done. unfold after_makedirs.
  destruct (stat (src ++ [category_of name]) (fs w)) eqn:E.
  - by destruct dd.
  - by destruct w, dd.
  - by destruct (Hcat f0).
Qed.

Lemma snoc_inj (p : path) x y : p ++ [x] = p ++ [y] → x = y.
Proof. intros H. apply app_inv_head in H. congruence. Qed.

Lemma snoc2_ne_snoc (p : path) c x y : p ++ [c; x] ≠ p ++ [y].
Proof. intros H. apply app_inv_head in H. done. Qed.

(** What the move of lines 85-101 does to a regular file once its category
    folder has been made: the file goes to the first free candidate; or, when
    it cannot be moved, it stays, and a copy of it is at that candidate if
    it can be read; nothing else changes. *)
Lemma relocate_on_made src name t w lg f :
  stat (src ++ [name]) (fs w) = IsFile f → stat src (fs w) = IsDir →
  (∀ g, stat (src ++ [category_of name]) (fs w) ≠ IsFile g) →
  ∃ k w' t',
    relocate src (category_of name) name t
      (World (after_makedirs src (category_of name) (fs w)) lg) = (Return t', w')
    ∧ stat (src ++ [category_of name; candidate name k]) (fs w) = Absent
    ∧ (∀ j, j < k → stat (src ++ [category_of name; candidate name j]) (fs w) ≠ Absent)
    ∧ t' = (if locked f then t
            else Tally (file_hashes t) (moved_count t + 1) (duplicate_count t))
    ∧ log w' = lg ++ (if locked f
                      then [(LoggingError, FailedToMove name PermissionError);
                            (Printed, FailedToMove name PermissionError)]
                      else [(LoggingInfo, Moved name (category_of name))])
    ∧ ∀ q, stat q (fs w') =
        if decide (q = src ++ [category_of name; candidate name k]) then landed f
        else if decide (locked f = false ∧ q = src ++ [name]) then Absent
        else if decide (q = src ++ [category_of name]) then IsDir
        else stat q (fs w).
Proof.
  intros Hf Hsrc Hcat. set (cat := category_of name) in *.
  set (w1 := World (after_makedirs src cat (fs w)) lg).
  assert (∀ q, stat q (fs w1) = if decide (q = src ++ [cat]) then IsDir else stat q (fs w)) as H1.
  { intros q. by apply stat_after_makedirs. }
  assert (src ++ [name] ≠ src ++ [cat]) as Hne.
  { intros E. rewrite <- E in Hcat. by destruct (Hcat f). }
  destruct (relocate_spec src cat name t w1 f) as (k & Hfree & Hmin & Hrun).
  { rewrite H1. by rewrite decide_False. }
  { rewrite H1. by rewrite decide_True. }
  simpl in Hfree, Hrun.
  pose proof Hfree as Hfree1.
  rewrite H1, decide_False in Hfree by apply snoc2_ne_snoc.
  assert (∀ j, j < k → stat (src ++ [cat; candidate name j]) (fs w) ≠ Absent) as Hmin'.
  { intros j Hj. specialize (Hmin j Hj).
    by rewrite H1, decide_False in Hmin by apply snoc2_ne_snoc. }
  assert (stat (parent (src ++ [cat; candidate name k])) (fs w1) = IsDir) as Hpar.
  { change (src ++ [cat; candidate name k]) with (src ++ [cat] ++ [candidate name k]).
    rewrite app_assoc, parent_snoc, H1. by rewrite decide_True. }
  assert (src ++ [cat; candidate name k] ≠ src ++ [name]) as Hne2 by apply snoc2_ne_snoc.
  exists k. unfold landed.
  destruct (locked f) eqn:Hl; (eexists; eexists; split; [exact Hrun|]);
    (split; [done|]); (split; [done|]); (split; [done|]); (split; [done|]);
    intros q; simpl.
  - destruct (readable f).
    + rewrite stat_copy_file by (done || by destruct src).
      destruct (decide (q = src ++ [cat; candidate name k])); [done|]. apply H1.
    + destruct (decide (q = src ++ [cat; candidate name k])) as [->|]; [by rewrite Hfree1|].
      apply H1.
  - rewrite (stat_move_file _ _ f).
    + rewrite H1. repeat case_decide; try done; intuition congruence.
    + rewrite H1. by rewrite decide_False.
    + done.
    + done.
    + by destruct src.
Qed.

(** The same facts with paths taken relative to the source directory. *)
Lemma path_rel_eq (src q l : path) : src ++ q = src ++ l ↔ q = l.
Proof. split; [apply app_inv_head | by intros ->]. Qed.

Lemma stat_after_makedirs_rel src cat n q :
  stat src n = IsDir → (∀ g, stat (src ++ [cat]) n ≠ IsFile g) →
  stat (src ++ q) (after_makedirs src cat n)
  = if decide (q = [cat]) then IsDir else stat (src ++ q) n.
Proof.
  intros Hsrc Hcat. rewrite stat_after_makedirs by done.
  apply decide_ext, path_rel_eq.
Qed.

Lemma stat_remove_rel src name f n q :
  stat (src ++ [name]) n = IsFile f →
  stat (src ++ q) (put (src ++ [name]) None n)
  = if decide (q = [name]) then Absent else stat (src ++ q) n.
Proof.
  intros Hf. rewrite (stat_remove_file _ f) by (by destruct src || done).
  apply decide_ext, path_rel_eq.
Qed.

Lemma relocate_on_made_rel src name t w lg f :
  stat (src ++ [name]) (fs w) = IsFile f → stat src (fs w) = IsDir →
  (∀ g, stat (src ++ [category_of name]) (fs w) ≠ IsFile g) →
  ∃ k w' t',
    relocate src (category_of name) name t
      (World (after_makedirs src (category_of name) (fs w)) lg) = (Return t', w')
    ∧ stat (src ++ [category_of name; candidate name k]) (fs w) = Absent
    ∧ (∀ j, j < k → stat (src ++ [category_of name; candidate name j]) (fs w) ≠ Absent)
    ∧ t' = (if locked f then t
            else Tally (file_hashes t) (moved_count t + 1) (duplicate_count t))
    ∧ log w' = lg ++ (if locked f
                      then [(LoggingError, FailedToMove name PermissionError);
                            (Printed, FailedToMove name PermissionError)]
                      else [(LoggingInfo, Moved name (category_of name))])
    ∧ ∀ q, stat (src ++ q) (fs w') =
        if decide (q = [category_of name; candidate name k]) then landed f
        else if decide (locked f = false ∧ q = [name]) then Absent
        else if decide (q = [category_of name]) then IsDir
        else stat (src ++ q) (fs w).
Proof.
  intros Hf Hsrc Hcat.
  destruct (relocate_on_made src name t w lg f Hf Hsrc Hcat)
    as (k & w' & t' & Hrun & Hfree & Hmin & Ht & Hlog & Hstat).
  exists k, w', t'. do 5 (split; [done|]). intros q. rewrite Hstat.
  destruct (decide (q = [category_of name; candidate name k]))
    as [->|H1]; [by rewrite decide_True|].
  rewrite decide_False by (by rewrite path_rel_eq).
  destruct (decide (locked f = false ∧ q = [name])) as [[Hl ->]|H2];
    [by rewrite decide_True|].
  rewrite decide_False by (by rewrite path_rel_eq).
  destruct (decide (q = [category_of name])) as [->|H3]; [by rewrite decide_True|].
  by rewrite decide_False by (by rewrite path_rel_eq).
Qed.

(** The two ways in which the body of the loop deals with a regular file
    whose category folder could be made: it relocates it, possibly after
    recording its hash, or it deletes it as a duplicate. *)
Lemma organize_entry_outcome src dd t name w f :
  stat (src ++ [name]) (fs w) = IsFile f → stat src (fs w) = IsDir →
  (∀ g, stat (src ++ [category_of name]) (fs w) ≠ IsFile g) →
  let made := after_makedirs src (category_of name) (fs w) in
  (∃ t1 lg,
     organize_entry md5 src dd t name w
       = relocate src (category_of name) name t1 (World made lg)
     ∧ moved_count t1 = moved_count t ∧ duplicate_count t1 = duplicate_count t
     ∧ (file_hashes t1 = file_hashes t
        ∨ ∃ h, file_hashes t !! h = None
               ∧ file_hashes t1 = <[h := src ++ [name]]> (file_hashes t)))
  ∨ (dd = true ∧ readable f = true
     ∧ ∃ h, truthy (Some (md5 (data f))) = Some h ∧ is_Some (file_hashes t !! h)
       ∧ organize_entry md5 src dd t name w =
           let lg := log w ++ [(LoggingWarning, DuplicateFound name)] in
           if locked f then (Raise PermissionError, World made lg)
           else (Return (Tally (file_hashes t) (moved_count t) (duplicate_count t + 1)),
                 World (put (src ++ [name]) None made) lg)).
Proof.
  intros Hf Hsrc Hcat made.
  rewrite (organize_entry_file _ _ _ _ _ f) by done. cbn zeta. fold made.
  destruct dd; [|left; exists t, (log w); eauto].
  cbv [mbind M_bind].
  rewrite (check_duplicate_spec _ _ _ _ f); cycle 1.
  { cbn [fs]. unfold made. rewrite stat_after_makedirs by done.
    rewrite decide_False; [done|]. intros E. rewrite <- E in Hcat. by destruct (Hcat f). }
  cbn [fs log].
  destruct (readable f); [|left; eexists t, _; eauto].
  destruct (truthy (Some (md5 (data f)))) as [h|] eqn:Hh; [|left; eexists t, _; eauto].
  destruct (decide (is_Some (file_hashes t !! h))) as [Hdup|Hnew].
  - right. split; [done|]. split; [done|]. exists h. split; [done|]. split; [done|].
    by destruct (locked f).
  - left. eexists (Tally _ _ _), _. split; [done|]. split; [done|]. split; [done|].
    right. exists h. split; [|done]. by apply eq_None_not_Some.
Qed.



Lemma stat_made_file src name f n :
  stat (src ++ [name]) n = IsFile f → stat src n = IsDir →
  (∀ g, stat (src ++ [category_of name]) n ≠ IsFile g) →
  stat (src ++ [name]) (after_makedirs src (category_of name) n) = IsFile f.
Proof.
  intros Hf Hsrc Hcat. rewrite stat_after_makedirs by done.
  rewrite decide_False; [done|]. intros E. rewrite <- E in Hcat. by destruct (Hcat f).
Qed.



End WithDigest.
End OrganizerFacts.

Module LoopFacts.
Import FS FSFacts NameFacts OSFacts OrganizerFacts.
Import Notions.

Lemma for_each_cons {A S} (body : S → A → M S) a l s w :
  for_each body (a :: l) s w =
    match body s a w with
    | (Return s', w') => for_each body l s' w'
    | (Raise e, w') => (Raise e, w')
    | (Hang, w') => (Hang, w')
    end.
Proof. done. Qed.

Lemma for_each_app {A S} (body : S → A → M S) l1 l2 s w :
  for_each body (l1 ++ l2) s w =
    match for_each body l1 s w with
    | (Return s', w') => for_each body l2 s' w'
    | (Raise e, w') => (Raise e, w')
    | (Hang, w') => (Hang, w')
    end.
Proof.
  revert s w. induction l1 as [|a l1 IH]; intros s w; simpl.
  - by destruct (for_each body l2 s w) as [[]].
  - cbv [mbind M_bind]. destruct (body s a w) as [[s1| |] w1]; [apply IH|done|done].
Qed.

Lemma organize_files_listing md5 src dd w es :
  lookup src (fs w) = Some (Dir es) →
  organize_files md5 src dd w =
    match for_each (organize_entry md5 src dd) es.*1 (Tally ∅ 0 0) w with
    | (Return t, w') => (Return (moved_count t, duplicate_count t), w')
    | (Raise e, w') => (Raise e, w')
    | (Hang, w') => (Hang, w')
    end.
Proof.
  intros H. unfold organize_files. run. unfold exists_, stat, OS.listdir.
  rewrite H. simpl. rewrite H.
  by destruct (for_each _ _ _ _) as [[]].
Qed.

Lemma organize_files_absent md5 src dd w :
  exists_ src (fs w) = false →
  organize_files md5 src dd w =
    (Return (0, 0),
     World (fs w) (log w ++ [(LoggingError, DirectoryDoesNotExist src);
                             (Printed, DirectoryDoesNotExist src)])).
Proof.
  intros H. unfold organize_files. run. rewrite H. by rewrite <- app_assoc.
Qed.

Lemma assoc_Some_in x es c : assoc x es = Some c → (x, c) ∈ es.
Proof.
  induction es as [|[y d] es IH]; simpl; [done|].
  case_decide as Hxy.
  - intros [= ->]. subst. apply list_elem_of_here.
  - intros H. apply list_elem_of_further, IH, H.
Qed.

Lemma assoc_NoDup x c es : NoDup es.*1 → (x, c) ∈ es → assoc x es = Some c.
Proof.
  induction es as [|[y d] es IH]; simpl; intros Hnd Hin.
  - by apply elem_of_nil in Hin.
  - apply NoDup_cons in Hnd as [Hy Hnd].
    apply elem_of_cons in Hin as [[= -> ->]|Hin].
    + by rewrite decide_True.
    + rewrite decide_False; [by apply IH|].
      intros ->. apply Hy. by apply (list_elem_of_fmap_2 fst) in Hin.
Qed.

Lemma filter_Forall_id {A} (P : A → Prop) `{!∀ x, Decision (P x)} (l : list A) :
  Forall P l → filter P l = l.
Proof.
  induction 1 as [|x l Hx _ IH]; [done|].
  by rewrite filter_cons_True, IH.
Qed.

(** Neither a round of the loop nor a run goes on for ever: the search for
    a free name of lines 91-93 comes to an end. *)
Lemma organize_entry_no_hang md5 src dd t name w :
  (organize_entry md5 src dd t name w).1 ≠ Hang.
Proof.
  destruct (stat (src ++ [name]) (fs w)) as [| |f] eqn:Hf.
  1,2: by rewrite organize_entry_skip by (by rewrite Hf).
  assert (stat src (fs w) = IsDir) as Hsrc.
  { rewrite <- (parent_snoc src name). apply stat_parent_IsDir; [by destruct src|].
    by rewrite Hf. }
  destruct (stat (src ++ [category_of name]) (fs w)) as [| |g0] eqn:Hc;
    [| |by rewrite (organize_entry_blocked _ _ _ _ _ _ f g0)].
  all: assert (∀ g, stat (src ++ [category_of name]) (fs w) ≠ IsFile g) as Hcat
         by (by rewrite Hc).
  all: destruct (organize_entry_outcome md5 src dd t name w f Hf Hsrc Hcat)
         as [(t1 & lg & -> & _)|(_ & _ & h & _ & _ & ->)].
  1,3: by destruct (relocate_on_made src name t1 w lg f Hf Hsrc Hcat)
         as (k & w1 & t2 & -> & _).
  all: cbn zeta; by destruct (locked f).
Qed.

Lemma loop_no_hang md5 src dd l : ∀ t w,
  (for_each (organize_entry md5 src dd) l t w).1 ≠ Hang.
Proof.
  induction l as [|name l IH]; intros t w; [done|].
  rewrite for_each_cons.
  pose proof (organize_entry_no_hang md5 src dd t name w) as H.
  destruct (organize_entry md5 src dd t name w) as [[t1| |] w1]; [apply IH|done|done].
Qed.

Lemma organize_files_no_hang md5 src dd w : (organize_files md5 src dd w).1 ≠ Hang.
Proof.
  destruct (stat src (fs w)) as [| |f] eqn:Hsrc.
  - rewrite organize_files_absent; [done|]. unfold exists_. by rewrite Hsrc.
  - pose proof Hsrc as [es Hes]%stat_IsDir.
    rewrite (organize_files_listing _ _ _ _ es Hes).
    pose proof (loop_no_hang md5 src dd es.*1 (Tally ∅ 0 0) w) as H.
    by destruct (for_each _ _ _ _) as [[t| |] w1].
  - unfold organize_files. run. unfold exists_, OS.listdir. rewrite Hsrc.
    apply stat_IsFile in Hsrc. by rewrite Hsrc.
Qed.

Section Sorting.
Variable md5 : list byte → string.
Variable src : path.
Variable es : entries.
Hypothesis es_NoDup : NoDup es.*1.
Hypothesis es_files : only_files es.

#[local] Abbreviation sorted_upto := (Notions.sorted_upto src es).

Lemma sorted_upto_init n : lookup src n = Some (Dir es) → sorted_upto [] n.
Proof.
  intros Hsrc.
  assert (∀ x r, stat (src ++ x :: r) n =
            match assoc x es with Some c => stat r c | None => Absent end) as Hsub.
  { intros x r. unfold stat. rewrite lookup_app, Hsrc. simpl.
    by destruct (assoc x es). }
  assert (∀ x c, assoc x es = Some c → ∃ f, c = File f) as Hfile.
  { intros x c Hx. apply assoc_Some_in in Hx.
    unfold only_files in es_files. rewrite Forall_forall in es_files.
    by destruct (es_files _ Hx) as [f ?]; exists f. }
  split.
  - apply stat_IsDir. eauto.
  - intros name f Hin _. rewrite Hsub, (assoc_NoDup _ _ _ es_NoDup Hin). done.
  - intros name f _ H. by apply elem_of_nil in H.
  - intros [|x r] g Hq.
    + rewrite app_nil_r in Hq. apply stat_IsFile in Hq. congruence.
    + rewrite Hsub in Hq. destruct (assoc x es) as [c|] eqn:Hx; [|done].
      destruct (Hfile _ _ Hx) as [f ->].
      destruct r; [|done]. simpl in Hq. injection Hq as ->.
      exists x, g. split; [by apply assoc_Some_in|]. left.
      split; [done|]. split; [done|]. intros H. by apply elem_of_nil in H.
  - intros [|x r] Hq; [by left|]. right.
    rewrite Hsub in Hq. destruct (assoc x es) as [c|] eqn:Hx; [|done].
    destruct (Hfile _ _ Hx) as [f ->]. by destruct r.
Qed.

Lemma plain_step name f t w :
  stat (src ++ [name]) (fs w) = IsFile f → stat src (fs w) = IsDir →
  (∀ g, stat (src ++ [category_of name]) (fs w) ≠ IsFile g) →
  ∃ k w' t',
    organize_entry md5 src false t name w = (Return t', w')
    ∧ stat (src ++ [category_of name; candidate name k]) (fs w) = Absent
    ∧ (∀ j, j < k → stat (src ++ [category_of name; candidate name j]) (fs w) ≠ Absent)
    ∧ t' = (if locked f then t
            else Tally (file_hashes t) (moved_count t + 1) (duplicate_count t))
    ∧ ∀ q, stat (src ++ q) (fs w') =
        if decide (q = [category_of name; candidate name k]) then landed f
        else if decide (locked f = false ∧ q = [name]) then Absent
        else if decide (q = [category_of name]) then IsDir
        else stat (src ++ q) (fs w).
Proof.
  intros Hf Hsrc Hcat.
  destruct (relocate_on_made_rel src name t w (log w) f Hf Hsrc Hcat)
    as (k & w' & t' & Hrun & Hfree & Hmin & Ht & _ & Hstat).
  exists k, w', t'. split; [|done].
  by rewrite (organize_entry_file md5 _ _ _ _ _ f).
Qed.

(** A round of the loop that returns. *)
Lemma sorted_step done name f t w t' w' :
  sorted_upto done (fs w) → (name, File f) ∈ es → name ∉ done →
  organize_entry md5 src false t name w = (Return t', w') →
  moved_count t' = moved_count t + (if locked f then 0 else 1)
  ∧ duplicate_count t' = duplicate_count t
  ∧ sorted_upto (name :: done) (fs w').
Proof.
  intros [Hsrc Htodo Hdone Hfiles Hdirs] Hin Hfresh Hrun.
  pose proof (Htodo name f Hin Hfresh) as Hf.
  destruct (stat (src ++ [category_of name]) (fs w)) as [| |g0] eqn:Hc;
    [| |by rewrite (organize_entry_blocked _ _ _ _ _ _ f g0) in Hrun].
  all: assert (∀ g, stat (src ++ [category_of name]) (fs w) ≠ IsFile g) as Hcat
         by (by rewrite Hc).
  all: assert (∀ x g, stat (src ++ [x]) (fs w) = IsFile g → [x] ≠ [category_of name])
         as Hnc by (intros x g Hg [= ->]; by rewrite Hg in Hc).
  all: destruct (plain_step name f t w Hf Hsrc Hcat)
         as (k & w1 & t1 & Hrun1 & Hfree & Hmin & Ht & Hstat).
  all: rewrite Hrun1 in Hrun; injection Hrun as <- <-.
  all: assert (k = 0) as ->
         by (destruct k as [|k]; [done|]; exfalso; apply (Hmin 0); [lia|]; simpl;
             destruct (stat (src ++ [category_of name; name]) (fs w)) eqn:E; [done| |];
             [apply Hdirs in E as [?|[c ?]]; done
             |apply Hfiles in E as (x & g & _ & [(? & _)|([= _ ->] & ? & _)]); done]).
  all: simpl candidate in *.
  all: assert (∀ name' g, (name', File g) ∈ es → name' = name → g = f) as Hsame
         by (intros name' g Hin' ->;
             pose proof (assoc_NoDup _ _ _ es_NoDup Hin) as E1;
             pose proof (assoc_NoDup _ _ _ es_NoDup Hin') as E2; congruence).
  all: split; [by subst t1; destruct (locked f)|].
  all: split; [by subst t1; destruct (locked f)|].
  all: split.
  1,6: rewrite <- (app_nil_r src) at 1; rewrite Hstat;
       rewrite !decide_False by (try intros [_ ?]; done); by rewrite app_nil_r.
  1,5: intros name' g Hin' [Hne Hnd]%not_elem_of_cons; rewrite Hstat;
       pose proof (Htodo name' g Hin' Hnd) as Hg;
       rewrite decide_False by done;
       rewrite decide_False by (intros [_ [= ?]]; done);
       by rewrite decide_False by (by apply (Hnc name' g)).
  1,4: intros name' g Hin' Hd; rewrite !Hstat;
       destruct (decide (name' = name)) as [->|Hne];
       [rewrite (Hsame _ _ Hin' eq_refl); rewrite decide_True by done;
        split; [done|]; intros Hl;
        rewrite decide_False by done;
        rewrite decide_False by (intros [? _]; congruence);
        by rewrite decide_False by (by apply (Hnc name f))
       |apply elem_of_cons in Hd as [?|Hd]; [done|];
        destruct (Hdone name' g Hin' Hd) as [Hland Hstay];
        rewrite decide_False by (intros [= ? ?]; done);
        rewrite decide_False by (by intros [_ ?]);
        rewrite decide_False by done;
        split; [done|]; intros Hl; specialize (Hstay Hl);
        rewrite decide_False by done;
        rewrite decide_False by (intros [_ [= ?]]; done);
        by rewrite decide_False by (by apply (Hnc name' g))].
  1,3: intros q g; rewrite Hstat;
       destruct (decide (q = [category_of name; name])) as [->|H1];
       [intros Hg; exists name, f; split; [done|]; right;
        split; [done|]; split; [apply list_elem_of_here|done]|];
       destruct (decide (locked f = false ∧ q = [name])) as [?|H2]; [done|];
       destruct (decide (q = [category_of name])) as [?|H3]; [done|];
       intros Hq; apply Hfiles in Hq as (name' & g' & Hin' & Hq);
       exists name', g'; split; [done|];
       destruct Hq as [(-> & -> & Hl)|(-> & Hd & Hland)];
       [left; split; [done|]; split; [done|];
        intros [->|Hd]%elem_of_cons; [|by apply Hl];
        rewrite (Hsame _ _ Hin' eq_refl); destruct (locked f); [done|];
        by destruct H2
       |right; split; [done|]; split; [by apply list_elem_of_further|done]].
  all: intros q; rewrite Hstat;
       destruct (decide (q = [category_of name; name])) as [->|H1];
       [unfold landed; by repeat case_match|];
       destruct (decide (locked f = false ∧ q = [name])) as [?|H2]; [done|];
       destruct (decide (q = [category_of name])) as [->|H3]; [intros _; right; eauto|];
       apply Hdirs.
Qed.

Lemma sorted_upto_ext d1 d2 n :
  (∀ x, x ∈ d1 ↔ x ∈ d2) → sorted_upto d1 n → sorted_upto d2 n.
Proof.
  intros Heq [Hsrc Htodo Hdone Hfiles Hdirs]. split; [done|..|done].
  - intros name f Hin Hd. apply (Htodo name f Hin). by rewrite Heq.
  - intros name f Hin Hd. apply (Hdone name f Hin). by apply Heq.
  - intros q g Hq. destruct (Hfiles q g Hq) as (name & f & Hin & H).
    exists name, f. split; [done|]. rewrite <- !Heq. done.
Qed.

Lemma sorted_loop todo : ∀ pre t w t' w',
  pre ++ todo = es → sorted_upto pre.*1 (fs w) →
  for_each (organize_entry md5 src false) todo.*1 t w = (Return t', w') →
  moved_count t' = moved_count t + length (filter movable todo)
  ∧ duplicate_count t' = duplicate_count t
  ∧ sorted_upto es.*1 (fs w').
Proof.
  induction todo as [|[name c] todo IH]; intros pre t w t' w' Hes Hinv Hrun.
  - rewrite app_nil_r in Hes. subst pre. injection Hrun as <- <-.
    split; [simpl; lia|]. done.
  - assert ((name, c) ∈ es) as Hin.
    { rewrite <- Hes. apply elem_of_app. right. apply list_elem_of_here. }
    assert (∃ f, c = File f) as [f ->].
    { unfold only_files in es_files. rewrite Forall_forall in es_files.
      by destruct (es_files _ Hin) as [f ?]; exists f. }
    assert (name ∉ pre.*1) as Hfresh.
    { pose proof es_NoDup as Hnd. rewrite <- Hes, fmap_app in Hnd.
      apply NoDup_app in Hnd as (_ & Hnd & _). intros Hpre.
      apply (Hnd name Hpre). simpl. apply list_elem_of_here. }
    rewrite fmap_cons, for_each_cons in Hrun. simpl fst in Hrun.
    destruct (organize_entry md5 src false t name w) as [[t1| |] w1] eqn:Hstep;
      [|done|done].
    destruct (sorted_step pre.*1 name f t w t1 w1 Hinv Hin Hfresh Hstep)
      as (Hm & Hd & Hinv1).
    destruct (IH (pre ++ [(name, File f)]) t1 w1 t' w') as (Hm' & Hd' & Hinv').
    { by rewrite <- app_assoc. }
    { eapply sorted_upto_ext; [|exact Hinv1]. intros x.
      rewrite fmap_app, elem_of_app, elem_of_cons. simpl.
      rewrite list_elem_of_singleton. tauto. }
    { done. }
    split; [|split; [congruence | done]].
    rewrite Hm', Hm. destruct (locked f) eqn:Hl.
    + rewrite filter_cons_False; [lia|]. unfold movable. cbn [snd]. rewrite Hl. simpl. tauto.
    + rewrite filter_cons_True; [simpl; lia|]. unfold movable. cbn [snd]. by rewrite Hl.
Qed.

End Sorting.
End LoopFacts.

Module TreeFacts.
Import FS FSFacts NameFacts OSFacts OrganizerFacts LoopFacts.
Import Notions.

Lemma node_ind' (P : node → Prop) :
  (∀ f, P (File f)) →
  (∀ es, Forall (λ e, P e.2) es → P (Dir es)) →
  ∀ n, P n.
Proof.
  intros Hf Hd. fix IH 1. intros [f|es]; [apply Hf|].
  apply Hd. induction es as [|[x c] es IHes]; constructor; [apply IH | apply IHes].
Qed.

Lemma weigh_cons μ x c es :
  weigh μ (Dir ((x, c) :: es)) = weigh μ c + weigh μ (Dir es).
Proof. done. Qed.

Lemma weigh_nil μ : weigh μ (Dir []) = 0.
Proof. done. Qed.

Lemma wf_Dir es : wf (Dir es) ↔ NoDup es.*1 ∧ Forall (λ e, wf e.2) es.
Proof.
  simpl. apply and_iff_compat_l.
  induction es as [|[x c] es IH]; [by split; [constructor|]|].
  rewrite Forall_cons, IH. done.
Qed.

#[local] Arguments weigh : simpl never.
#[local] Arguments wf : simpl never.

Lemma wf_lookup p : ∀ n c, wf n → lookup p n = Some c → wf c.
Proof.
  induction p as [|x p IH]; intros n c Hwf Hl; [by injection Hl as <-|].
  destruct n as [f|es]; [done|]. simpl in Hl.
  destruct (assoc x es) as [d|] eqn:Hx; [|done]. simpl in Hl.
  apply (IH d); [|done]. apply wf_Dir in Hwf as [_ Hall].
  rewrite Forall_forall in Hall. apply (Hall (x, d)). by apply assoc_Some_in.
Qed.

(** *** Entries *)

Lemma entries_insert_keys x c es :
  assoc x es ≠ None → (entries_insert x c es).*1 = es.*1.
Proof.
  induction es as [|[y d] es IH]; [done|].
  cbn [assoc entries_insert]. case_decide as Hxy; [by subst|].
  intros H. rewrite !fmap_cons. f_equal. by apply IH.
Qed.

Lemma entries_insert_new x c es :
  assoc x es = None → entries_insert x c es = es ++ [(x, c)].
Proof.
  induction es as [|[y d] es IH]; [done|].
  cbn [assoc entries_insert]. case_decide as Hxy; [done|].
  intros H. simpl. f_equal. by apply IH.
Qed.

Lemma NoDup_entries_put x o es : NoDup es.*1 → NoDup (entries_put x o es).*1.
Proof.
  intros Hnd. destruct o as [c|]; simpl.
  - destruct (assoc x es) as [d|] eqn:Hx.
    + rewrite entries_insert_keys; [done | by rewrite Hx].
    + rewrite entries_insert_new, fmap_app by done. simpl.
      apply NoDup_app. split; [done|]. split; [|apply NoDup_singleton].
      intros y Hy ->%list_elem_of_singleton. by apply assoc_None_elem in Hx.
  - unfold entries_delete. clear -Hnd.
    induction es as [|[y d] es IH]; [done|].
    simpl in Hnd. apply NoDup_cons in Hnd as [Hy Hnd].
    rewrite filter_cons. case_decide; simpl; [|by apply IH].
    apply NoDup_cons. split; [|by apply IH].
    intros Hin. apply Hy. apply list_elem_of_fmap in Hin as ([z e] & -> & Hin).
    apply list_elem_of_filter in Hin as [_ Hin]. by apply (list_elem_of_fmap_2 fst) in Hin.
Qed.

Lemma Forall_entries_put (P : node → Prop) x o es :
  Forall (λ e, P e.2) es → from_option P True o →
  Forall (λ e, P e.2) (entries_put x o es).
Proof.
  intros Hall Ho. destruct o as [c|]; simpl in *.
  - induction Hall as [|[y d] es Hd Hall IH]; simpl; [by repeat constructor|].
    case_decide; constructor; done.
  - unfold entries_delete. rewrite Forall_forall in *. intros e He.
    apply list_elem_of_filter in He as [_ He]. by apply Hall.
Qed.

Lemma weigh_entries_put μ x o es :
  NoDup es.*1 →
  weigh μ (Dir (entries_put x o es)) + weigh_opt μ (assoc x es)
  = weigh μ (Dir es) + weigh_opt μ o.
Proof.
  intros Hnd. destruct o as [c|]; simpl.
  - clear Hnd. induction es as [|[y d] es IH]; simpl.
    + rewrite weigh_cons, weigh_nil. lia.
    + case_decide; simpl; rewrite !weigh_cons; [lia|]. lia.
  - unfold entries_delete. induction es as [|[y d] es IH]; simpl; [done|].
    apply NoDup_cons in Hnd as [Hy Hnd]. rewrite filter_cons. simpl.
    destruct (decide (x = y)) as [->|Hxy].
    + rewrite decide_False by (by intros ?). simpl. rewrite weigh_cons.
      assert (assoc y es = None) as Hnone by (by apply assoc_None_elem).
      specialize (IH Hnd). rewrite Hnone in IH. simpl in IH. lia.
    + rewrite decide_True by done. rewrite !weigh_cons. specialize (IH Hnd). lia.
Qed.

(** *** Rebinding a path *)

#[local] Arguments put : simpl never.

Lemma put_nil o n : put [] o n = default n o.
Proof. done. Qed.

Lemma put_File p o f : p ≠ [] → put p o (File f) = File f.
Proof. by destruct p. Qed.

Lemma entries_put_same x es c :
  assoc x es = Some c → entries_put x (Some c) es = es.
Proof.
  induction es as [|[y d] es IH]; [done|].
  cbn [assoc entries_put entries_insert]. case_decide as Hxy.
  - intros [= ->]. by subst.
  - intros H. f_equal. by apply IH.
Qed.

Lemma entries_delete_absent x es : assoc x es = None → entries_delete x es = es.
Proof.
  unfold entries_delete. induction es as [|[y d] es IH]; [done|].
  cbn [assoc]. case_decide as Hxy; [done|]. intros H.
  rewrite filter_cons_True by (simpl; congruence). f_equal. by apply IH.
Qed.

Lemma wf_put p : ∀ o n, wf n → wf_opt o → wf (put p o n).
Proof.
  induction p as [|x p IH]; intros o n Hwf Ho.
  - rewrite put_nil. by destruct o.
  - destruct n as [f|es]; [done|]. destruct p as [|z p].
    + rewrite put_singleton. apply wf_Dir in Hwf as [Hnd Hall].
      apply wf_Dir. split; [by apply NoDup_entries_put|].
      by apply (Forall_entries_put wf).
    + rewrite put_cons. apply wf_Dir in Hwf as [Hnd Hall].
      apply wf_Dir. split; [by apply NoDup_entries_put|].
      apply (Forall_entries_put wf); [done|].
      destruct (assoc x es) as [c|] eqn:Hx; [|done]. simpl.
      apply IH; [|done]. rewrite Forall_forall in Hall.
      apply (Hall (x, c)). by apply assoc_Some_in.
Qed.

Lemma weigh_put μ p : ∀ o n,
  p ≠ [] → wf n → stat (parent p) n = IsDir →
  weigh μ (put p o n) + weigh_opt μ (lookup p n) = weigh μ n + weigh_opt μ o.
Proof.
  induction p as [|x p IH]; intros o n Hne Hwf Hpar; [done|].
  destruct p as [|z p].
  - apply stat_root_IsDir in Hpar as [es ->]. rewrite put_singleton, lookup_singleton.
    apply wf_Dir in Hwf as [Hnd _]. by apply weigh_entries_put.
  - change (parent (x :: z :: p)) with (x :: parent (z :: p)) in Hpar.
    destruct n as [f|es]; [done|]. rewrite stat_cons in Hpar.
    destruct (assoc x es) as [c|] eqn:Hc; [|done].
    rewrite put_cons, Hc. simpl fmap.
    apply wf_Dir in Hwf as [Hnd Hall].
    assert (wf c) as Hwfc.
    { rewrite Forall_forall in Hall. apply (Hall (x, c)). by apply assoc_Some_in. }
    pose proof (weigh_entries_put μ x (Some (put (z :: p) o c)) es Hnd) as H1.
    pose proof (IH o c ltac:(done) Hwfc Hpar) as H2.
    rewrite Hc in H1. unfold weigh_opt in H1 at 1 2. cbn [from_option] in H1.
    change (lookup (x :: z :: p) (Dir es)) with (assoc x es ≫= lookup (z :: p)).
    rewrite Hc. cbn [mbind option_bind]. unfold entries_put in H1 |- *. lia.
Qed.

Lemma lookup_put_below p : ∀ o n r,
  p ≠ [] → stat (parent p) n = IsDir →
  lookup (p ++ r) (put p o n) = o ≫= lookup r.
Proof.
  induction p as [|x p IH]; intros o n r Hne Hpar; [done|].
  destruct p as [|z p].
  - apply stat_root_IsDir in Hpar as [es ->]. rewrite put_singleton.
    simpl. rewrite assoc_entries_put, decide_True by done. done.
  - change (parent (x :: z :: p)) with (x :: parent (z :: p)) in Hpar.
    destruct n as [f|es]; [done|]. rewrite stat_cons in Hpar.
    destruct (assoc x es) as [c|] eqn:Hc; [|done].
    rewrite put_cons, Hc. simpl.
    rewrite assoc_entries_insert, decide_True by done. simpl.
    by apply (IH o c r).
Qed.

Lemma put_is_Dir x p o es : ∃ es', put (x :: p) o (Dir es) = Dir es'.
Proof. destruct p; [rewrite put_singleton | rewrite put_cons]; eauto. Qed.

(** Rebinding [p] is not seen at any path that [p] is not a prefix of, as
    far as [stat] goes. *)
Lemma stat_put_outside p : ∀ o n q,
  ¬ p `prefix_of` q → stat q (put p o n) = stat q n.
Proof.
  induction p as [|x p IH]; intros o n q Hq.
  - destruct Hq. apply prefix_nil.
  - destruct n as [f|es]; [done|].
    destruct q as [|y r].
    { destruct (put_is_Dir x p o es) as [es' ->]. done. }
    destruct p as [|z p].
    + rewrite put_singleton, !stat_cons, assoc_entries_put.
      case_decide as Hyx; [|done]. subst. destruct Hq. apply prefix_cons, prefix_nil.
    + rewrite put_cons, !stat_cons, assoc_entries_put.
      case_decide as Hyx; [|done]. subst y.
      destruct (assoc x es) as [c|]; [|done]. simpl.
      apply IH. intros H. apply Hq. by apply prefix_cons.
Qed.

(** At a path that is neither above nor below [p], nothing at all is seen. *)
Lemma lookup_put_apart p : ∀ o n q,
  ¬ p `prefix_of` q → ¬ q `prefix_of` p → lookup q (put p o n) = lookup q n.
Proof.
  induction p as [|x p IH]; intros o n q Hpq Hqp.
  - destruct Hpq. apply prefix_nil.
  - destruct n as [f|es]; [done|].
    destruct q as [|y r]; [destruct Hqp; apply prefix_nil|].
    destruct p as [|z p].
    + rewrite put_singleton. simpl. rewrite assoc_entries_put.
      case_decide as Hyx; [|done]. subst. destruct Hpq. apply prefix_cons, prefix_nil.
    + rewrite put_cons. simpl. rewrite assoc_entries_put.
      case_decide as Hyx; [|done]. subst y.
      destruct (assoc x es) as [c|]; [|done]. simpl.
      apply IH; intros H; [apply Hpq | apply Hqp]; by apply prefix_cons.
Qed.

End TreeFacts.

Module PurgeFacts.
Import FS FSFacts NameFacts OSFacts OrganizerFacts LoopFacts TreeFacts.
Import Notions.

(** *** The two steps of the loop body *)

Lemma delete_file_spec root acc file w :
  delete_file root acc file w =
    let p := root ++ [file] in
    match stat p (fs w) with
    | IsFile f =>
        if locked f then
          (Return acc,
           World (fs w) (log w ++ [(LoggingError, FailedToDelete p PermissionError)]))
        else
          (Return (acc.1 + 1, acc.2 + length (data f)),
           World (put p None (fs w))
                 (log w ++ [(LoggingInfo, Deleted p (length (data f)))]))
    | IsDir =>
        (Return acc,
         World (fs w) (log w ++ [(LoggingError, FailedToDelete p IsADirectoryError)]))
    | Absent =>
        (Return acc,
         World (fs w) (log w ++ [(LoggingError, FailedToDelete p FileNotFoundError)]))
    end.
Proof.
  unfold delete_file. run. unfold OS.getsize, OS.remove. cbn zeta.
  destruct (stat (root ++ [file]) (fs w)) as [| |f] eqn:E; cbn [fs log]; try done.
  - by rewrite E.
  - rewrite E. by destruct (locked f).
Qed.

Lemma delete_dir_spec root acc dir w :
  delete_dir root acc dir w =
    (Return acc,
     World (OS.rmtree_ignore_errors (root ++ [dir]) (fs w))
           (log w ++ [(LoggingInfo, DeletedDirectory (root ++ [dir]))])).
Proof. done. Qed.

(** *** Nothing outside the location changes *)

Lemma inside_prefix top root x q :
  top `prefix_of` root → root ++ [x] `prefix_of` q → inside top q.
Proof.
  intros [s ->] [r ->]. destruct s as [|a s].
  - exists x, r. by rewrite app_nil_r, <- app_assoc.
  - exists a, (s ++ [x] ++ r). by rewrite <- !app_assoc.
Qed.

Lemma delete_file_outside top root acc file w :
  top `prefix_of` root →
  ∃ acc' w', delete_file root acc file w = (Return acc', w')
    ∧ ∀ q, ¬ inside top q → stat q (fs w') = stat q (fs w).
Proof.
  intros Hroot. rewrite delete_file_spec. cbn zeta.
  destruct (stat (root ++ [file]) (fs w)) as [| |f]; [by eauto..|].
  destruct (locked f); [by eauto|]. eexists _, _. split; [done|].
  intros q Hq. cbn [fs]. apply stat_put_outside.
  intros Hp. apply Hq. by eapply inside_prefix.
Qed.

Lemma rmtree_outside top root dir n q :
  top `prefix_of` root → ¬ inside top q →
  stat q (OS.rmtree_ignore_errors (root ++ [dir]) n) = stat q n.
Proof.
  intros Hroot Hq. unfold OS.rmtree_ignore_errors.
  destruct (lookup (root ++ [dir]) n) as [[f|es]|]; [done| |done].
  apply stat_put_outside. intros Hp. apply Hq. by eapply inside_prefix.
Qed.

Lemma purge_triple_outside top acc root dirs files w :
  top `prefix_of` root →
  ∃ acc' w', purge_triple acc (root, dirs, files) w = (Return acc', w')
    ∧ ∀ q, ¬ inside top q → stat q (fs w') = stat q (fs w).
Proof.
  intros Hroot. unfold purge_triple. cbv [mbind M_bind].
  assert (∃ acc1 w1, for_each (delete_file root) files acc w = (Return acc1, w1)
            ∧ ∀ q, ¬ inside top q → stat q (fs w1) = stat q (fs w)) as (acc1 & w1 & -> & H1).
  { revert acc w. induction files as [|file files IH]; intros acc w; [by eauto|].
    destruct (delete_file_outside top root acc file w Hroot) as (a & w0 & Hrun & H0).
    destruct (IH a w0) as (acc1 & w1 & Hrest & H1).
    exists acc1, w1. rewrite for_each_cons, Hrun. split; [done|].
    intros q Hq. by rewrite H1, H0. }
  revert acc1 w1 H1. induction dirs as [|dir dirs IH]; intros acc1 w1 H1; [by eauto|].
  rewrite for_each_cons, delete_dir_spec.
  destruct (IH acc1 (World (OS.rmtree_ignore_errors (root ++ [dir]) (fs w1))
                       (log w1 ++ [(LoggingInfo, DeletedDirectory (root ++ [dir]))])))
    as (acc' & w' & Hrun & H'); [|by eauto].
  intros q Hq. cbn [fs]. rewrite (rmtree_outside top) by done. by apply H1.
Qed.

Lemma walk_Dir top es :
  OS.walk_bottom_up top (Dir es)
  = walk_children top es ++ [(top, OS.dirs_of es, OS.nondirs_of es)].
Proof. done. Qed.

Lemma walk_children_cons top x c es :
  walk_children top ((x, c) :: es)
  = OS.walk_bottom_up (top ++ [x]) c ++ walk_children top es.
Proof. done. Qed.

Lemma walk_roots n : ∀ top root dirs files,
  (root, dirs, files) ∈ OS.walk_bottom_up top n → top `prefix_of` root.
Proof.
  induction n as [f|es IH] using node_ind'; intros top root dirs files Hin.
  - by apply elem_of_nil in Hin.
  - rewrite walk_Dir in Hin. apply elem_of_app in Hin as [Hin|Hin].
    + induction IH as [|[x c] es Hc _ IHes]; [by apply elem_of_nil in Hin|].
      rewrite walk_children_cons in Hin. apply elem_of_app in Hin as [Hin|Hin].
      * apply Hc in Hin. by eapply prefix_app_l.
      * by apply IHes.
    + apply list_elem_of_singleton in Hin as [= -> _ _]. done.
Qed.

Lemma purge_triples_outside top triples : ∀ acc w,
  (∀ root dirs files, (root, dirs, files) ∈ triples → top `prefix_of` root) →
  ∃ acc' w', for_each purge_triple triples acc w = (Return acc', w')
    ∧ ∀ q, ¬ inside top q → stat q (fs w') = stat q (fs w).
Proof.
  induction triples as [|[[root dirs] files] triples IH]; intros acc w Hroots;
    [by eauto|].
  destruct (purge_triple_outside top acc root dirs files w) as (a & w0 & Hrun & H0).
  { apply (Hroots root dirs files), list_elem_of_here. }
  destruct (IH a w0) as (acc' & w' & Hrest & H').
  { intros r d f Hin. apply (Hroots r d f). by apply list_elem_of_further. }
  exists acc', w'. rewrite for_each_cons, Hrun. split; [done|].
  intros q Hq. by rewrite H', H0.
Qed.

Lemma purge_location_outside acc temp_dir w :
  ∃ acc' w', purge_location acc temp_dir w = (Return acc', w')
    ∧ ∀ q, ¬ inside temp_dir q → stat q (fs w') = stat q (fs w).
Proof.
  unfold purge_location. run. destruct (exists_ temp_dir (fs w)); [|by eauto].
  apply purge_triples_outside. intros root dirs files. unfold OS.walk.
  destruct (lookup temp_dir (fs w)) as [c|]; [apply walk_roots|].
  intros Hin. by apply elem_of_nil in Hin.
Qed.

Lemma purge_locations_outside temp_dirs : ∀ acc w,
  ∃ acc' w', for_each purge_location temp_dirs acc w = (Return acc', w')
    ∧ ∀ q, (∀ d, d ∈ temp_dirs → ¬ inside d q) → stat q (fs w') = stat q (fs w).
Proof.
  induction temp_dirs as [|d temp_dirs IH]; intros acc w; [by eauto|].
  destruct (purge_location_outside acc d w) as (a & w0 & Hrun & H0).
  destruct (IH a w0) as (acc' & w' & Hrest & H').
  exists acc', w'. rewrite for_each_cons, Hrun. split; [done|].
  intros q Hq. rewrite H', H0; [done| |].
  - apply Hq, list_elem_of_here.
  - intros d' Hd'. by apply Hq, list_elem_of_further.
Qed.

End PurgeFacts.

Module RmtreeFacts.
Import FS FSFacts NameFacts OSFacts OrganizerFacts LoopFacts TreeFacts PurgeFacts.
Import Notions.

Lemma rmtree_Dir es :
  OS.rmtree_node (Dir es)
  = match rmtree_entries es with [] => None | es' => Some (Dir es') end.
Proof. done. Qed.

Lemma rmtree_entries_cons x c es :
  rmtree_entries ((x, c) :: es)
  = match OS.rmtree_node c with
    | Some c' => (x, c') :: rmtree_entries es
    | None => rmtree_entries es
    end.
Proof. done. Qed.

#[local] Arguments OS.rmtree_node : simpl never.

Lemma rmtree_entries_keys es : (rmtree_entries es).*1 `sublist_of` es.*1.
Proof.
  induction es as [|[x c] es IH]; [done|].
  rewrite rmtree_entries_cons. destruct (OS.rmtree_node c); simpl.
  - by apply sublist_skip.
  - by apply sublist_cons.
Qed.

Lemma assoc_rmtree_entries y es :
  NoDup es.*1 → assoc y (rmtree_entries es) = assoc y es ≫= OS.rmtree_node.
Proof.
  induction es as [|[x c] es IH]; [done|]. intros Hnd.
  simpl in Hnd. apply NoDup_cons in Hnd as [Hx Hnd].
  rewrite rmtree_entries_cons. cbn [assoc].
  destruct (decide (y = x)) as [->|Hyx].
  - destruct (OS.rmtree_node c) as [c'|] eqn:Hc; simpl.
    + by rewrite decide_True.
    + rewrite IH by done.
      assert (assoc x es = None) as -> by (by apply assoc_None_elem). done.
  - destruct (OS.rmtree_node c) as [c'|] eqn:Hc; simpl.
    + rewrite decide_False by done. by apply IH.
    + by apply IH.
Qed.

Lemma weigh_opt_Dir μ es :
  weigh_opt μ (match es with [] => None | e :: es' => Some (Dir (e :: es')) end)
  = weigh μ (Dir es).
Proof. by destruct es. Qed.

Lemma wf_rmtree n : wf n → wf_opt (OS.rmtree_node n).
Proof.
  induction n as [f|es IH] using node_ind'; intros Hwf.
  - unfold OS.rmtree_node. by destruct (locked f).
  - rewrite rmtree_Dir. apply wf_Dir in Hwf as [Hnd Hall].
    assert (wf (Dir (rmtree_entries es))) as Hwf'.
    { apply wf_Dir. split.
      - eapply sublist_NoDup; [|apply rmtree_entries_keys]. done.
      - clear Hnd. induction es as [|[x c] es IHes]; [constructor|].
        apply Forall_cons in IH as [IHc IH]. apply Forall_cons in Hall as [Hc Hall].
        rewrite rmtree_entries_cons. simpl in IHc, Hc. specialize (IHc Hc).
        destruct (OS.rmtree_node c); [constructor|]; auto. }
    by destruct (rmtree_entries es).
Qed.

(** [rmtree] creates no file. *)
Lemma rmtree_files n : wf n →
  ∀ r f, kind_of (OS.rmtree_node n ≫= lookup r) = IsFile f → stat r n = IsFile f.
Proof.
  induction n as [g|es IH] using node_ind'; intros Hwf r f.
  - unfold OS.rmtree_node. destruct (locked g); [|done]. done.
  - rewrite rmtree_Dir. apply wf_Dir in Hwf as [Hnd Hall].
    intros H.
    assert (kind_of (lookup r (Dir (rmtree_entries es))) = IsFile f) as H'.
    { destruct (rmtree_entries es); [done|exact H]. }
    clear H. destruct r as [|y r]; [by simpl in H'|].
    simpl in H'. rewrite assoc_rmtree_entries in H' by done.
    rewrite stat_cons.
    destruct (assoc y es) as [c|] eqn:Hy; [|done]. simpl in H'.
    apply assoc_Some_in in Hy.
    pose proof (proj1 (Forall_forall _ _) IH (y, c) Hy) as IHc.
    pose proof (proj1 (Forall_forall _ _) Hall (y, c) Hy) as Hc.
    apply (IHc Hc). exact H'.
Qed.

(** On a subtree whose files are all locked, [rmtree] deletes no file. *)
Lemma weigh_rmtree μ n : wf n →
  (∀ r f, stat r n = IsFile f → locked f = true) →
  weigh_opt μ (OS.rmtree_node n) = weigh μ n.
Proof.
  induction n as [g|es IH] using node_ind'; intros Hwf HU.
  - unfold OS.rmtree_node. by rewrite (HU [] g).
  - rewrite rmtree_Dir, weigh_opt_Dir. apply wf_Dir in Hwf as [Hnd Hall].
    induction es as [|[x c] es IHes]; [done|].
    apply Forall_cons in IH as [IHc IH]. apply Forall_cons in Hall as [Hc Hall].
    simpl in Hnd. apply NoDup_cons in Hnd as [Hx Hnd].
    simpl in IHc, Hc.
    assert (weigh_opt μ (OS.rmtree_node c) = weigh μ c) as Hwc.
    { apply IHc; [done|]. intros r f Hr. apply (HU (x :: r) f).
      rewrite stat_cons. cbn [assoc]. by rewrite decide_True. }
    assert (weigh μ (Dir (rmtree_entries es)) = weigh μ (Dir es)) as Hwes.
    { apply IHes; try done. intros r f Hr. apply (HU r f).
      destruct r as [|y r]; [done|]. rewrite stat_cons in Hr |- *.
      cbn [assoc]. destruct (decide (y = x)) as [->|]; [|done].
      assert (assoc x es = None) as E by (by apply assoc_None_elem).
      by rewrite E in Hr. }
    rewrite rmtree_entries_cons, weigh_cons.
    destruct (OS.rmtree_node c) as [c'|]; simpl in Hwc.
    + rewrite weigh_cons. lia.
    + lia.
Qed.

End RmtreeFacts.

Module CountFacts.
Import FS FSFacts NameFacts OSFacts OrganizerFacts LoopFacts TreeFacts PurgeFacts RmtreeFacts.
Import Notions.

Lemma tame_refl top w : wf (fs w) → tame top w w.
Proof.
  intros Hwf. repeat split; try done. exists []. by rewrite app_nil_r.
Qed.

Lemma tame_trans top w1 w2 w3 : tame top w1 w2 → tame top w2 w3 → tame top w1 w3.
Proof.
  intros (_ & Ha1 & Hf1 & Ho1 & l1 & Hl1) (Hwf & Ha2 & Hf2 & Ho2 & l2 & Hl2).
  split; [done|]. split; [|split; [|split]].
  - intros q H1 H2. rewrite Ha2, Ha1; done.
  - intros q f Hq. by apply Hf1, Hf2.
  - intros q Hq. rewrite Ho2, Ho1; done.
  - exists (l1 ++ l2). by rewrite Hl2, Hl1, app_assoc.
Qed.

Lemma inside_sub top top' q : top `prefix_of` top' → inside top' q → inside top q.
Proof.
  intros [s ->] (x & r & ->). destruct s as [|a s].
  - exists x, r. by rewrite app_nil_r.
  - exists a, (s ++ x :: r). by rewrite <- !app_assoc.
Qed.

Lemma tame_sub top top' w w' : top `prefix_of` top' → tame top' w w' → tame top w w'.
Proof.
  intros Hsub (Hwf & Ha & Hf & Ho & Hl).
  split; [done|]. split; [|split; [done|split; [|done]]].
  - intros q H1 H2. apply Ha.
    + intros H. apply H1. by etrans.
    + intros H. destruct (prefix_weak_total _ _ _ Hsub H); done.
  - intros q Hq. apply Ho. intros H. apply Hq. by eapply inside_sub.
Qed.

(** Rebinding an existing path below [top] to something that holds no new
    file. *)
Lemma tame_put top root x o n lg l :
  wf n → top `prefix_of` root → stat (root ++ [x]) n ≠ Absent → wf_opt o →
  (∀ r f, kind_of (o ≫= lookup r) = IsFile f → stat (root ++ [x] ++ r) n = IsFile f) →
  tame top (World n lg) (World (put (root ++ [x]) o n) (lg ++ l)).
Proof.
  intros Hwf Hroot Hex Ho Hfiles.
  assert (root ++ [x] ≠ []) as Hne by (by destruct root).
  assert (stat (parent (root ++ [x])) n = IsDir) as Hpar.
  { apply stat_parent_IsDir; [exact Hne | exact Hex]. }
  assert (top `prefix_of` root ++ [x]) as Htop by (by apply prefix_app_r).
  split; [by apply wf_put|]. cbn [fs log]. split; [|split; [|split; [|by eauto]]].
  - intros q H1 H2. apply lookup_put_apart.
    + intros H. apply H1. by etrans.
    + intros H. destruct (prefix_weak_total _ _ _ Htop H); done.
  - intros q f. destruct (decide (root ++ [x] `prefix_of` q)) as [[r ->]|Hq].
    + unfold stat at 1. rewrite lookup_put_below by done.
      rewrite <- app_assoc. apply Hfiles.
    + by rewrite stat_put_outside.
  - intros q Hq. apply stat_put_outside. intros H. apply Hq.
    exact (inside_prefix top root x q Hroot H).
Qed.

Lemma delete_file_tame top root acc file w :
  wf (fs w) → top `prefix_of` root →
  ∃ acc' w', delete_file root acc file w = (Return acc', w') ∧ tame top w w'.
Proof.
  intros Hwf Hroot. rewrite delete_file_spec. cbn zeta.
  assert (∀ l, tame top w (World (fs w) (log w ++ l))) as Hlog.
  { intros l. destruct (tame_refl top w Hwf) as (? & ? & ? & ? & _).
    repeat split; try done. by exists l. }
  destruct (stat (root ++ [file]) (fs w)) as [| |f] eqn:E; [by eauto..|].
  destruct (locked f); [by eauto|]. eexists _, _. split; [done|].
  destruct w as [n lg]. cbn [fs log] in *.
  apply tame_put; [done | done | by rewrite E | done | done].
Qed.

Lemma delete_dir_tame top root acc dir w :
  wf (fs w) → top `prefix_of` root →
  ∃ w', delete_dir root acc dir w = (Return acc, w') ∧ tame top w w'.
Proof.
  intros Hwf Hroot. rewrite delete_dir_spec. eexists. split; [done|].
  unfold OS.rmtree_ignore_errors.
  destruct (lookup (root ++ [dir]) (fs w)) as [[f|es]|] eqn:E.
  1,3: destruct (tame_refl top w Hwf) as (? & ? & ? & ? & _);
       repeat split; try done; by eexists.
  destruct w as [n lg]. cbn [fs log] in *. apply tame_put; try done.
  - unfold stat. by rewrite E.
  - apply wf_rmtree. by eapply wf_lookup.
  - intros r f Hr. rewrite app_assoc. unfold stat. rewrite lookup_app, E. simpl.
    apply rmtree_files in Hr; [done|]. by eapply wf_lookup.
Qed.

Lemma for_each_tame {A} (body : nat * nat → A → M (nat * nat)) top l :
  (∀ acc a w, a ∈ l → wf (fs w) →
     ∃ acc' w', body acc a w = (Return acc', w') ∧ tame top w w') →
  ∀ acc w, wf (fs w) →
    ∃ acc' w', for_each body l acc w = (Return acc', w') ∧ tame top w w'.
Proof.
  induction l as [|a l IH]; intros Hbody acc w Hwf.
  - exists acc, w. split; [done | by apply tame_refl].
  - destruct (Hbody acc a w) as (acc1 & w1 & Hrun & Ht1); [apply list_elem_of_here|done|].
    destruct (IH (λ acc a w Ha, Hbody acc a w (list_elem_of_further _ _ _ Ha)) acc1 w1)
      as (acc' & w' & Hrest & Ht'); [apply Ht1|].
    exists acc', w'. rewrite for_each_cons, Hrun. split; [done | by eapply tame_trans].
Qed.

Lemma purge_triple_tame top acc root dirs files w :
  wf (fs w) → top `prefix_of` root →
  ∃ acc' w', purge_triple acc (root, dirs, files) w = (Return acc', w') ∧ tame top w w'.
Proof.
  intros Hwf Hroot. unfold purge_triple. cbv [mbind M_bind].
  destruct (for_each_tame (delete_file root) top files) with (acc := acc) (w := w)
    as (acc1 & w1 & -> & Ht1); [|done|].
  { intros a y w0 _ Hwf0. by apply delete_file_tame. }
  destruct (for_each_tame (delete_dir root) top dirs) with (acc := acc1) (w := w1)
    as (acc' & w' & -> & Ht'); [|apply Ht1|].
  { intros a y w0 _ Hwf0. destruct (delete_dir_tame top root a y w0) as (w2 & ? & ?);
      eauto. }
  exists acc', w'. split; [done | by eapply tame_trans].
Qed.

Lemma purge_triples_tame top triples acc w :
  wf (fs w) →
  (∀ root dirs files, (root, dirs, files) ∈ triples → top `prefix_of` root) →
  ∃ acc' w', for_each purge_triple triples acc w = (Return acc', w') ∧ tame top w w'.
Proof.
  intros Hwf Hroots. apply for_each_tame; [|done].
  intros a [[root dirs] files] w0 Hin Hwf0. apply purge_triple_tame; [done|].
  by apply (Hroots root dirs files).
Qed.

(** *** Counting *)

Lemma tally_ok_refl w acc : tally_ok w w acc acc.
Proof. done. Qed.

Lemma tally_ok_trans w1 w2 w3 a1 a2 a3 :
  tally_ok w1 w2 a1 a2 → tally_ok w2 w3 a2 a3 → tally_ok w1 w3 a1 a3.
Proof. unfold tally_ok. lia. Qed.

Lemma tame_log top w w' e : tame top w w' → e ∈ log w → e ∈ log w'.
Proof. intros (_ & _ & _ & _ & l & ->) He. apply elem_of_app. by left. Qed.

Lemma tame_files top w w' q f :
  tame top w w' → stat q (fs w') = IsFile f → stat q (fs w) = IsFile f.
Proof. intros (_ & _ & Hf & _). apply Hf. Qed.

Lemma tame_wf top w w' : tame top w w' → wf (fs w').
Proof. by intros (? & _). Qed.

Lemma settled_tame top top' w w' : tame top' w w' → settled top w → settled top w'.
Proof.
  intros Ht Hs x r f Hf. apply (tame_files _ _ _ _ _ Ht) in Hf.
  destruct (Hs x r f Hf) as [? ?]. split; [done|]. by eapply tame_log.
Qed.

Lemma weigh_remove_file μ p f n :
  wf n → stat p n = IsFile f → p ≠ [] →
  weigh μ (put p None n) + μ f = weigh μ n.
Proof.
  intros Hwf Hf Hne.
  assert (stat (parent p) n = IsDir) as Hpar.
  { apply stat_parent_IsDir; [done|]. by rewrite Hf. }
  pose proof (weigh_put μ p None n Hne Hwf Hpar) as H.
  rewrite stat_IsFile in Hf. rewrite Hf in H.
  unfold weigh_opt in H. cbn [from_option] in H.
  change (weigh μ (File f)) with (μ f) in H. lia.
Qed.

(** The loop over [files] of one directory. *)
Lemma files_counts top names : ∀ w acc acc' w',
  wf (fs w) →
  for_each (delete_file top) names acc w = (Return acc', w') →
  tally_ok w w' acc acc'
  ∧ ∀ y f, y ∈ names → stat (top ++ [y]) (fs w') = IsFile f →
      locked f = true
      ∧ (LoggingError, FailedToDelete (top ++ [y]) PermissionError) ∈ log w'.
Proof.
  induction names as [|y names IH]; intros w acc acc' w' Hwf Hrun.
  - injection Hrun as <- <-. split; [done|]. intros y f Hy. by apply elem_of_nil in Hy.
  - rewrite for_each_cons in Hrun.
    destruct (delete_file top acc y w) as [[acc1| |] w1] eqn:Hstep; [|done|done].
    destruct (for_each_tame (delete_file top) top names
                (λ a z w0 _ Hwf0, delete_file_tame top top a z w0 Hwf0 (reflexivity _))
                acc1 w1) as (a' & w'' & Hrun' & Hrest).
    { destruct (delete_file_tame top top acc y w Hwf) as (? & ? & E & Ht); [done|].
      rewrite Hstep in E. injection E as <- <-. by eapply tame_wf. }
    rewrite Hrun in Hrun'. injection Hrun' as <- <-.
    rewrite delete_file_spec in Hstep. cbn zeta in Hstep.
    assert (wf (fs w1) ∧ tally_ok w w1 acc acc1
            ∧ ∀ f, stat (top ++ [y]) (fs w1) = IsFile f →
                locked f = true
                ∧ (LoggingError, FailedToDelete (top ++ [y]) PermissionError) ∈ log w1)
      as (Hwf1 & Hok1 & Hy1).
    { destruct (stat (top ++ [y]) (fs w)) as [| |g] eqn:E.
      1,2: injection Hstep as <- <-; cbn [fs]; rewrite E; done.
      destruct (locked g) eqn:Hl; injection Hstep as <- <-; cbn [fs log].
      - split; [done|]. split; [done|]. rewrite E. intros f [= <-]. split; [done|].
        apply elem_of_app. right. apply list_elem_of_here.
      - assert (top ++ [y] ≠ []) as Hne by (by destruct top).
        split; [by apply wf_put|]. split.
        + unfold tally_ok, file_count, total_bytes. cbn [fst snd fs].
          pose proof (weigh_remove_file (λ _, 1) _ _ _ Hwf E Hne) as H1.
          pose proof (weigh_remove_file (λ f, length (data f)) _ _ _ Hwf E Hne) as H2.
          cbv beta in H1, H2. lia.
        + intros f. rewrite (stat_remove_file _ g) by done. by rewrite decide_True. }
    destruct (IH w1 acc1 acc' w' Hwf1 Hrun) as [Hok Hnames].
    split; [by eapply tally_ok_trans|].
    intros z f Hz Hf. apply elem_of_cons in Hz as [->|Hz]; [|by apply Hnames].
    apply (tame_files _ _ _ _ _ Hrest) in Hf. destruct (Hy1 f Hf) as [? ?].
    split; [done|]. by eapply tame_log.
Qed.

(** The loop over [dirs] of one directory, once its sub-directories hold
    nothing that can still be deleted. *)
Lemma dirs_counts top names : ∀ w acc acc' w',
  wf (fs w) →
  (∀ d, d ∈ names → all_locked (top ++ [d]) (fs w)) →
  for_each (delete_dir top) names acc w = (Return acc', w') →
  tally_ok w w' acc acc'.
Proof.
  induction names as [|d names IH]; intros w acc acc' w' Hwf HU Hrun.
  - by injection Hrun as <- <-.
  - rewrite for_each_cons in Hrun.
    destruct (delete_dir_tame top top acc d w Hwf) as (w1 & Hstep & Ht1); [done|].
    rewrite Hstep in Hrun.
    assert (tally_ok w w1 acc acc) as Hok1.
    { rewrite delete_dir_spec in Hstep. injection Hstep as <-.
      unfold tally_ok, file_count, total_bytes. cbn [fs].
      unfold OS.rmtree_ignore_errors.
      destruct (lookup (top ++ [d]) (fs w)) as [[f|es]|] eqn:E; [done| |done].
      assert (∀ μ, weigh μ (put (top ++ [d]) (OS.rmtree_node (Dir es)) (fs w))
                   = weigh μ (fs w)) as Hsame.
      { intros μ.
        assert (top ++ [d] ≠ []) as Hne by (by destruct top).
        assert (stat (parent (top ++ [d])) (fs w) = IsDir) as Hpar.
        { apply stat_parent_IsDir; [done|]. unfold stat. by rewrite E. }
        pose proof (weigh_put μ (top ++ [d]) (OS.rmtree_node (Dir es)) (fs w)
                      Hne Hwf Hpar) as H.
        rewrite E in H. rewrite weigh_rmtree in H.
        - unfold weigh_opt in H. cbn [from_option] in H. lia.
        - by eapply wf_lookup.
        - intros r f Hr. apply (HU d (list_elem_of_here _ _) r f).
          unfold stat. by rewrite lookup_app, E. }
      by rewrite !Hsame. }
    eapply tally_ok_trans; [exact Hok1|].
    apply (IH w1 acc acc' w'); [by eapply tame_wf| |done].
    intros d' Hd' r f Hf. apply (HU d' (list_elem_of_further _ _ _ Hd') r f).
    by eapply tame_files.
Qed.

Lemma walk_children_roots top es root dirs files :
  (root, dirs, files) ∈ walk_children top es → top `prefix_of` root.
Proof.
  induction es as [|[x c] es IH]; [intros H; by apply elem_of_nil in H|].
  rewrite walk_children_cons. intros [Hin|Hin]%elem_of_app; [|by apply IH].
  apply walk_roots in Hin. by eapply prefix_app_l.
Qed.

Lemma snoc_apart (top : path) y y' :
  y ≠ y' → ¬ top ++ [y] `prefix_of` top ++ [y'] ∧ ¬ top ++ [y'] `prefix_of` top ++ [y].
Proof.
  intros Hne. split; intros H%prefix_app_inv%prefix_cons_inv_1; congruence.
Qed.

Lemma children_counts top rest :
  Forall (λ e, walk_ok e.2) rest → NoDup rest.*1 →
  ∀ w acc acc' w',
    wf (fs w) →
    (∀ y c, (y, c) ∈ rest → lookup (top ++ [y]) (fs w) = Some c) →
    for_each purge_triple (walk_children top rest) acc w = (Return acc', w') →
    tally_ok w w' acc acc'
    ∧ ∀ y c, (y, c) ∈ rest → settled (top ++ [y]) w'.
Proof.
  induction rest as [|[y c] rest IH]; intros Hall Hnd w acc acc' w' Hwf Hlook Hrun.
  - injection Hrun as <- <-. split; [done|]. intros y c H. by apply elem_of_nil in H.
  - apply Forall_cons in Hall as [Hc Hall]. simpl in Hc, Hnd.
    apply NoDup_cons in Hnd as [Hy Hnd].
    rewrite walk_children_cons, for_each_app in Hrun.
    destruct (purge_triples_tame (top ++ [y]) (OS.walk_bottom_up (top ++ [y]) c) acc w Hwf)
      as (acc1 & w1 & Hwalk & Ht1).
    { intros root dirs files. apply walk_roots. }
    rewrite Hwalk in Hrun.
    destruct (Hc (top ++ [y]) w acc acc1 w1 Hwf) as [Hok1 Hset1]; [|done|].
    { apply Hlook, list_elem_of_here. }
    destruct (purge_triples_tame top (walk_children top rest) acc1 w1 (tame_wf _ _ _ Ht1))
      as (a' & w'' & Hrest & Ht').
    { intros root dirs files. apply walk_children_roots. }
    rewrite Hrun in Hrest. injection Hrest as <- <-.
    destruct (IH Hall Hnd w1 acc1 acc' w' (tame_wf _ _ _ Ht1)) as [Hok Hset]; [|done|].
    { intros y' c' Hin. destruct Ht1 as (_ & Ha & _). rewrite Ha.
      - apply Hlook. by apply list_elem_of_further.
      - apply snoc_apart. intros ->. apply Hy. by apply (list_elem_of_fmap_2 fst) in Hin.
      - apply snoc_apart. intros ->. apply Hy. by apply (list_elem_of_fmap_2 fst) in Hin. }
    split; [by eapply tally_ok_trans|].
    intros y' c' [[= -> ->]|Hin]%elem_of_cons; [|by eapply Hset].
    by eapply settled_tame.
Qed.

Lemma walk_counts n : walk_ok n.
Proof.
  induction n as [g|es IH] using node_ind';
    intros top w acc acc' w' Hwf Htop Hrun.
  - injection Hrun as <- <-. split; [done|]. intros x r f Hf.
    unfold stat in Hf. by rewrite lookup_app, Htop in Hf.
  - pose proof (wf_lookup _ _ _ Hwf Htop) as [Hnd _]%wf_Dir.
    assert (∀ y r, stat (top ++ y :: r) (fs w)
                   = match assoc y es with Some c => stat r c | None => Absent end) as Hsub.
    { intros y r. unfold stat. rewrite lookup_app, Htop. simpl.
      by destruct (assoc y es). }
    rewrite walk_Dir, for_each_app in Hrun.
    destruct (purge_triples_tame top (walk_children top es) acc w Hwf)
      as (acc1 & w1 & Hchildren & Ht1).
    { intros root dirs files. apply walk_children_roots. }
    rewrite Hchildren in Hrun.
    destruct (children_counts top es IH Hnd w acc acc1 w1 Hwf) as [Hok1 Hset1]; [|done|].
    { intros y c Hin. rewrite lookup_app, Htop. simpl.
      rewrite (assoc_NoDup _ _ _ Hnd Hin). done. }
    rewrite for_each_cons in Hrun. unfold purge_triple at 1 in Hrun.
    cbv [mbind M_bind] in Hrun.
    pose proof (tame_wf _ _ _ Ht1) as Hwf1.
    destruct (for_each_tame (delete_file top) top (OS.nondirs_of es)
                (λ a z w0 _ Hwf0, delete_file_tame top top a z w0 Hwf0 (reflexivity _))
                acc1 w1 Hwf1) as (acc2 & w2 & Hfiles & Ht2).
    rewrite Hfiles in Hrun.
    destruct (files_counts top _ w1 acc1 acc2 w2 Hwf1 Hfiles) as [Hok2 Hset2].
    pose proof (tame_wf _ _ _ Ht2) as Hwf2.
    destruct (for_each_tame (delete_dir top) top (OS.dirs_of es)) with (acc := acc2) (w := w2)
      as (acc3 & w3 & Hdirs & Ht3); [|done|].
    { intros a z w0 _ Hwf0.
      destruct (delete_dir_tame top top a z w0 Hwf0) as (? & ? & ?); eauto. }
    rewrite Hdirs in Hrun. injection Hrun as <- <-.
    assert (tame top w w3) as Ht by (eapply tame_trans; [|exact Ht3];
                                     eapply tame_trans; [exact Ht1 | exact Ht2]).
    assert (∀ d, d ∈ OS.dirs_of es → ∃ es', (d, Dir es') ∈ es) as Hdirs_of.
    { intros d Hd. unfold OS.dirs_of in Hd.
      apply list_elem_of_fmap in Hd as ([d' c] & -> & Hd).
      apply list_elem_of_filter in Hd as [Hc Hd]. simpl in Hc.
      destruct c as [|es']; [done|]. eauto. }
    assert (tally_ok w2 w3 acc2 acc3) as Hok3.
    { apply (dirs_counts top (OS.dirs_of es)); [done| |done].
      intros d Hd r f Hf. destruct (Hdirs_of d Hd) as [es' Hin].
      destruct r as [|x r].
      - rewrite app_nil_r in Hf.
        apply (tame_files _ _ _ _ _ Ht2), (tame_files _ _ _ _ _ Ht1) in Hf.
        rewrite Hsub, (assoc_NoDup _ _ _ Hnd Hin) in Hf. done.
      - apply (tame_files _ _ _ _ _ Ht2) in Hf.
        by destruct (Hset1 d _ Hin x r f Hf). }
    split.
    { eapply tally_ok_trans; [|exact Hok3]. by eapply tally_ok_trans. }
    intros x r f Hf.
    pose proof (tame_files _ _ _ _ _ Ht Hf) as Hf0. rewrite Hsub in Hf0.
    destruct (assoc x es) as [c|] eqn:Hx; [|done].
    pose proof (assoc_Some_in _ _ _ Hx) as Hin.
    destruct c as [g|es'].
    + destruct r; [|discriminate Hf0]. injection Hf0 as ->.
      apply (tame_files _ _ _ _ _ Ht3) in Hf.
      destruct (Hset2 x f) as [? ?]; [|done|].
      * unfold OS.nondirs_of. apply (list_elem_of_fmap_2' fst _ (x, File f)); [|done].
        apply list_elem_of_filter. split; [|done]. simpl. tauto.
      * split; [done|]. eapply tame_log; [exact Ht3 | done].
    + destruct r as [|x' r]; [discriminate Hf0|].
      apply (tame_files _ _ _ _ _ Ht3), (tame_files _ _ _ _ _ Ht2) in Hf.
      change (top ++ x :: x' :: r) with (top ++ [x] ++ x' :: r) in Hf |- *.
      rewrite app_assoc in Hf |- *.
      destruct (Hset1 x _ Hin x' r f Hf) as [? ?]. split; [done|].
      eapply tame_log; [exact Ht3|]. by eapply tame_log.
Qed.

End CountFacts.

Module LocationFacts.
Import FS FSFacts NameFacts OSFacts OrganizerFacts LoopFacts TreeFacts PurgeFacts
  RmtreeFacts CountFacts.
Import Notions.

Lemma exists_Some p n c : lookup p n = Some c → exists_ p n = true.
Proof. intros H. unfold exists_, stat. rewrite H. by destruct c. Qed.

Lemma exists_None p n : lookup p n = None → exists_ p n = false.
Proof. intros H. unfold exists_, stat. by rewrite H. Qed.

Lemma purge_location_counts acc temp_dir w :
  wf (fs w) →
  ∃ acc' w', purge_location acc temp_dir w = (Return acc', w')
    ∧ tally_ok w w' acc acc' ∧ tame temp_dir w w' ∧ settled temp_dir w'.
Proof.
  intros Hwf. unfold purge_location. run. unfold OS.walk.
  destruct (lookup temp_dir (fs w)) as [c|] eqn:Hc.
  - rewrite (exists_Some _ _ c) by done. cbv beta. rewrite Hc.
    destruct (purge_triples_tame temp_dir (OS.walk_bottom_up temp_dir c) acc w Hwf)
      as (acc' & w' & Hrun & Ht).
    { intros root dirs files. apply walk_roots. }
    exists acc', w'. split; [done|].
    destruct (walk_counts c temp_dir w acc acc' w' Hwf Hc Hrun) as [Hok Hset].
    done.
  - rewrite exists_None by done. exists acc, w. split; [done|]. split; [done|].
    split; [by apply tame_refl|]. intros x r f Hf.
    unfold stat in Hf. by rewrite lookup_app, Hc in Hf.
Qed.

Lemma purge_locations_counts temp_dirs : ∀ acc w,
  wf (fs w) →
  ∃ acc' w', for_each purge_location temp_dirs acc w = (Return acc', w')
    ∧ tally_ok w w' acc acc' ∧ tame [] w w'
    ∧ ∀ d, d ∈ temp_dirs → settled d w'.
Proof.
  induction temp_dirs as [|d temp_dirs IH]; intros acc w Hwf.
  - exists acc, w. split; [done|]. split; [done|]. split; [by apply tame_refl|].
    intros d H. by apply elem_of_nil in H.
  - destruct (purge_location_counts acc d w Hwf) as (acc1 & w1 & Hrun & Hok1 & Ht1 & Hset1).
    destruct (IH acc1 w1 (tame_wf _ _ _ Ht1)) as (acc' & w' & Hrest & Hok & Ht & Hset).
    exists acc', w'. rewrite for_each_cons, Hrun. split; [done|].
    split; [by eapply tally_ok_trans|]. split.
    { eapply tame_trans; [|exact Ht]. eapply tame_sub; [|exact Ht1]. apply prefix_nil. }
    intros d' [->|Hd']%elem_of_cons; [|by apply Hset].
    by eapply settled_tame.
Qed.

Lemma clean_temp_files_confirmed env system answer w :
  PathName.lower answer = "y"%string →
  clean_temp_files env system answer w =
    for_each purge_location (dict_get system (TEMP_DIRS env) []) (0, 0)
      (World (fs w) (log w ++ [(Printed, CleanupWarning)])).
Proof.
  intros H. unfold clean_temp_files. run. by rewrite decide_False by (by intros ?).
Qed.

End LocationFacts.

Module RerunFacts.
Import FS FSFacts NameFacts OSFacts OrganizerFacts LoopFacts TreeFacts.
Import Notions.

Section Rerun.
Variable md5 : list byte → string.
Variable src : path.
Variable dd : bool.

(** The two ways a round of the loop goes for a regular file, with what
    the hash index knows afterwards. *)
Lemma organize_entry_index t name w f :
  stat (src ++ [name]) (fs w) = IsFile f → stat src (fs w) = IsDir →
  (∀ g, stat (src ++ [category_of name]) (fs w) ≠ IsFile g) →
  let made := after_makedirs src (category_of name) (fs w) in
  (∃ t1 lg,
     organize_entry md5 src dd t name w
       = relocate src (category_of name) name t1 (World made lg)
     ∧ moved_count t1 = moved_count t ∧ duplicate_count t1 = duplicate_count t
     ∧ (∀ h p, file_hashes t !! h = Some p → file_hashes t1 !! h = Some p)
     ∧ (dd = true → readable f = true →
        ∀ h, truthy (Some (md5 (data f))) = Some h →
             file_hashes t1 !! h = Some (src ++ [name]))
     ∧ (∀ h, is_Some (file_hashes t1 !! h) →
             is_Some (file_hashes t !! h)
             ∨ (dd = true ∧ readable f = true ∧ truthy (Some (md5 (data f))) = Some h)))
  ∨ (dd = true ∧ readable f = true
     ∧ ∃ h, truthy (Some (md5 (data f))) = Some h ∧ is_Some (file_hashes t !! h)
       ∧ organize_entry md5 src dd t name w =
           let lg := log w ++ [(LoggingWarning, DuplicateFound name)] in
           if locked f then (Raise PermissionError, World made lg)
           else (Return (Tally (file_hashes t) (moved_count t) (duplicate_count t + 1)),
                 World (put (src ++ [name]) None made) lg)).
Proof.
  intros Hf Hsrc Hcat made.
  rewrite (organize_entry_file _ _ _ _ _ _ f) by done. cbn zeta. fold made.
  destruct dd eqn:Hdd.
  2: { left. exists t, (log w). repeat split; try done. by left. }
  cbv [mbind M_bind].
  rewrite (check_duplicate_spec _ _ _ _ _ f) by (by apply stat_made_file).
  cbn [fs log].
  destruct (readable f) eqn:Hr.
  2: { left. eexists t, _. repeat split; try done. by left. }
  destruct (truthy (Some (md5 (data f)))) as [h|] eqn:Hh.
  2: { left. eexists t, _. repeat split; try done. by left. }
  destruct (decide (is_Some (file_hashes t !! h))) as [Hdup|Hnew].
  - right. split; [done|]. split; [done|]. exists h. split; [done|]. split; [done|].
    by destruct (locked f).
  - left. apply eq_None_not_Some in Hnew.
    eexists (Tally _ _ _), _. split; [done|]. cbn [file_hashes moved_count duplicate_count].
    split; [done|]. split; [done|]. split; [|split].
    + intros h' p Hp. rewrite lookup_insert_ne; [done|]. intros <-. congruence.
    + intros _ _ h' [= <-]. apply lookup_insert_eq.
    + intros h' Hh'. destruct (decide (h = h')) as [<-|Hne]; [by right|].
      left. by rewrite lookup_insert_ne in Hh'.
Qed.

(** A completed round of the loop puts no new file into the directory and
    removes no folder from it; if its file is still there, the move has
    failed, the category folder is in place and the index knows the file. *)
Lemma entry_settles t name w t' w' :
  stat src (fs w) = IsDir →
  organize_entry md5 src dd t name w = (Return t', w') →
  stat src (fs w') = IsDir
  ∧ (∀ m g, stat (src ++ [m]) (fs w') = IsFile g → stat (src ++ [m]) (fs w) = IsFile g)
  ∧ (∀ m, stat (src ++ [m]) (fs w) = IsDir → stat (src ++ [m]) (fs w') = IsDir)
  ∧ (∀ h p, file_hashes t !! h = Some p → file_hashes t' !! h = Some p)
  ∧ (∀ g, stat (src ++ [name]) (fs w') = IsFile g →
          locked g = true
          ∧ stat (src ++ [category_of name]) (fs w') = IsDir
          ∧ (dd = true → readable g = true →
             ∀ h, truthy (Some (md5 (data g))) = Some h →
                  file_hashes t' !! h = Some (src ++ [name]))).
Proof.
  intros Hsrc Hrun.
  destruct (stat (src ++ [name]) (fs w)) as [| |f] eqn:Hf.
  1,2: rewrite organize_entry_skip in Hrun by (by rewrite Hf);
       injection Hrun as <- <-; repeat split; try done; congruence.
  destruct (stat (src ++ [category_of name]) (fs w)) as [| |g0] eqn:Hc;
    [| |by rewrite (organize_entry_blocked _ _ _ _ _ _ f g0) in Hrun].
  all: assert (∀ g, stat (src ++ [category_of name]) (fs w) ≠ IsFile g) as Hcat
         by (by rewrite Hc).
  all: destruct (organize_entry_index t name w f Hf Hsrc Hcat)
         as [(t1 & lg & Heq & _ & _ & Hmono & Hknown & _)|(_ & _ & h & _ & _ & Heq)].
  all: rewrite Heq in Hrun; clear Heq.
  1,3: destruct (relocate_on_made_rel src name t1 w lg f Hf Hsrc Hcat)
         as (k & w1 & t2 & Hreloc & _ & _ & Ht2 & _ & Hstat);
       rewrite Hreloc in Hrun; injection Hrun as <- <-;
       assert (file_hashes t2 = file_hashes t1) as Hidx
         by (subst t2; by destruct (locked f));
       split; [|split; [|split; [|split]]].
  1,6: rewrite <- (app_nil_r src) at 1; rewrite Hstat;
       rewrite !decide_False by (try intros [_ ?]; done); by rewrite app_nil_r.
  1,5: intros m g; rewrite Hstat;
       rewrite (decide_False (P := [m] = _)) by done;
       destruct (decide (locked f = false ∧ [m] = [name])); [done|];
       by destruct (decide ([m] = [category_of name])).
  1,4: intros m Hm; rewrite Hstat;
       rewrite (decide_False (P := [m] = _)) by done;
       rewrite decide_False by (intros [_ [= ->]]; congruence);
       by destruct (decide ([m] = [category_of name])).
  1,3: intros h' p Hp; rewrite Hidx; by apply Hmono.
  1,2: intros g; rewrite Hstat;
       rewrite (decide_False (P := [name] = _)) by done;
       destruct (locked f) eqn:Hl;
       [|by rewrite (decide_True (P := _ ∧ [name] = [name]))];
       rewrite (decide_False (P := _ ∧ [name] = [name])) by (by intros [? _]);
       destruct (decide ([name] = [category_of name])) as [|Hne]; [done|];
       rewrite Hf; intros [= <-]; (split; [done|]); split;
       [rewrite Hstat; rewrite decide_False by done;
        rewrite decide_False by (by intros [? _]);
        by rewrite decide_True
       |rewrite Hidx; apply Hknown].
  all: cbn zeta in Hrun; destruct (locked f); [done|]; injection Hrun as <- <-; cbn [fs].
  all: pose proof (stat_made_file _ _ _ _ Hf Hsrc Hcat) as Hf'.
  all: split; [|split; [|split; [|split]]].
  1,6: rewrite <- (app_nil_r src) at 1; rewrite (stat_remove_rel _ _ f) by done;
       rewrite decide_False by done; rewrite stat_after_makedirs_rel by done;
       rewrite decide_False by done; by rewrite app_nil_r.
  1,5: intros m g; rewrite (stat_remove_rel _ _ f) by done;
       destruct (decide ([m] = [name])); [done|];
       rewrite stat_after_makedirs_rel by done;
       by destruct (decide ([m] = [category_of name])).
  1,4: intros m Hm; rewrite (stat_remove_rel _ _ f) by done;
       rewrite decide_False by (intros [= ->]; congruence);
       rewrite stat_after_makedirs_rel by done;
       by destruct (decide ([m] = [category_of name])).
  1,3: done.
  all: intros g; rewrite (stat_remove_rel _ _ f) by done; by rewrite decide_True.
Qed.

Lemma loop_settles l : ∀ t w t' w',
  stat src (fs w) = IsDir →
  for_each (organize_entry md5 src dd) l t w = (Return t', w') →
  stat src (fs w') = IsDir
  ∧ (∀ m g, stat (src ++ [m]) (fs w') = IsFile g → stat (src ++ [m]) (fs w) = IsFile g)
  ∧ (∀ m, stat (src ++ [m]) (fs w) = IsDir → stat (src ++ [m]) (fs w') = IsDir)
  ∧ (∀ h p, file_hashes t !! h = Some p → file_hashes t' !! h = Some p)
  ∧ (∀ m g, m ∈ l → stat (src ++ [m]) (fs w') = IsFile g →
            locked g = true
            ∧ stat (src ++ [category_of m]) (fs w') = IsDir
            ∧ (dd = true → readable g = true →
               ∀ h, truthy (Some (md5 (data g))) = Some h →
                    file_hashes t' !! h = Some (src ++ [m]))).
Proof.
  induction l as [|name l IH]; intros t w t' w' Hsrc Hrun.
  - injection Hrun as <- <-. repeat split; try done; by apply elem_of_nil in H.
  - rewrite for_each_cons in Hrun.
    destruct (organize_entry md5 src dd t name w) as [[t1| |] w1] eqn:Hstep; [|done|done].
    destruct (entry_settles _ _ _ _ _ Hsrc Hstep) as (Hsrc1 & Hfiles1 & Hdirs1 & Hidx1 & Hown).
    destruct (IH t1 w1 t' w' Hsrc1 Hrun) as (Hsrc' & Hfiles' & Hdirs' & Hidx' & Hrest).
    split; [done|]. split; [by auto|]. split; [by auto|]. split; [by auto|].
    intros m g Hm Hg. apply elem_of_cons in Hm as [->|Hm]; [|by apply Hrest].
    destruct (Hown g (Hfiles' _ _ Hg)) as (Hl & Hcat & Hh).
    split; [done|]. split; [by apply Hdirs'|]. intros Hdd Hr h Hhash.
    apply Hidx'. by apply Hh.
Qed.

(** A run that returns leaves the directory with nothing left to do. *)
Lemma loop_stuck es t w t' w' :
  lookup src (fs w) = Some (Dir es) →
  for_each (organize_entry md5 src dd) es.*1 t w = (Return t', w') →
  stuck md5 src dd (fs w')
  ∧ stat src (fs w') = IsDir
  ∧ ∀ m g, stat (src ++ [m]) (fs w') = IsFile g → stat (src ++ [m]) (fs w) = IsFile g.
Proof.
  intros Hes Hrun.
  assert (stat src (fs w) = IsDir) as Hsrc by (apply stat_IsDir; eauto).
  destruct (loop_settles _ _ _ _ _ Hsrc Hrun) as (Hsrc' & Hfiles & _ & _ & Hrest).
  assert (∀ m g, stat (src ++ [m]) (fs w') = IsFile g → m ∈ es.*1) as Hin.
  { intros m g Hg. apply Hfiles in Hg. rewrite (stat_child _ _ _ es Hes) in Hg.
    destruct (assoc m es) as [c|] eqn:Hc; [|done]. by eapply assoc_Some_elem. }
  split; [|done]. split.
  - intros m g Hg. destruct (Hrest m g (Hin _ _ Hg) Hg) as (? & ? & _). done.
  - intros Hdd m1 m2 g1 g2 h Hg1 Hg2 Hr1 Hr2 Hh1 Hh2.
    destruct (Hrest m1 g1 (Hin _ _ Hg1) Hg1) as (_ & _ & Hk1).
    destruct (Hrest m2 g2 (Hin _ _ Hg2) Hg2) as (_ & _ & Hk2).
    specialize (Hk1 Hdd Hr1 h Hh1). specialize (Hk2 Hdd Hr2 h Hh2).
    rewrite Hk1 in Hk2. injection Hk2 as Hk2. by apply snoc_inj in Hk2.
Qed.

Lemma stuck_ext md5' src' dd' n n' :
  (∀ m, stat (src' ++ [m]) n' = stat (src' ++ [m]) n) →
  stuck md5' src' dd' n → stuck md5' src' dd' n'.
Proof.
  intros Heq [H1 H2]. split.
  - intros m g. rewrite !Heq. apply H1.
  - intros Hdd m1 m2 g1 g2 h. rewrite !Heq. by apply H2.
Qed.

(** On such a directory the loop changes nothing directly in the directory
    and counts nothing: what it leaves behind, apart from the log, are
    further copies, in the category folders, of files that it cannot
    move. *)
Lemma loop_idles l : ∀ t w,
  NoDup l → stuck md5 src dd (fs w) →
  (∀ h, is_Some (file_hashes t !! h) →
        ∃ m g, (m ∉ l) ∧ stat (src ++ [m]) (fs w) = IsFile g
               ∧ readable g = true ∧ truthy (Some (md5 (data g))) = Some h) →
  ∃ t' w', for_each (organize_entry md5 src dd) l t w = (Return t', w')
           ∧ (∀ m, stat (src ++ [m]) (fs w') = stat (src ++ [m]) (fs w))
           ∧ moved_count t' = moved_count t ∧ duplicate_count t' = duplicate_count t.
Proof.
  induction l as [|name l IH]; intros t w Hnd Hstuck Hidx; [by exists t, w|].
  apply NoDup_cons in Hnd as [Hname Hnd]. rewrite for_each_cons.
  destruct (stat (src ++ [name]) (fs w)) as [| |f] eqn:Hf.
  1,2: rewrite organize_entry_skip by (by rewrite Hf);
       apply IH; [done|done|]; intros h Hh;
       destruct (Hidx h Hh) as (m & g & Hm & ?); exists m, g;
       (split; [|done]); intros ?; apply Hm; by apply list_elem_of_further.
  assert (stat src (fs w) = IsDir) as Hsrc.
  { rewrite <- (parent_snoc src name). apply stat_parent_IsDir; [by destruct src|].
    by rewrite Hf. }
  destruct (proj1 Hstuck name f Hf) as [Hl Hc].
  assert (∀ g, stat (src ++ [category_of name]) (fs w) ≠ IsFile g) as Hcat
    by (by rewrite Hc).
  destruct (organize_entry_index t name w f Hf Hsrc Hcat)
    as [(t1 & lg & Heq & Hm1 & Hd1 & _ & _ & Hfrom)|(Hdd & Hr & h & Hh & Hdup & _)].
  - rewrite Heq.
    destruct (relocate_on_made_rel src name t1 w lg f Hf Hsrc Hcat)
      as (k & w1 & t2 & -> & _ & _ & Ht2 & _ & Hstat).
    rewrite Hl in Ht2. subst t2.
    assert (∀ m, stat (src ++ [m]) (fs w1) = stat (src ++ [m]) (fs w)) as Hsame.
    { intros m. rewrite Hstat. rewrite decide_False by done.
      rewrite decide_False by (intros [? _]; congruence).
      destruct (decide ([m] = [category_of name])) as [[= ->]|]; [by rewrite Hc|done]. }
    destruct (IH t1 w1 Hnd) as (t' & w' & Hloop & Hfs & Hm' & Hd').
    { by apply (stuck_ext _ _ _ (fs w)). }
    { intros h Hh. destruct (Hfrom h Hh) as [Hold|(? & ? & ?)].
      - destruct (Hidx h Hold) as (m & g & Hm & ? & ?). exists m, g.
        split; [|by rewrite Hsame]. intros ?. apply Hm. by apply list_elem_of_further.
      - exists name, f. by rewrite Hsame. }
    exists t', w'. split; [done|]. split; [|split; congruence].
    intros m. by rewrite Hfs.
  - destruct (Hidx h Hdup) as (m & g & Hm & Hg & Hrg & Hhg).
    destruct Hm. rewrite (proj2 Hstuck Hdd m name g f h) by done. apply list_elem_of_here.
Qed.

(** A round of the loop keeps the names in every directory distinct. *)
Lemma entry_wf t name w t' w' :
  wf (fs w) → organize_entry md5 src dd t name w = (Return t', w') → wf (fs w').
Proof.
  intros Hwf Hrun.
  destruct (stat (src ++ [name]) (fs w)) as [| |f] eqn:Hf.
  1,2: rewrite organize_entry_skip in Hrun by (by rewrite Hf); by injection Hrun as <- <-.
  assert (stat src (fs w) = IsDir) as Hsrc.
  { rewrite <- (parent_snoc src name). apply stat_parent_IsDir; [by destruct src|].
    by rewrite Hf. }
  destruct (stat (src ++ [category_of name]) (fs w)) as [| |g0] eqn:Hc;
    [| |by rewrite (organize_entry_blocked _ _ _ _ _ _ f g0) in Hrun].
  all: assert (∀ g, stat (src ++ [category_of name]) (fs w) ≠ IsFile g) as Hcat
         by (by rewrite Hc).
  all: assert (wf (after_makedirs src (category_of name) (fs w))) as Hmade
         by (unfold after_makedirs; rewrite Hc;
             first [done | apply wf_put; [done|]; split; [apply NoDup_nil_2|done]]).
  all: pose proof (stat_made_file _ _ _ _ Hf Hsrc Hcat) as Hf'.
  all: assert (stat (src ++ [category_of name])
                 (after_makedirs src (category_of name) (fs w)) = IsDir) as Hc'
         by (rewrite stat_after_makedirs_rel by done; by rewrite decide_True).
  all: destruct (organize_entry_index t name w f Hf Hsrc Hcat)
         as [(t1 & lg & Heq & _)|(_ & _ & h & _ & _ & Heq)].
  all: rewrite Heq in Hrun; clear Heq.
  1,3: destruct (relocate_spec src (category_of name) name t1
                   (World (after_makedirs src (category_of name) (fs w)) lg) f Hf' Hc')
         as (k & _ & _ & Hreloc);
       rewrite Hreloc in Hrun; destruct (locked f); injection Hrun as <- <-;
       cbn [fs]; [destruct (readable f); [by apply wf_put|done]|];
       by repeat apply wf_put.
  all: cbn zeta in Hrun; destruct (locked f); [done|]; injection Hrun as <- <-;
       cbn [fs]; by apply wf_put.
Qed.

Lemma loop_wf l : ∀ t w t' w',
  wf (fs w) → for_each (organize_entry md5 src dd) l t w = (Return t', w') → wf (fs w').
Proof.
  induction l as [|name l IH]; intros t w t' w' Hwf Hrun; [by injection Hrun as <- <-|].
  rewrite for_each_cons in Hrun.
  destruct (organize_entry md5 src dd t name w) as [[t1| |] w1] eqn:Hstep; [|done|done].
  eapply IH; [|done]. by eapply entry_wf.
Qed.

End Rerun.
End RerunFacts.

Module ClassifyFacts.
Import PathName NameFacts OrganizerFacts.
Import Notions.

Lemma string_app_nil_r s : s +:+ EmptyString = s.
Proof.
  induction s as [|c s IH]; [done|].
  change (String c (s +:+ EmptyString) = String c s). by rewrite IH.
Qed.

Lemma string_app_assoc s t u : (s +:+ t) +:+ u = s +:+ t +:+ u.
Proof.
  induction s as [|c s IH]; [done|].
  change (String c ((s +:+ t) +:+ u) = String c (s +:+ t +:+ u)). by rewrite IH.
Qed.

Lemma dotless_app s t : dotless (s +:+ t) = dotless s && dotless t.
Proof.
  induction s as [|c s IH]; [done|]. simpl. rewrite IH. by rewrite andb_assoc.
Qed.

Lemma all_dots_app s t : all_dots (s +:+ t) = all_dots s && all_dots t.
Proof.
  induction s as [|c s IH]; [done|]. simpl. rewrite IH. by rewrite andb_assoc.
Qed.

Lemma split_last_dot_dotless s : dotless s = true → split_last_dot s = None.
Proof.
  induction s as [|c s IH]; [done|]. simpl. intros [Hc Hs]%andb_true_iff.
  rewrite IH by done. by destruct (Ascii.eqb c ".").
Qed.

Lemma split_last_dot_ext b e :
  dotless e = true →
  split_last_dot (b +:+ String "." e) = Some (b, String "." e).
Proof.
  intros He. induction b as [|c b IH].
  - simpl. by rewrite split_last_dot_dotless.
  - simpl. simpl in IH. by rewrite IH.
Qed.

(** What [split_last_dot] finds is a dot followed by a string without dots,
    and the two parts make up the string. *)
Lemma split_last_dot_Some s : ∀ b x,
  split_last_dot s = Some (b, x) →
  ∃ e, x = String "." e ∧ dotless e = true ∧ s = b +:+ x.
Proof.
  induction s as [|c s IH]; intros b x H; [done|]. simpl in H.
  destruct (split_last_dot s) as [[b' e']|] eqn:Hs.
  - injection H as <- <-. destruct (IH b' e' eq_refl) as (e & -> & He & ->).
    by exists e.
  - destruct (Ascii.eqb c ".") eqn:Hc; [|done]. injection H as <- <-.
    apply Ascii.eqb_eq in Hc as ->. exists s. split; [done|]. split; [|done].
    clear IH. induction s as [|d s IH]; [done|]. simpl in Hs.
    destruct (split_last_dot s) as [[? ?]|]; [done|].
    destruct (Ascii.eqb d ".") eqn:Hd; [done|]. simpl. rewrite Hd. by rewrite IH.
Qed.

(** A proper extension is split off. *)
Lemma splitext_ext b e :
  all_dots b = false → dotless e = true →
  splitext (b +:+ String "." e) = (b, String "." e).
Proof.
  intros Hb He. unfold splitext. rewrite split_last_dot_ext by done. by rewrite Hb.
Qed.

(** Leading dots do not start an extension. *)
Lemma splitext_dots d r :
  all_dots d = true → dotless r = true → splitext (d +:+ r) = (d +:+ r, EmptyString).
Proof.
  intros Hd Hr. unfold splitext.
  destruct (split_last_dot (d +:+ r)) as [[b x]|] eqn:Hs; [|done].
  assert (all_dots b = true) as ->; [|done].
  revert b x Hs. induction d as [|c d IH]; intros b x Hs.
  - simpl in Hs. by rewrite split_last_dot_dotless in Hs.
  - simpl in Hd. apply andb_true_iff in Hd as [Hc Hd]. simpl in Hs.
    destruct (split_last_dot (d +:+ r)) as [[b' x']|] eqn:Hs'.
    + injection Hs as <- <-. simpl. rewrite Hc. by apply (IH Hd b' x').
    + rewrite Hc in Hs. by injection Hs as <- <-.
Qed.

(** The two parts of [splitext] make up the name. *)
Lemma splitext_join p : (splitext p).1 +:+ (splitext p).2 = p.
Proof.
  unfold splitext. destruct (split_last_dot p) as [[b x]|] eqn:Hs.
  - destruct (all_dots b); simpl.
    + by rewrite string_app_nil_r.
    + by destruct (split_last_dot_Some _ _ _ Hs) as (e & _ & _ & ->).
  - simpl. apply string_app_nil_r || by rewrite app_nil_r.
Qed.

(** *** [str.lower] *)

Lemma lower_kelvin s : lower (kelvin_sign +:+ s) = String "k" (lower s).
Proof. reflexivity. Qed.

Lemma lower_cons c s :
  kelvin_head (String c s) = false → lower (String c s) = String (ascii_lower c) (lower s).
Proof.
  intros H. destruct s as [|c2 [|c3 s3]]; [reflexivity..|].
  change (lower (String c (String c2 (String c3 s3))))
    with (if Ascii.eqb c "226" && Ascii.eqb c2 "132" && Ascii.eqb c3 "170"
          then String "k" (lower s3)
          else String (ascii_lower c) (lower (String c2 (String c3 s3)))).
  cbn [kelvin_head] in H. by rewrite H.
Qed.

Lemma kelvin_head_true s : kelvin_head s = true → ∃ s', s = kelvin_sign +:+ s'.
Proof.
  destruct s as [|c1 [|c2 [|c3 s3]]]; try done. cbn [kelvin_head].
  intros [[H1 H2]%andb_true_iff H3]%andb_true_iff.
  apply Ascii.eqb_eq in H1 as ->, H2 as ->, H3 as ->. by exists s3.
Qed.

Lemma kelvin_head_first c s :
  Ascii.eqb c "226" = false → kelvin_head (String c s) = false.
Proof. intros H. destruct s as [|c2 [|c3 s3]]; try done. cbn [kelvin_head]. by rewrite H. Qed.

Lemma kelvin_head_app c b e :
  kelvin_head (String c b) = true → kelvin_head (String c (b +:+ e)) = true.
Proof. by destruct b as [|c2 [|c3 b3]]. Qed.

(** The two cases of [lower] as an induction principle. *)
Lemma lower_ind (P : string → Prop) :
  P EmptyString →
  (∀ s, P s → P (kelvin_sign +:+ s)) →
  (∀ c s, kelvin_head (String c s) = false → P s → P (String c s)) →
  ∀ s, P s.
Proof.
  intros H0 Hk Hc s.
  assert (∀ n s, String.length s ≤ n → P s) as H; [|by apply (H (String.length s))].
  clear s. induction n as [|n IH]; intros s Hn.
  { destruct s; [done|simpl in Hn; lia]. }
  destruct s as [|c s]; [done|].
  destruct (kelvin_head (String c s)) eqn:E.
  - apply kelvin_head_true in E as [s' E]. rewrite E. apply Hk, IH.
    rewrite E in Hn.
    change (kelvin_sign +:+ s') with (String "226" (String "132" (String "170" s'))) in Hn.
    cbn [String.length] in Hn. lia.
  - apply Hc; [done|]. apply IH. simpl in Hn. lia.
Qed.

(** [str.lower] neither makes nor removes a dot, and lowering twice is
    lowering once. *)
Lemma ascii_lower_dot c : Ascii.eqb (ascii_lower c) "." = Ascii.eqb c ".".
Proof. by destruct c as [[] [] [] [] [] [] [] []]. Qed.

Lemma ascii_lower_idemp c : ascii_lower (ascii_lower c) = ascii_lower c.
Proof. by destruct c as [[] [] [] [] [] [] [] []]. Qed.

(** A byte outside ASCII at the head of a lowered string was there
    before. *)
Lemma ascii_lower_high c d :
  ascii_lower c = d → (128 ≤ nat_of_ascii d)%nat → c = d.
Proof.
  intros <-. destruct c as [[] [] [] [] [] [] [] []]; intros H;
    first [reflexivity | exfalso; cbv in H; lia].
Qed.

Lemma lower_head_high s d r :
  lower s = String d r → (128 ≤ nat_of_ascii d)%nat →
  ∃ s', s = String d s' ∧ (kelvin_head s = false → r = lower s').
Proof.
  intros Hs Hd. destruct s as [|c s]; [done|].
  destruct (kelvin_head (String c s)) eqn:E.
  - apply kelvin_head_true in E as [s' E]. rewrite E, lower_kelvin in Hs.
    injection Hs as <- _. vm_compute in Hd. lia.
  - rewrite lower_cons in Hs by done. injection Hs as Hc <-.
    apply ascii_lower_high in Hc as ->; [|done]. by exists s.
Qed.

Lemma lower_keeps_head c s :
  kelvin_head (String c s) = false →
  kelvin_head (String (ascii_lower c) (lower s)) = false.
Proof.
  intros E. destruct (kelvin_head (String (ascii_lower c) (lower s))) eqn:E'; [|done].
  apply kelvin_head_true in E' as [r E']. injection E' as Hc Hs.
  apply ascii_lower_high in Hc as ->; [|vm_compute; lia].
  destruct (lower_head_high _ _ _ Hs) as (s1 & -> & Hr1); [vm_compute; lia|].
  specialize (Hr1 (kelvin_head_first "132" s1 eq_refl)). symmetry in Hr1.
  destruct (lower_head_high _ _ _ Hr1) as (s2 & -> & _); [vm_compute; lia|].
  done.
Qed.

Lemma lower_idemp s : lower (lower s) = lower s.
Proof.
  induction s as [|s IH|c s E IH] using lower_ind; [done|..].
  - rewrite lower_kelvin. rewrite lower_cons by (by apply kelvin_head_first).
    by rewrite IH.
  - rewrite lower_cons by done. rewrite lower_cons by (by apply lower_keeps_head).
    by rewrite ascii_lower_idemp, IH.
Qed.

Lemma dotless_lower s : dotless (lower s) = dotless s.
Proof.
  induction s as [|s IH|c s E IH] using lower_ind; [done|..].
  - rewrite lower_kelvin. simpl. by rewrite IH.
  - rewrite lower_cons by done. simpl. by rewrite ascii_lower_dot, IH.
Qed.

Lemma all_dots_lower s : all_dots (lower s) = all_dots s.
Proof.
  induction s as [|s IH|c s E IH] using lower_ind; [done|..].
  - by rewrite lower_kelvin.
  - rewrite lower_cons by done. simpl. by rewrite ascii_lower_dot, IH.
Qed.

Lemma split_last_dot_join s b x : split_last_dot s = Some (b, x) → s = b +:+ x.
Proof.
  intros H. by destruct (split_last_dot_Some _ _ _ H) as (e & _ & _ & ->).
Qed.

Lemma split_last_dot_lower s :
  split_last_dot (lower s) = prod_map lower lower <$> split_last_dot s.
Proof.
  induction s as [|s IH|c s E IH] using lower_ind; [done|..].
  - rewrite lower_kelvin.
    assert (split_last_dot (String "k" (lower s))
            = prod_map (String "k") id <$> split_last_dot (lower s)) as ->.
    { simpl. by destruct (split_last_dot (lower s)) as [[b e]|]. }
    assert (split_last_dot (kelvin_sign +:+ s)
            = prod_map (λ b, kelvin_sign +:+ b) id <$> split_last_dot s) as ->.
    { change (kelvin_sign +:+ s) with (String "226" (String "132" (String "170" s))).
      simpl. by destruct (split_last_dot s) as [[b e]|]. }
    rewrite IH. by destruct (split_last_dot s) as [[b e]|].
  - rewrite lower_cons by done.
    change (split_last_dot (String (ascii_lower c) (lower s)))
      with (match split_last_dot (lower s) with
            | Some (b, e) => Some (String (ascii_lower c) b, e)
            | None => if Ascii.eqb (ascii_lower c) "."
                      then Some (EmptyString, String (ascii_lower c) (lower s))
                      else None
            end).
    change (split_last_dot (String c s))
      with (match split_last_dot s with
            | Some (b, e) => Some (String c b, e)
            | None => if Ascii.eqb c "." then Some (EmptyString, String c s) else None
            end).
    rewrite IH, ascii_lower_dot.
    destruct (split_last_dot s) as [[b e]|] eqn:Hs;
      cbn [fmap option_fmap option_map prod_map fst snd].
    + rewrite (lower_cons c b); [done|].
      destruct (kelvin_head (String c b)) eqn:E'; [|done].
      apply (kelvin_head_app c b e) in E'.
      by rewrite <- (split_last_dot_join _ _ _ Hs), E in E'.
    + destruct (Ascii.eqb c "."); [|done].
      cbn [fmap option_fmap option_map prod_map fst snd].
      by rewrite lower_cons.
Qed.

Lemma splitext_lower s :
  splitext (lower s) = (lower (splitext s).1, lower (splitext s).2).
Proof.
  unfold splitext. rewrite split_last_dot_lower.
  destruct (split_last_dot s) as [[b e]|]; [|done]. simpl.
  rewrite all_dots_lower. by destruct (all_dots b).
Qed.

(** A lowered string that starts with a dot did so before. *)
Lemma lower_dot s e :
  lower s = String "." e → ∃ s', s = String "." s' ∧ lower s' = e.
Proof.
  intros Hs. destruct s as [|c s]; [done|].
  destruct (kelvin_head (String c s)) eqn:E.
  - apply kelvin_head_true in E as [s' E]. by rewrite E, lower_kelvin in Hs.
  - rewrite lower_cons in Hs by done. injection Hs as Hc <-. exists s. split; [|done].
    f_equal. apply Ascii.eqb_eq. by rewrite <- ascii_lower_dot, Hc.
Qed.

(** Decimal numerals have no dot. *)
Lemma dotless_pretty_N_go x : ∀ s, dotless s = true → dotless (pretty_N_go x s) = true.
Proof.
  induction (N.lt_wf_0 x) as [x _ IH]; intros s Hs.
  destruct (decide (x = 0)%N) as [->|Hx]; [by rewrite pretty_N_go_0|].
  rewrite pretty_N_go_step by lia. apply IH; [apply N.div_lt; lia|].
  simpl. rewrite Hs, andb_true_r. unfold pretty_N_char. by repeat case_match.
Qed.

Lemma dotless_pretty (n : nat) : dotless (pretty n) = true.
Proof.
  unfold pretty, pretty_nat, pretty, pretty_N. case_decide; [done|].
  by apply dotless_pretty_N_go.
Qed.

(** What [splitext] returns: the extension is empty, or a dot followed by a
    string without dots after a base that is not made of dots only. *)
Lemma splitext_cases p :
  ((splitext p).2 = EmptyString ∧ (splitext p).1 = p
   ∧ ∃ d r, p = d +:+ r ∧ all_dots d = true ∧ dotless r = true)
  ∨ (∃ e, (splitext p).2 = String "." e ∧ dotless e = true
          ∧ all_dots (splitext p).1 = false).
Proof.
  unfold splitext. destruct (split_last_dot p) as [[b x]|] eqn:Hs.
  - destruct (split_last_dot_Some _ _ _ Hs) as (e & -> & He & ->).
    destruct (all_dots b) eqn:Hb.
    + left. split; [done|]. split; [done|]. exists (b +:+ "."), e.
      split; [by rewrite string_app_assoc|]. split; [|done].
      by rewrite all_dots_app, Hb.
    + right. by exists e.
  - left. split; [done|]. split; [done|]. exists EmptyString, p.
    split; [done|]. split; [done|].
    induction p as [|c p IH]; [done|]. simpl in Hs.
    destruct (split_last_dot p) as [[? ?]|]; [done|].
    destruct (Ascii.eqb c ".") eqn:Hc; [done|]. simpl. rewrite Hc. by rewrite IH.
Qed.

(** The numbered names of lines 89-92 have the extension of the name they
    come from. *)
Lemma splitext_candidate filename k :
  (splitext (candidate filename k)).2 = (splitext filename).2.
Proof.
  destruct k as [|k]; [done|]. unfold candidate, numbered.
  set (num := "_" +:+ pretty (S k)).
  assert (dotless num = true) as Hnum.
  { unfold num. rewrite dotless_app, dotless_pretty. done. }
  assert (all_dots num = false) as Hnd by done.
  change ((splitext ((splitext filename).1 +:+ num +:+ (splitext filename).2)).2
          = (splitext filename).2).
  destruct (splitext_cases filename) as [(-> & -> & d & r & -> & Hd & Hr)|(e & -> & He & Hb)].
  - rewrite string_app_nil_r, string_app_assoc.
    rewrite splitext_dots; [done|done|]. by rewrite dotless_app, Hr, Hnum.
  - rewrite <- string_app_assoc. rewrite splitext_ext; [done| |done].
    rewrite all_dots_app, Hnd. apply andb_false_r.
Qed.

(** The extension lists hold lower-case extensions of the form [.xyz], and
    no extension is listed under two categories. *)
Lemma listed_extension cat exts x :
  (cat, exts) ∈ FILE_CATEGORIES → x ∈ exts →
  first_category x FILE_CATEGORIES "Others" = cat
  ∧ ∃ e, x = String "." e ∧ dotless e = true.
Proof.
  intros Hcat Hx. unfold FILE_CATEGORIES in Hcat.
  repeat (apply elem_of_cons in Hcat as [[= -> ->]|Hcat]);
    [..|by apply elem_of_nil in Hcat].
  all: repeat (apply elem_of_cons in Hx as [->|Hx]); [..|by apply elem_of_nil in Hx].
  all: split; [by vm_compute | eexists; split; [reflexivity | by vm_compute]].
Qed.

Lemma first_category_listed x table default :
  first_category x table default ∈ table.*1 ∨ first_category x table default = default.
Proof.
  induction table as [|[cat exts] table IH]; [by right|]. simpl.
  case_bool_decide; [left; apply list_elem_of_here|].
  destruct IH as [IH|IH]; [left; by apply list_elem_of_further | by right].
Qed.

End ClassifyFacts.

Module BatchFacts.
Import FS FSFacts NameFacts OSFacts OrganizerFacts LoopFacts TreeFacts CountFacts RerunFacts.
Import Notions.

Lemma spares_refl src n : spares src n n.
Proof. done. Qed.

Lemma spares_trans src n1 n2 n3 : spares src n1 n2 → spares src n2 n3 → spares src n1 n3.
Proof.
  intros (Ha & Hb & Hc) (Ha' & Hb' & Hc'). split; [|split].
  - intros q Hq. by rewrite Ha', Ha.
  - intros c x r f Hf. by apply Hb', Hb.
  - intros q Hq. by apply Hc', Hc.
Qed.

Section Batch.
Variable md5 : list byte → string.
Variable src : path.
Variable dd : bool.

Lemma loop_skips l : ∀ t w,
  (∀ name f, name ∈ l → stat (src ++ [name]) (fs w) ≠ IsFile f) →
  for_each (organize_entry md5 src dd) l t w = (Return t, w).
Proof.
  induction l as [|name l IH]; intros t w Hl; [done|].
  rewrite for_each_cons, organize_entry_skip.
  - apply IH. intros m f Hm. apply Hl. by apply list_elem_of_further.
  - intros f. apply Hl. apply list_elem_of_here.
Qed.

Lemma outside_ne (q x : path) : ¬ src `prefix_of` q → q ≠ src ++ x.
Proof. intros H ->. apply H. by exists x. Qed.

Lemma relocate_spares t name w lg f :
  stat (src ++ [name]) (fs w) = IsFile f → stat src (fs w) = IsDir →
  (∀ g, stat (src ++ [category_of name]) (fs w) ≠ IsFile g) →
  spares src (fs w)
    (fs (relocate src (category_of name) name t
           (World (after_makedirs src (category_of name) (fs w)) lg)).2).
Proof.
  intros Hf Hsrc Hcat.
  destruct (relocate_on_made src name t w lg f Hf Hsrc Hcat)
    as (k & w1 & t2 & -> & Hfree & _ & _ & _ & Hstat). cbn [snd].
  split; [|split].
  - intros q Hq. rewrite Hstat.
    rewrite decide_False by (by apply outside_ne).
    rewrite decide_False by (intros [_ E]; exact (outside_ne _ _ Hq E)).
    by rewrite decide_False by (by apply outside_ne).
  - intros c x r g Hg. rewrite Hstat.
    rewrite decide_False by (intros E; rewrite E, Hfree in Hg; done).
    rewrite decide_False by (intros [_ E]; by apply app_inv_head in E).
    by rewrite decide_False by (intros E; by apply app_inv_head in E).
  - intros q Hq. rewrite Hstat.
    rewrite decide_False by (intros E; rewrite E, Hfree in Hq; done).
    rewrite decide_False by (intros [_ E]; rewrite E, Hf in Hq; done).
    by destruct (decide (q = src ++ [category_of name])).
Qed.

Lemma makedirs_spares name w f :
  stat (src ++ [name]) (fs w) = IsFile f → stat src (fs w) = IsDir →
  (∀ g, stat (src ++ [category_of name]) (fs w) ≠ IsFile g) →
  spares src (fs w) (after_makedirs src (category_of name) (fs w)).
Proof.
  intros Hf Hsrc Hcat. split; [|split].
  - intros q Hq. rewrite stat_after_makedirs by done.
    by rewrite decide_False by (by apply outside_ne).
  - intros c x r g Hg. rewrite stat_after_makedirs by done.
    by rewrite decide_False by (intros E; by apply app_inv_head in E).
  - intros q Hq. rewrite stat_after_makedirs by done.
    by destruct (decide (q = src ++ [category_of name])).
Qed.

Lemma remove_spares name n f :
  stat (src ++ [name]) n = IsFile f → spares src n (put (src ++ [name]) None n).
Proof.
  intros Hf. assert (src ++ [name] ≠ []) as Hne by (by destruct src).
  split; [|split].
  - intros q Hq. rewrite (stat_remove_file _ f) by done.
    by rewrite decide_False by (by apply outside_ne).
  - intros c x r g Hg. rewrite (stat_remove_file _ f) by done.
    by rewrite decide_False by (intros E; by apply app_inv_head in E).
  - intros q Hq. rewrite (stat_remove_file _ f) by done.
    by rewrite decide_False by (intros E; rewrite E, Hf in Hq; done).
Qed.

(** One round of the loop, however it ends. *)
Lemma entry_spares t name w :
  spares src (fs w) (fs (organize_entry md5 src dd t name w).2).
Proof.
  destruct (stat (src ++ [name]) (fs w)) as [| |f] eqn:Hf.
  1,2: rewrite organize_entry_skip by (by rewrite Hf); apply spares_refl.
  assert (stat src (fs w) = IsDir) as Hsrc.
  { rewrite <- (parent_snoc src name). apply stat_parent_IsDir; [by destruct src|].
    by rewrite Hf. }
  destruct (stat (src ++ [category_of name]) (fs w)) as [| |g0] eqn:Hc;
    [| |rewrite (organize_entry_blocked _ _ _ _ _ _ f g0) by done; apply spares_refl].
  all: assert (∀ g, stat (src ++ [category_of name]) (fs w) ≠ IsFile g) as Hcat
         by (by rewrite Hc).
  all: destruct (organize_entry_index md5 src dd t name w f Hf Hsrc Hcat)
         as [(t1 & lg & -> & _)|(_ & _ & h & _ & _ & ->)];
       [by apply (relocate_spares _ name w _ f)|].
  all: cbn zeta; destruct (locked f); cbn [snd fs];
       [by apply (makedirs_spares name w f)|].
  all: eapply spares_trans; [by apply (makedirs_spares name w f)|].
  all: apply (remove_spares name _ f); by apply stat_made_file.
Qed.

Lemma loop_spares l : ∀ t w,
  spares src (fs w) (fs (for_each (organize_entry md5 src dd) l t w).2).
Proof.
  induction l as [|name l IH]; intros t w; [apply spares_refl|].
  rewrite for_each_cons. pose proof (entry_spares t name w) as Hstep.
  destruct (organize_entry md5 src dd t name w) as [[t1| |] w1]; [|done|done].
  eapply spares_trans; [exact Hstep|]. apply IH.
Qed.

(** *** Nothing is lost but duplicates *)

Lemma sum_list_ones (fl : list file) : sum_list_with (λ _, 1) fl = length fl.
Proof.
  induction fl as [|f fl IH]; [done|].
  cbn [sum_list_with length]. by rewrite IH.
Qed.

Lemma made_weigh μ cat n :
  wf n → stat src n = IsDir →
  wf (after_makedirs src cat n) ∧ weigh μ (after_makedirs src cat n) = weigh μ n.
Proof.
  intros Hwf Hsrc. unfold after_makedirs.
  destruct (stat (src ++ [cat]) n) eqn:Hc; [|done|done].
  split; [apply wf_put; [done|]; split; [apply NoDup_nil_2|done]|].
  pose proof (weigh_put μ (src ++ [cat]) (Some (Dir [])) n) as H.
  rewrite parent_snoc in H. specialize (H ltac:(by destruct src) Hwf Hsrc).
  apply stat_Absent in Hc. rewrite Hc in H.
  unfold weigh_opt in H. cbn [from_option] in H.
  change (weigh μ (Dir [])) with 0 in H. lia.
Qed.

Lemma move_weigh μ s d f n :
  wf n → stat s n = IsFile f → stat d n = Absent → stat (parent d) n = IsDir →
  d ≠ [] → s ≠ [] →
  weigh μ (put d (Some (File f)) (put s None n)) = weigh μ n.
Proof.
  intros Hwf Hs Hd Hpar Hdne Hsne.
  pose proof (weigh_remove_file μ s f n Hwf Hs Hsne) as H1.
  assert (∀ q, stat q (put s None n) = if decide (q = s) then Absent else stat q n) as Hrm
    by (intros q; by apply (stat_remove_file _ f)).
  pose proof (weigh_put μ d (Some (File f)) (put s None n) Hdne) as H2.
  assert (wf (put s None n)) as Hwf' by (by apply wf_put).
  assert (stat (parent d) (put s None n) = IsDir) as Hpar'.
  { rewrite Hrm. rewrite decide_False; [done|]. intros E. by rewrite E, Hs in Hpar. }
  specialize (H2 Hwf' Hpar').
  assert (lookup d (put s None n) = None) as Hnone.
  { apply stat_Absent. rewrite Hrm. by case_decide. }
  rewrite Hnone in H2. unfold weigh_opt in H2. cbn [from_option] in H2.
  change (weigh μ (File f)) with (μ f) in H2. lia.
Qed.

Lemma copy_weigh μ d g n :
  wf n → stat d n = Absent → stat (parent d) n = IsDir → d ≠ [] →
  weigh μ (put d (Some (File g)) n) = weigh μ n + μ g.
Proof.
  intros Hwf Hd Hpar Hdne.
  pose proof (weigh_put μ d (Some (File g)) n Hdne Hwf Hpar) as H.
  apply stat_Absent in Hd. rewrite Hd in H.
  unfold weigh_opt in H. cbn [from_option] in H.
  change (weigh μ (File g)) with (μ g) in H. lia.
Qed.

(** One round of the loop, however it ends: the files in [lost] are gone,
    those in [gained] are new (the copy that a failed move leaves behind);
    nothing else has changed in number or size. *)
Lemma entry_weigh t name w :
  wf (fs w) →
  ∃ lost gained : list file,
    (∀ μ, weigh μ (fs (organize_entry md5 src dd t name w).2) + sum_list_with μ lost
          = weigh μ (fs w) + sum_list_with μ gained)
    ∧ (dd = false → lost = [])
    ∧ (∀ t', (organize_entry md5 src dd t name w).1 = Return t' →
             duplicate_count t' = duplicate_count t + length lost).
Proof.
  intros Hwf.
  destruct (stat (src ++ [name]) (fs w)) as [| |f] eqn:Hf.
  1,2: rewrite organize_entry_skip by (by rewrite Hf); exists [], [];
       (split; [intros μ; simpl; lia|]); (split; [done|]);
       intros t' [= <-]; simpl; lia.
  assert (stat src (fs w) = IsDir) as Hsrc.
  { rewrite <- (parent_snoc src name). apply stat_parent_IsDir; [by destruct src|].
    by rewrite Hf. }
  destruct (stat (src ++ [category_of name]) (fs w)) as [| |g0] eqn:Hc;
    [| |rewrite (organize_entry_blocked _ _ _ _ _ _ f g0) by done; exists [], [];
        (split; [intros μ; simpl; lia|]); by split].
  all: assert (∀ g, stat (src ++ [category_of name]) (fs w) ≠ IsFile g) as Hcat
         by (by rewrite Hc).
  all: pose proof (stat_made_file _ _ _ _ Hf Hsrc Hcat) as Hf'.
  all: assert (stat (src ++ [category_of name])
                 (after_makedirs src (category_of name) (fs w)) = IsDir) as Hc'
         by (rewrite stat_after_makedirs_rel by done; by rewrite decide_True).
  all: assert (src ++ [name] ≠ []) as Hne by (by destruct src).
  all: assert (∀ k, stat (parent (src ++ [category_of name; candidate name k]))
                      (after_makedirs src (category_of name) (fs w)) = IsDir) as Hpar
         by (intros k; change (src ++ [category_of name; candidate name k])
               with (src ++ [category_of name] ++ [candidate name k]);
             by rewrite app_assoc, parent_snoc).
  all: destruct (organize_entry_index md5 src dd t name w f Hf Hsrc Hcat)
         as [(t1 & lg & -> & _ & Hd1 & _)|(Hdd & _ & h & _ & _ & ->)].
  1,3: destruct (relocate_spec src (category_of name) name t1
                   (World (after_makedirs src (category_of name) (fs w)) lg) f Hf' Hc')
         as (k & Hfree & _ & ->);
       exists [], (if locked f then (if readable f then [OS.copy_of f] else []) else []);
       cbn [fs] in Hfree;
       (split; [|split; [done|]]);
       [intros μ; destruct (made_weigh μ (category_of name) (fs w) Hwf Hsrc) as [Hwf' Hw];
        destruct (locked f); cbn [snd fs];
        [destruct (readable f);
         [rewrite copy_weigh by (done || by destruct src)|]
        |rewrite move_weigh by (done || by destruct src)];
        cbn [sum_list_with]; lia
       |intros t'; destruct (locked f); intros [= <-]; simpl; lia].
  all: exists (if locked f then [] else [f]), []; cbn zeta; destruct (locked f);
       cbn [fst snd fs]; (split; [|split; [by rewrite Hdd|]]).
  1,3,5,7: intros μ; destruct (made_weigh μ (category_of name) (fs w) Hwf Hsrc) as [Hwf' Hw].
  1,3: simpl; lia.
  1,2: pose proof (weigh_remove_file μ _ f _ Hwf' Hf' Hne); simpl; lia.
  all: intros t'; try done; intros [= <-]; simpl; lia.
Qed.

Lemma loop_weigh l : ∀ t w,
  wf (fs w) →
  ∃ lost gained : list file,
    (∀ μ, weigh μ (fs (for_each (organize_entry md5 src dd) l t w).2)
          + sum_list_with μ lost = weigh μ (fs w) + sum_list_with μ gained)
    ∧ (dd = false → lost = [])
    ∧ (∀ t', (for_each (organize_entry md5 src dd) l t w).1 = Return t' →
             duplicate_count t' = duplicate_count t + length lost).
Proof.
  induction l as [|name l IH]; intros t w Hwf.
  { exists [], []. split; [intros μ; simpl; lia|]. split; [done|].
    intros t' [= <-]. simpl. lia. }
  rewrite for_each_cons.
  destruct (entry_weigh t name w Hwf) as (lost1 & gained1 & Hw1 & Hoff1 & Hd1).
  destruct (organize_entry md5 src dd t name w) as [[t1| |] w1] eqn:Hstep.
  2,3: exists lost1, gained1; split; [exact Hw1|]; split; [exact Hoff1|]; done.
  destruct (IH t1 w1 (entry_wf _ _ _ _ _ _ _ _ Hwf Hstep))
    as (lost2 & gained2 & Hw2 & Hoff2 & Hd2).
  exists (lost1 ++ lost2), (gained1 ++ gained2). split; [|split].
  - intros μ. rewrite !sum_list_with_app.
    specialize (Hw1 μ). specialize (Hw2 μ). cbn [snd] in Hw1. lia.
  - intros Hdd. by rewrite Hoff1, Hoff2.
  - intros t' Ht'. rewrite length_app. rewrite (Hd2 t' Ht'), (Hd1 t1 eq_refl). lia.
Qed.

(** *** Every file of the listing is accounted for *)

Lemma files_in_ext n n' names :
  (∀ x, x ∈ names → isfile (src ++ [x]) n' = isfile (src ++ [x]) n) →
  files_in src n' names = files_in src n names.
Proof.
  unfold files_in. induction names as [|x names IH]; intros H; [done|].
  rewrite !filter_cons, (H x) by apply list_elem_of_here.
  rewrite IH by (intros y Hy; by apply H, list_elem_of_further). done.
Qed.

Lemma files_in_cons n name l :
  length (files_in src n (name :: l)) = length (files_in src n [name]) + length (files_in src n l).
Proof.
  unfold files_in. change (name :: l) with ([name] ++ l).
  by rewrite filter_app, length_app.
Qed.

(** A completed round of the loop changes what is a regular file in the
    directory at most under its own name, and counts what it takes away. *)
Lemma entry_accounts t name w t' w' :
  organize_entry md5 src dd t name w = (Return t', w') →
  (∀ x, x ≠ name → isfile (src ++ [x]) (fs w') = isfile (src ++ [x]) (fs w))
  ∧ moved_count t' + duplicate_count t' + length (files_in src (fs w') [name])
    = moved_count t + duplicate_count t + length (files_in src (fs w) [name]).
Proof.
  intros Hrun.
  assert (∀ n, length (files_in src n [name])
               = if isfile (src ++ [name]) n then 1 else 0) as Hlen.
  { intros n. unfold files_in. rewrite filter_cons, filter_nil.
    destruct (isfile (src ++ [name]) n); by case_decide. }
  rewrite !Hlen. unfold isfile.
  destruct (stat (src ++ [name]) (fs w)) as [| |f] eqn:Hf.
  1,2: rewrite organize_entry_skip in Hrun by (by rewrite Hf);
       injection Hrun as <- <-; by rewrite Hf.
  assert (stat src (fs w) = IsDir) as Hsrc.
  { rewrite <- (parent_snoc src name). apply stat_parent_IsDir; [by destruct src|].
    by rewrite Hf. }
  destruct (stat (src ++ [category_of name]) (fs w)) as [| |g0] eqn:Hc;
    [| |by rewrite (organize_entry_blocked _ _ _ _ _ _ f g0) in Hrun].
  all: assert (∀ g, stat (src ++ [category_of name]) (fs w) ≠ IsFile g) as Hcat
         by (by rewrite Hc).
  all: assert (name ≠ category_of name) as Hnc by (intros E; by rewrite <- E, Hf in Hc).
  all: destruct (organize_entry_index md5 src dd t name w f Hf Hsrc Hcat)
         as [(t1 & lg & Heq & Hm1 & Hd1 & _)|(_ & _ & h & _ & _ & Heq)].
  all: rewrite Heq in Hrun; clear Heq.
  1,3: destruct (relocate_on_made_rel src name t1 w lg f Hf Hsrc Hcat)
         as (k & w1 & t2 & Hreloc & _ & _ & Ht2 & _ & Hstat);
       rewrite Hreloc in Hrun; injection Hrun as <- <-; split;
       [intros x Hx; rewrite Hstat;
        rewrite decide_False by done;
        rewrite decide_False by (intros [_ [= ?]]; done);
        destruct (decide ([x] = [category_of name])) as [[= ->]|]; [|done];
        by destruct (stat (src ++ [category_of name]) (fs w)) eqn:E;
          [| |destruct (Hcat f0)]
       |rewrite Hstat;
        rewrite decide_False by done;
        subst t2; destruct (locked f);
        [rewrite decide_False by (by intros [? _]);
         rewrite decide_False by (intros [= ?]; done); rewrite Hf; lia
        |rewrite decide_True by done; cbn [moved_count duplicate_count]; lia]].
  all: cbn zeta in Hrun; destruct (locked f); [done|]; injection Hrun as <- <-; cbn [fs].
  all: pose proof (stat_made_file _ _ _ _ Hf Hsrc Hcat) as Hf'.
  all: split;
       [intros x Hx; rewrite (stat_remove_rel _ _ f) by done;
        rewrite decide_False by (intros [= ?]; done);
        rewrite stat_after_makedirs_rel by done;
        destruct (decide ([x] = [category_of name])) as [[= ->]|]; [|done];
        by destruct (stat (src ++ [category_of name]) (fs w)) eqn:E;
          [| |destruct (Hcat f0)]
       |rewrite (stat_remove_rel _ _ f) by done; rewrite decide_True by done;
        cbn [moved_count duplicate_count]; lia].
Qed.

Lemma loop_accounts l : ∀ t w t' w',
  NoDup l →
  for_each (organize_entry md5 src dd) l t w = (Return t', w') →
  (∀ x, x ∉ l → isfile (src ++ [x]) (fs w') = isfile (src ++ [x]) (fs w))
  ∧ moved_count t' + duplicate_count t' + length (files_in src (fs w') l)
    = moved_count t + duplicate_count t + length (files_in src (fs w) l).
Proof.
  induction l as [|name l IH]; intros t w t' w' Hnd Hrun.
  { by injection Hrun as <- <-. }
  apply NoDup_cons in Hnd as [Hname Hnd]. rewrite for_each_cons in Hrun.
  destruct (organize_entry md5 src dd t name w) as [[t1| |] w1] eqn:Hstep; [|done|done].
  destruct (entry_accounts _ _ _ _ _ Hstep) as [Hoth1 Hacc1].
  destruct (IH _ _ _ _ Hnd Hrun) as [Hoth Hacc].
  split.
  - intros x Hx. apply not_elem_of_cons in Hx as [Hx1 Hx2].
    by rewrite Hoth, Hoth1.
  - rewrite (files_in_cons (fs w') name l), (files_in_cons (fs w) name l).
    assert (files_in src (fs w') [name] = files_in src (fs w1) [name]) as ->.
    { apply files_in_ext. intros x [->|Hx%elem_of_nil]%elem_of_cons; [|done].
      by apply Hoth. }
    assert (files_in src (fs w1) l = files_in src (fs w) l) as E.
    { apply files_in_ext. intros x Hx. apply Hoth1. intros ->. done. }
    rewrite E in Hacc. lia.
Qed.

(** *** Nothing is deleted that has no twin *)

Lemma truthy_Some a h : truthy (Some a) = Some h → a = h.
Proof. unfold truthy. case_decide; [done|]. by intros [= ->]. Qed.

(** A stretch of the listing none of whose files has a twin in the
    directory: nothing is deleted, and the index holds digests of files met
    earlier or in the stretch. *)
Lemma loop_apart n0 l : ∀ (seen : list string) t w t' w',
  (∀ x m f g, x ∈ l → m ≠ x →
     stat (src ++ [x]) n0 = IsFile f → stat (src ++ [m]) n0 = IsFile g →
     readable f = true → readable g = true → md5 (data g) ≠ md5 (data f)) →
  NoDup l → (∀ x, x ∈ l → x ∉ seen) →
  stat src (fs w) = IsDir →
  (∀ m g, stat (src ++ [m]) (fs w) = IsFile g → stat (src ++ [m]) n0 = IsFile g) →
  (∀ h, is_Some (file_hashes t !! h) →
        ∃ m g, m ∈ seen ∧ stat (src ++ [m]) n0 = IsFile g
               ∧ readable g = true ∧ truthy (Some (md5 (data g))) = Some h) →
  for_each (organize_entry md5 src dd) l t w = (Return t', w') →
  duplicate_count t' = duplicate_count t
  ∧ ∀ h, is_Some (file_hashes t' !! h) →
         ∃ m g, (m ∈ seen ∨ m ∈ l) ∧ stat (src ++ [m]) n0 = IsFile g
                ∧ readable g = true ∧ truthy (Some (md5 (data g))) = Some h.
Proof.
  induction l as [|name l IH]; intros seen t w t' w' Htw Hnd Hfresh Hsrc Hold Hidx Hrun.
  { injection Hrun as <- <-. split; [done|]. intros h Hh.
    destruct (Hidx h Hh) as (m & g & ? & ?). exists m, g. auto. }
  apply NoDup_cons in Hnd as [Hname Hnd]. rewrite for_each_cons in Hrun.
  destruct (organize_entry md5 src dd t name w) as [[t1| |] w1] eqn:Hstep; [|done|done].
  destruct (entry_settles md5 src dd _ _ _ _ _ Hsrc Hstep) as (Hsrc1 & Hfiles1 & _).
  assert (duplicate_count t1 = duplicate_count t
          ∧ ∀ h, is_Some (file_hashes t1 !! h) →
                 ∃ m g, m ∈ name :: seen ∧ stat (src ++ [m]) n0 = IsFile g
                        ∧ readable g = true ∧ truthy (Some (md5 (data g))) = Some h)
    as [Hd1 Hidx1].
  { destruct (stat (src ++ [name]) (fs w)) as [| |f] eqn:Hf.
    1,2: rewrite organize_entry_skip in Hstep by (by rewrite Hf);
         injection Hstep as <- <-; (split; [done|]); intros h Hh;
         destruct (Hidx h Hh) as (m & g & ? & ?); exists m, g;
         split; [by apply list_elem_of_further | done].
    destruct (stat (src ++ [category_of name]) (fs w)) as [| |g0] eqn:Hc;
      [| |by rewrite (organize_entry_blocked _ _ _ _ _ _ f g0) in Hstep].
    all: assert (∀ g, stat (src ++ [category_of name]) (fs w) ≠ IsFile g) as Hcat
           by (by rewrite Hc).
    all: destruct (organize_entry_index md5 src dd t name w f Hf Hsrc Hcat)
           as [(t2 & lg & Heq & _ & Hd2 & _ & _ & Hfrom)
              |(_ & Hr & h & Hh & Hdup & _)].
    1,3: rewrite Heq in Hstep;
         destruct (relocate_on_made_rel src name t2 w lg f Hf Hsrc Hcat)
           as (k & w2 & t3 & Hreloc & _ & _ & Ht3 & _);
         rewrite Hreloc in Hstep; injection Hstep as <- <-;
         assert (file_hashes t3 = file_hashes t2 ∧ duplicate_count t3 = duplicate_count t2)
           as [Hi3 Hd3] by (subst t3; by destruct (locked f));
         (split; [congruence|]); intros h Hh; rewrite Hi3 in Hh;
         destruct (Hfrom h Hh) as [Hin|(_ & Hr & Hhash)];
         [destruct (Hidx h Hin) as (m & g & ? & ?); exists m, g;
          split; [by apply list_elem_of_further | done]
         |exists name, f; split; [apply list_elem_of_here|]; split; [by apply Hold|done]].
    all: destruct (Hidx h Hdup) as (m & g & Hm & Hg & Hrg & Hhg).
    all: destruct (Htw name m f g); [apply list_elem_of_here| |by apply Hold|done|done|done|].
    1,3: intros ->; apply (Hfresh name); [apply list_elem_of_here|done].
    all: apply truthy_Some in Hh, Hhg; congruence. }
  rewrite <- Hd1.
  destruct (IH (name :: seen) t1 w1 t' w') as [Hd' Hidx']; try done.
  - intros x m f g Hx. apply Htw. by apply list_elem_of_further.
  - intros x Hx [->|Hs]%elem_of_cons; [done|].
    apply (Hfresh x); [by apply list_elem_of_further | done].
  - intros m g Hg. by apply Hold, Hfiles1.
  - split; [done|]. intros h Hh. destruct (Hidx' h Hh) as (m & g & Hm & ?).
    exists m, g. split; [|done]. rewrite !elem_of_cons in *. tauto.
Qed.

Lemma loop_twinless n0 l (seen : list string) t w t' w' :
  twinless md5 src n0 → NoDup l → (∀ x, x ∈ l → x ∉ seen) →
  stat src (fs w) = IsDir →
  (∀ m g, stat (src ++ [m]) (fs w) = IsFile g → stat (src ++ [m]) n0 = IsFile g) →
  (∀ h, is_Some (file_hashes t !! h) →
        ∃ m g, m ∈ seen ∧ stat (src ++ [m]) n0 = IsFile g
               ∧ readable g = true ∧ truthy (Some (md5 (data g))) = Some h) →
  for_each (organize_entry md5 src dd) l t w = (Return t', w') →
  duplicate_count t' = duplicate_count t.
Proof.
  intros Htw Hnd Hfresh Hsrc Hold Hidx Hrun.
  apply (loop_apart n0 l seen t w t' w'); try done.
  intros x m f g _ Hne Hf Hg Hrf Hrg. by apply (Htw m x g f).
Qed.

(** *** What a run writes *)






(** *** Without duplicate deletion every file is kept *)

Lemma entry_keeps t name w q f :
  dd = false → stat q (fs w) = IsFile f →
  stat q (fs (organize_entry md5 src dd t name w).2) = IsFile f
  ∨ (q = src ++ [name]
     ∧ ∃ k, stat (src ++ [category_of name; candidate name k])
              (fs (organize_entry md5 src dd t name w).2) = IsFile f).
Proof.
  intros -> Hq.
  destruct (stat (src ++ [name]) (fs w)) as [| |f0] eqn:Hf.
  1,2: rewrite organize_entry_skip by (by rewrite Hf); by left.
  assert (stat src (fs w) = IsDir) as Hsrc.
  { rewrite <- (parent_snoc src name). apply stat_parent_IsDir; [by destruct src|].
    by rewrite Hf. }
  destruct (stat (src ++ [category_of name]) (fs w)) as [| |g0] eqn:Hc;
    [| |rewrite (organize_entry_blocked _ _ _ _ _ _ f0 g0) by done; by left].
  all: assert (∀ g, stat (src ++ [category_of name]) (fs w) ≠ IsFile g) as Hcat
         by (by rewrite Hc).
  all: rewrite (organize_entry_file _ _ _ _ _ _ f0) by done; cbn zeta.
  all: destruct (relocate_on_made src name t w (log w) f0 Hf Hsrc Hcat)
         as (k & w1 & t1 & -> & Hfree & _ & _ & _ & Hstat); cbn [snd].
  all: rewrite !Hstat.
  all: destruct (decide (q = src ++ [category_of name; candidate name k])) as [->|H1];
         [by rewrite Hfree in Hq|].
  all: destruct (decide (locked f0 = false ∧ q = src ++ [name])) as [[Hl ->]|H2];
         [right; split; [done|]; exists k; rewrite Hstat; rewrite decide_True by done;
          unfold landed; rewrite Hl; congruence|].
  all: destruct (decide (q = src ++ [category_of name])) as [->|H3];
         [by rewrite Hc in Hq|by left].
Qed.

Lemma loop_keeps l : ∀ t w q f,
  dd = false → stat q (fs w) = IsFile f →
  stat q (fs (for_each (organize_entry md5 src dd) l t w).2) = IsFile f
  ∨ ∃ name k, name ∈ l ∧ q = src ++ [name]
      ∧ stat (src ++ [category_of name; candidate name k])
          (fs (for_each (organize_entry md5 src dd) l t w).2) = IsFile f.
Proof.
  induction l as [|name l IH]; intros t w q f Hdd Hq; [by left|].
  rewrite for_each_cons.
  pose proof (entry_keeps t name w q f Hdd Hq) as Hstep.
  destruct (organize_entry md5 src dd t name w) as [[t1| |] w1] eqn:Hrun; cbn [snd] in *.
  2,3: destruct Hstep as [?|(-> & k & ?)]; [by left|right; exists name, k];
       split; [apply list_elem_of_here|done].
  destruct Hstep as [Hq1|(-> & k & Hk)].
  - destruct (IH t1 w1 q f Hdd Hq1) as [?|(x & k & Hx & ? & ?)]; [by left|].
    right. exists x, k. split; [by apply list_elem_of_further|done].
  - right. exists name, k. split; [apply list_elem_of_here|]. split; [done|].
    by apply (loop_spares l t1 w1).
Qed.

End Batch.
End BatchFacts.

Module SweepFacts.
Import FS FSFacts NameFacts OSFacts OrganizerFacts LoopFacts TreeFacts PurgeFacts
  RmtreeFacts CountFacts LocationFacts.
Import Notions.

Lemma wanes_refl n : wanes n n.
Proof. intros q. by right. Qed.

Lemma wanes_trans n1 n2 n3 : wanes n1 n2 → wanes n2 n3 → wanes n1 n3.
Proof.
  intros H12 H23 q. destruct (H23 q) as [?|E]; [by left|].
  rewrite E. apply H12.
Qed.

Lemma dwindles_refl top w : wf (fs w) → dwindles top w w.
Proof. intros Hwf. split; [by apply tame_refl | apply wanes_refl]. Qed.

Lemma dwindles_trans top w1 w2 w3 :
  dwindles top w1 w2 → dwindles top w2 w3 → dwindles top w1 w3.
Proof.
  intros [Ht1 Hw1] [Ht2 Hw2]. split; [by eapply tame_trans | by eapply wanes_trans].
Qed.

Lemma dwindles_sub top top' w w' :
  top `prefix_of` top' → dwindles top' w w' → dwindles top w w'.
Proof. intros Hsub [Ht Hw]. split; [by eapply tame_sub | done]. Qed.

(** [rmtree] leaves what it leaves where it was. *)
Lemma rmtree_wanes n : wf n →
  ∀ r, kind_of (OS.rmtree_node n ≫= lookup r) = Absent
       ∨ kind_of (OS.rmtree_node n ≫= lookup r) = stat r n.
Proof.
  induction n as [g|es IH] using node_ind'; intros Hwf r.
  - unfold OS.rmtree_node. destruct (locked g); [by right | by left].
  - rewrite rmtree_Dir. apply wf_Dir in Hwf as [Hnd Hall].
    destruct (rmtree_entries es) as [|e es'] eqn:Hes; [by left|].
    rewrite <- Hes. clear Hes. cbn [mbind option_bind].
    destruct r as [|y r]; [by right|].
    cbn [lookup]. rewrite assoc_rmtree_entries by done.
    rewrite stat_cons.
    destruct (assoc y es) as [c|] eqn:Hy; [|by left]. cbn [mbind option_bind].
    apply assoc_Some_in in Hy.
    pose proof (proj1 (Forall_forall _ _) IH (y, c) Hy) as IHc.
    pose proof (proj1 (Forall_forall _ _) Hall (y, c) Hy) as Hc.
    apply (IHc Hc).
Qed.

(** Unlinking a path takes away what is at or below it and nothing else. *)
Lemma stat_put_None p n q :
  p ≠ [] → stat (parent p) n = IsDir →
  stat q (put p None n) = if decide (p `prefix_of` q) then Absent else stat q n.
Proof.
  intros Hne Hpar. destruct (decide (p `prefix_of` q)) as [[r ->]|Hq].
  - unfold stat. by rewrite lookup_put_below.
  - by apply stat_put_outside.
Qed.

Lemma put_wanes root x o n :
  stat (root ++ [x]) n ≠ Absent →
  (∀ r, kind_of (o ≫= lookup r) = Absent
        ∨ kind_of (o ≫= lookup r) = stat (root ++ [x] ++ r) n) →
  wanes n (put (root ++ [x]) o n).
Proof.
  intros Hex Ho q.
  assert (root ++ [x] ≠ []) as Hne by (by destruct root).
  assert (stat (parent (root ++ [x])) n = IsDir) as Hpar
    by (by apply stat_parent_IsDir).
  destruct (decide (root ++ [x] `prefix_of` q)) as [[r ->]|Hq].
  - unfold stat at 1 2. rewrite lookup_put_below by done.
    rewrite <- app_assoc. apply Ho.
  - right. by apply stat_put_outside.
Qed.

Lemma delete_file_dwindles top root acc file w :
  wf (fs w) → top `prefix_of` root →
  ∃ acc' w', delete_file root acc file w = (Return acc', w') ∧ dwindles top w w'.
Proof.
  intros Hwf Hroot.
  destruct (delete_file_tame top root acc file w Hwf Hroot) as (acc' & w' & Hrun & Ht).
  exists acc', w'. split; [done|]. split; [done|].
  rewrite delete_file_spec in Hrun. cbn zeta in Hrun.
  destruct (stat (root ++ [file]) (fs w)) as [| |f] eqn:E;
    [injection Hrun as <- <-; apply wanes_refl..|].
  destruct (locked f); injection Hrun as <- <-; [apply wanes_refl|]. cbn [fs].
  apply put_wanes; [by rewrite E|]. intros r. by left.
Qed.

Lemma delete_dir_dwindles top root acc dir w :
  wf (fs w) → top `prefix_of` root →
  ∃ w', delete_dir root acc dir w = (Return acc, w') ∧ dwindles top w w'.
Proof.
  intros Hwf Hroot.
  destruct (delete_dir_tame top root acc dir w Hwf Hroot) as (w' & Hrun & Ht).
  exists w'. split; [done|]. split; [done|].
  rewrite delete_dir_spec in Hrun. injection Hrun as <-. cbn [fs].
  unfold OS.rmtree_ignore_errors.
  destruct (lookup (root ++ [dir]) (fs w)) as [[f|es]|] eqn:E; [apply wanes_refl| |apply wanes_refl].
  apply put_wanes; [unfold stat; by rewrite E|].
  intros r. rewrite app_assoc. unfold stat. rewrite lookup_app, E.
  cbn [mbind option_bind]. apply rmtree_wanes. by eapply wf_lookup.
Qed.

Lemma for_each_dwindles {A} (body : nat * nat → A → M (nat * nat)) top l :
  (∀ acc a w, a ∈ l → wf (fs w) →
     ∃ acc' w', body acc a w = (Return acc', w') ∧ dwindles top w w') →
  ∀ acc w, wf (fs w) →
    ∃ acc' w', for_each body l acc w = (Return acc', w') ∧ dwindles top w w'.
Proof.
  induction l as [|a l IH]; intros Hbody acc w Hwf.
  - exists acc, w. split; [done | by apply dwindles_refl].
  - destruct (Hbody acc a w) as (acc1 & w1 & Hrun & Ht1); [apply list_elem_of_here|done|].
    destruct (IH (λ acc a w Ha, Hbody acc a w (list_elem_of_further _ _ _ Ha)) acc1 w1)
      as (acc' & w' & Hrest & Ht'); [apply Ht1|].
    exists acc', w'. rewrite for_each_cons, Hrun. split; [done | by eapply dwindles_trans].
Qed.

Lemma purge_triple_dwindles top acc root dirs files w :
  wf (fs w) → top `prefix_of` root →
  ∃ acc' w', purge_triple acc (root, dirs, files) w = (Return acc', w')
             ∧ dwindles top w w'.
Proof.
  intros Hwf Hroot. unfold purge_triple. cbv [mbind M_bind].
  destruct (for_each_dwindles (delete_file root) top files) with (acc := acc) (w := w)
    as (acc1 & w1 & -> & Ht1); [|done|].
  { intros a y w0 _ Hwf0. by apply delete_file_dwindles. }
  destruct (for_each_dwindles (delete_dir root) top dirs) with (acc := acc1) (w := w1)
    as (acc' & w' & -> & Ht'); [|apply Ht1|].
  { intros a y w0 _ Hwf0.
    destruct (delete_dir_dwindles top root a y w0) as (w2 & ? & ?); eauto. }
  exists acc', w'. split; [done | by eapply dwindles_trans].
Qed.

Lemma purge_triples_dwindles top triples acc w :
  wf (fs w) →
  (∀ root dirs files, (root, dirs, files) ∈ triples → top `prefix_of` root) →
  ∃ acc' w', for_each purge_triple triples acc w = (Return acc', w')
             ∧ dwindles top w w'.
Proof.
  intros Hwf Hroots. apply for_each_dwindles; [|done].
  intros a [[root dirs] files] w0 Hin Hwf0. apply purge_triple_dwindles; [done|].
  by apply (Hroots root dirs files).
Qed.

Lemma purge_location_dwindles acc temp_dir w :
  wf (fs w) →
  ∃ acc' w', purge_location acc temp_dir w = (Return acc', w')
             ∧ dwindles temp_dir w w'.
Proof.
  intros Hwf. unfold purge_location. run. unfold OS.walk.
  destruct (lookup temp_dir (fs w)) as [c|] eqn:Hc.
  - rewrite (exists_Some _ _ c) by done. cbv beta. rewrite Hc.
    apply purge_triples_dwindles; [done|].
    intros root dirs files. apply walk_roots.
  - rewrite exists_None by done. exists acc, w. split; [done|]. by apply dwindles_refl.
Qed.

Lemma purge_locations_dwindles temp_dirs : ∀ acc w,
  wf (fs w) →
  ∃ acc' w', for_each purge_location temp_dirs acc w = (Return acc', w')
             ∧ dwindles [] w w'.
Proof.
  intros acc w Hwf. apply for_each_dwindles; [|done].
  intros a d w0 _ Hwf0.
  destruct (purge_location_dwindles a d w0 Hwf0) as (acc' & w' & Hrun & Hd).
  exists acc', w'. split; [done|]. eapply dwindles_sub; [|exact Hd]. apply prefix_nil.
Qed.

End SweepFacts.

(** * The claims *)

Import FS FSFacts NameFacts OSFacts OrganizerFacts LoopFacts RerunFacts TreeFacts
  PurgeFacts RmtreeFacts CountFacts LocationFacts BatchFacts.
Import Notions.

Ltac names_in H :=
  repeat (apply elem_of_cons in H as [->|H]); [..|by apply elem_of_nil in H].

Ltac wf_tree :=
  repeat split; first [exact I | apply (bool_decide_unpack _); by vm_compute].




(** C1 (as amended).  Take a source directory that holds only regular
    files, under pairwise distinct names.  A run of [organize_files] without
    duplicate deletion comes to an end.  If it returns (no exception leaves
    it): every file that can be moved is afterwards found under the folder
    of its category and under its own name, and is no longer a file of the
    source directory; a file whose move fails is still where it was, and
    [shutil.move] has left a copy of it under its category folder if the
    file could be read.  Below the source directory there is no regular file
    but these.  The moved count is the number of files that could be moved,
    all of them when none is locked; the duplicate count is 0. *)
Theorem organize_files_sorts (md5 : list byte → string) (source_dir : path)
    (w : world) (es : entries) :
  lookup source_dir (fs w) = Some (Dir es) →
  NoDup es.*1 →
  only_files es →
  (organize_files md5 source_dir false w).1 ≠ Hang
  ∧ ∀ (moved dups : nat) (w' : world),
      organize_files md5 source_dir false w = (Return (moved, dups), w') →
      moved = length (filter movable es) ∧ dups = 0
      ∧ ((∀ name f, (name, File f) ∈ es → locked f = false) → moved = length es)
      ∧ (∀ name f, (name, File f) ∈ es →
           arrives f (stat (source_dir ++ [category_of name; name]) (fs w'))
           ∧ if locked f then stat (source_dir ++ [name]) (fs w') = IsFile f
             else ∀ g, stat (source_dir ++ [name]) (fs w') ≠ IsFile g)
      ∧ (∀ q g, stat (source_dir ++ q) (fs w') = IsFile g →
           ∃ name f, (name, File f) ∈ es
             ∧ ((q = [name] ∧ g = f ∧ locked f = true)
                ∨ (q = [category_of name; name] ∧ arrives f (IsFile g)))).
Proof.
  intros Hsrc Hnd Hfiles. split; [apply organize_files_no_hang|].
  intros moved dups w' Hrun.
  rewrite (organize_files_listing _ _ _ _ es Hsrc) in Hrun.
  destruct (for_each _ _ _ _) as [[t| |] w1] eqn:Hloop; [|done|done].
  injection Hrun as <- <- <-.
  destruct (sorted_loop md5 source_dir es Hnd Hfiles es [] (Tally ∅ 0 0) w t w1)
    as (Hm & Hd & [_ _ Hdone Hall _]); [done|by apply sorted_upto_init|done|].
  simpl in Hm, Hd.
  assert (∀ name f, (name, File f) ∈ es → name ∈ es.*1) as Hname.
  { intros name f Hin. by apply (list_elem_of_fmap_2 fst) in Hin. }
  split; [done|]. split; [done|]. split; [|split].
  - intros Hunlocked. rewrite Hm, filter_Forall_id; [done|].
    apply Forall_forall. intros [name c] Hin.
    unfold only_files in Hfiles. rewrite Forall_forall in Hfiles.
    destruct (Hfiles _ Hin) as [f Hf]. simpl in Hf. subst c.
    unfold movable. simpl. by rewrite (Hunlocked name f Hin).
  - intros name f Hin. destruct (Hdone name f Hin (Hname _ _ Hin)) as [Hland Hstay].
    split; [rewrite Hland; apply landed_arrives|].
    destruct (locked f) eqn:Hl; [by apply Hstay|].
    intros g Hg. rewrite <- (app_nil_r [name]) in Hg.
    destruct (Hall [name] g) as (name' & f' & Hin' & [([= <-] & -> & Hl')|([=] & _)]).
    { by rewrite app_nil_r in Hg. }
    pose proof (assoc_NoDup _ _ _ Hnd Hin) as E1.
    pose proof (assoc_NoDup _ _ _ Hnd Hin') as E2.
    assert (f' = f) as -> by congruence.
    specialize (Hl' (Hname _ _ Hin)). congruence.
  - intros q g Hq. destruct (Hall q g Hq) as (name & f & Hin & H).
    exists name, f. split; [done|].
    destruct H as [(-> & -> & Hl)|(-> & _ & Hland)];
      [left|right; split; [done|]; rewrite <- Hland; apply landed_arrives].
    split; [done|]. split; [done|]. by apply Hl, (Hname name f).
Qed.

Lemma organize_files_sorts_witness :
  ∃ w' : world,
    organize_files Samples.toy_md5 ["dl"] false Samples.mixed_world = (Return (3, 0), w')
    ∧ 3 = length (filter movable Samples.mixed_entries)
    ∧ stat ["dl"; "Documents"; "a.txt"] (fs w')
      = IsFile (mkFile (Samples.bytes_of "A") true false)
    ∧ stat ["dl"; "busy.mp3"] (fs w')
      = IsFile (mkFile (Samples.bytes_of "M") true true)
    ∧ ∃ g, stat ["dl"; "Music"; "busy.mp3"] (fs w') = IsFile g
           ∧ data g = Samples.bytes_of "M".
Proof.
  destruct (organize_files_sorts Samples.toy_md5 ["dl"] Samples.mixed_world Samples.mixed_entries)
    as [_ Hret].
  - reflexivity.
  - apply (bool_decide_unpack _). by vm_compute.
  - repeat constructor; simpl; eauto.
  - destruct (Hret 3 0 (organize_files Samples.toy_md5 ["dl"] false Samples.mixed_world).2)
      as (Hm & _ & _ & Hplace & _); [by vm_compute|].
    eexists. split; [by vm_compute|]. split; [exact Hm|].
    destruct (Hplace "a.txt" (mkFile (Samples.bytes_of "A") true false)) as [Ha _].
    { unfold Samples.mixed_entries. rewrite !elem_of_cons. tauto. }
    destruct (Hplace "busy.mp3" (mkFile (Samples.bytes_of "M") true true)) as [Hb Hb'].
    { unfold Samples.mixed_entries. rewrite !elem_of_cons. tauto. }
    split; [exact Ha|]. split; [exact Hb'|exact Hb].
Defined.

(** C1 as stated fails on a directory with a file that can be read but
    neither renamed nor deleted (one in use, say): [os.rename] fails,
    [shutil.move] copies the file to its category folder and then fails to
    delete the original; the exception is caught and logged.  The file
    exists twice, in the source directory and in [Music], and the moved
    count is 3 for the 4 files processed. *)
Lemma organize_files_unmovable_file :
  lookup ["dl"] (fs Samples.mixed_world) = Some (Dir Samples.mixed_entries)
  ∧ only_files Samples.mixed_entries
  ∧ length Samples.mixed_entries = 4
  ∧ ∃ w', organize_files Samples.toy_md5 ["dl"] false Samples.mixed_world = (Return (3, 0), w')
          ∧ category_of "busy.mp3" = "Music"%string
          ∧ stat ["dl"; "busy.mp3"] (fs w')
            = IsFile (mkFile (Samples.bytes_of "M") true true)
          ∧ (∃ g, stat ["dl"; "Music"; "busy.mp3"] (fs w') = IsFile g
                  ∧ data g = Samples.bytes_of "M")
          ∧ (LoggingError, FailedToMove "busy.mp3" PermissionError) ∈ log w'.
Proof.
  split; [reflexivity|]. split.
  { unfold only_files, Samples.mixed_entries. repeat constructor; simpl; eauto. }
  split; [reflexivity|].
  eexists. split; [by vm_compute|]. split; [by vm_compute|].
  split; [reflexivity|]. split; [by eexists|].
  cbn [log]. rewrite !elem_of_cons. tauto.
Qed.






(** C4 (the code breaks it).  Two runs in which a fault leaves
    [organize_files] and the rest of the batch is abandoned.  In the first a
    regular file is named [Others]: [os.makedirs] (line 72, outside every
    [try]) raises [FileExistsError] after [a.txt] has been moved and before
    [b.txt] is looked at.  In the second a duplicate cannot be deleted:
    [os.remove] (line 79, outside every [try]) raises [PermissionError]. *)
Theorem organize_files_lets_faults_escape :
  organize_files Samples.toy_md5 ["dl"] false
    (World (Dir [("dl", Dir [("a.txt", Samples.plain "A");
                             ("Others", Samples.plain "x");
                             ("b.txt", Samples.plain "B")])]) [])
  = (Raise FileExistsError,
     World (Dir [("dl", Dir [("Others", Samples.plain "x");
                             ("b.txt", Samples.plain "B");
                             ("Documents", Dir [("a.txt", Samples.plain "A")])])])
           [(LoggingInfo, Moved "a.txt" "Documents")])
  ∧ organize_files Samples.toy_md5 ["dl"] true
      (World (Dir [("dl", Dir [("a.txt", Samples.plain "A");
                               ("copy.txt", Samples.in_use "A");
                               ("b.txt", Samples.plain "B")])]) [])
    = (Raise PermissionError,
       World (Dir [("dl", Dir [("copy.txt", Samples.in_use "A");
                               ("b.txt", Samples.plain "B");
                               ("Documents", Dir [("a.txt", Samples.plain "A")])])])
             [(LoggingInfo, Moved "a.txt" "Documents");
              (LoggingWarning, DuplicateFound "copy.txt")]).
Proof. split; by vm_compute. Qed.

(** C5.  When the source directory does not exist, [organize_files]
    returns [(0, 0)] without raising, reports the error to the log and to
    the terminal, and leaves the file system as it is. *)
Theorem organize_files_missing_directory (md5 : list byte → string)
    (source_dir : path) (delete_duplicates : bool) (w : world) :
  exists_ source_dir (fs w) = false →
  organize_files md5 source_dir delete_duplicates w =
    (Return (0, 0),
     World (fs w) (log w ++ [(LoggingError, DirectoryDoesNotExist source_dir);
                             (Printed, DirectoryDoesNotExist source_dir)])).
Proof. apply LoopFacts.organize_files_absent. Qed.

Lemma organize_files_missing_directory_witness :
  exists_ ["home"; "nope"] (fs (World Samples.downloads [])) = false
  ∧ organize_files Samples.toy_md5 ["home"; "nope"] true (World Samples.downloads []) =
    (Return (0, 0),
     World Samples.downloads [(LoggingError, DirectoryDoesNotExist ["home"; "nope"]);
                             (Printed, DirectoryDoesNotExist ["home"; "nope"])]).
Proof.
  split; [reflexivity|].
  apply (organize_files_missing_directory Samples.toy_md5 ["home"; "nope"] true
           (World Samples.downloads [])).
  reflexivity.
Defined.

(** C6.  When the answer at the prompt, lower-cased, is not ["y"],
    [clean_temp_files] returns [(0, 0)] and prints that the cleanup was
    aborted; the file system is the one it started with. *)
Theorem clean_temp_files_declined (env : environ) (system answer : string) (w : world) :
  PathName.lower answer ≠ "y" →
  clean_temp_files env system answer w =
    (Return (0, 0),
     World (fs w) (log w ++ [(Printed, CleanupWarning); (Printed, CleanupAborted)])).
Proof.
  intros H. unfold clean_temp_files. run.
  rewrite decide_True by done. cbn [fs log]. by rewrite <- app_assoc.
Qed.

Lemma clean_temp_files_declined_witness :
  PathName.lower "n" ≠ "y"
  ∧ clean_temp_files (Environ [] [] ["home"]) "Linux" "n" (World Samples.downloads []) =
    (Return (0, 0),
     World Samples.downloads [(Printed, CleanupWarning); (Printed, CleanupAborted)]).
Proof.
  split; [by vm_compute|].
  apply (clean_temp_files_declined (Environ [] [] ["home"]) "Linux" "n"
           (World Samples.downloads [])).
  by vm_compute.
Defined.



(** C7 (the code breaks it).  [/tmp/d] holds a file that cannot be deleted,
    so [shutil.rmtree] cannot remove the directory; called with
    [ignore_errors=True] it raises nothing, the handler of lines 139-140
    never runs, and line 138 logs the directory as deleted: the failure to
    delete [/tmp/d] is in the log nowhere, while the directory is still
    there. *)
Lemma directory_failure_not_logged :
  ∃ w', clean_temp_files Samples.linux_env "Linux" "y" Samples.busy_tmp = (Return (2, 5), w')
    ∧ stat ["tmp"; "d"] (fs w') = IsDir
    ∧ (LoggingInfo, DeletedDirectory ["tmp"; "d"]) ∈ log w'
    ∧ ∀ e, (LoggingError, FailedToDelete ["tmp"; "d"] e) ∉ log w'.
Proof.
  eexists. split; [by vm_compute|]. split; [reflexivity|]. split.
  - cbn [log]. rewrite !elem_of_cons. tauto.
  - intros e. cbn [log]. rewrite !not_elem_of_cons. repeat split; try discriminate.
    apply not_elem_of_nil.
Qed.




(** C9 (the code breaks it).  The first run is left by the
    [PermissionError] of [os.remove] (line 79, outside every [try]) after
    [a.txt] has been moved and before [b.txt] is looked at.  The second run,
    on the directory as the first has left it, moves [b.txt]: it returns
    [(1, 0)]. *)
Theorem second_run_after_fault :
  ∃ w1 w2,
    organize_files Samples.toy_md5 ["dl"] true Samples.interrupted_world
      = (Raise PermissionError, w1)
    ∧ stat ["dl"; "b.txt"] (fs w1) = IsFile (mkFile (Samples.bytes_of "B") true false)
    ∧ organize_files Samples.toy_md5 ["dl"] true (World (fs w1) []) = (Return (1, 0), w2)
    ∧ stat ["dl"; "b.txt"] (fs w2) = Absent
    ∧ stat ["dl"; "Documents"; "b.txt"] (fs w2)
      = IsFile (mkFile (Samples.bytes_of "B") true false)
    ∧ (LoggingInfo, Moved "b.txt" "Documents") ∈ log w2.
Proof.
  eexists _, _. split; [by vm_compute|]. split; [reflexivity|].
  split; [by vm_compute|]. split; [reflexivity|]. split; [reflexivity|].
  cbn [log]. rewrite !elem_of_cons. tauto.
Qed.

(** C10 (as amended).  A confirmed purge returns, and whatever is not
    strictly inside one of the configured locations is afterwards what it
    was: a directory is still a directory, a file still the same file, an
    absent path still absent.  In particular a configured location that
    does not lie strictly inside another configured location is still
    there. *)
Theorem clean_temp_files_frame (env : environ) (system answer : string) (w : world) :
  PathName.lower answer = "y"%string →
  let temp_dirs := dict_get system (TEMP_DIRS env) [] in
  ∃ (counts : nat * nat) (w' : world),
    clean_temp_files env system answer w = (Return counts, w')
    ∧ (∀ q, (∀ d, d ∈ temp_dirs → ¬ inside d q) → stat q (fs w') = stat q (fs w))
    ∧ (∀ d, d ∈ temp_dirs → (∀ d', d' ∈ temp_dirs → ¬ inside d' d) →
         stat d (fs w') = stat d (fs w)).
Proof.
  intros Hyes temp_dirs. rewrite clean_temp_files_confirmed by done.
  destruct (purge_locations_outside temp_dirs (0, 0)
              (World (fs w) (log w ++ [(Printed, CleanupWarning)])))
    as (counts & w' & Hrun & Hout).
  exists counts, w'. split; [done|]. split; [exact Hout|].
  intros d _ Hd. by apply Hout.
Qed.

Lemma clean_temp_files_frame_witness :
  ∃ (counts : nat * nat) (w' : world),
    clean_temp_files Samples.linux_env "Linux" "y" Samples.busy_tmp = (Return counts, w')
    ∧ stat ["tmp"] (fs w') = IsDir
    ∧ stat ["home"; "u"; ".cache"] (fs w') = IsDir
    ∧ stat ["home"; "u"] (fs w') = IsDir.
Proof.
  destruct (clean_temp_files_frame Samples.linux_env "Linux" "y" Samples.busy_tmp)
    as (counts & w' & Hrun & Hout & Hloc).
  - reflexivity.
  - exists counts, w'. split; [exact Hrun|].
    assert (∀ d d', d ∈ dict_get "Linux" (TEMP_DIRS Samples.linux_env) [] →
                    d' ∈ dict_get "Linux" (TEMP_DIRS Samples.linux_env) [] → ¬ inside d' d) as Hapart.
    { intros d d' Hd Hd' (x & r & E). simpl in Hd, Hd'.
      names_in Hd; names_in Hd'; simpl in E; discriminate E. }
    assert (["tmp"] ∈ dict_get "Linux" (TEMP_DIRS Samples.linux_env) []) as Htmp.
    { simpl. rewrite !elem_of_cons. tauto. }
    assert (["home"; "u"; ".cache"] ∈ dict_get "Linux" (TEMP_DIRS Samples.linux_env) []) as Hcache.
    { simpl. rewrite !elem_of_cons. tauto. }
    split; [|split].
    + rewrite (Hloc _ Htmp); [reflexivity|]. intros d' Hd'. by apply Hapart.
    + rewrite (Hloc _ Hcache); [reflexivity|]. intros d' Hd'. by apply Hapart.
    + rewrite Hout; [reflexivity|].
      intros d Hd (x & r & E). simpl in Hd. names_in Hd; simpl in E; discriminate E.
Defined.

(** C10 as stated fails when one configured location lies inside another:
    with the home directory at [/tmp/u], purging [/tmp] removes
    [/tmp/u/.cache], which is itself a configured location that existed as
    a directory before the purge. *)
Lemma nested_location_removed :
  ["tmp"; "u"; ".cache"] ∈ dict_get "Linux" (TEMP_DIRS Samples.nested_env) []
  ∧ stat ["tmp"; "u"; ".cache"] (fs Samples.nested_tmp) = IsDir
  ∧ ∃ w', clean_temp_files Samples.nested_env "Linux" "y" Samples.nested_tmp = (Return (2, 8), w')
          ∧ stat ["tmp"; "u"; ".cache"] (fs w') = Absent.
Proof.
  split; [|split; [reflexivity|]].
  - simpl. rewrite !elem_of_cons. tauto.
  - eexists. split; [by vm_compute | reflexivity].
Qed.

(** * Further properties of the script *)

Import PathName ClassifyFacts BatchFacts SweepFacts.

Ltac by_listing src es H :=
  match type of H with
  | stat (_ ++ [?name]) ?n = _ =>
      rewrite (stat_child src name n es eq_refl) in H; simpl in H;
      repeat (case_decide; [subst|]); try discriminate H
  end.

(** X1: a name whose extension, in any letter case, is listed under a
    category is classified under that category. *)
Theorem category_of_known_extension (base ext cat : string) (exts : list string) :
  (cat, exts) ∈ FILE_CATEGORIES → lower ext ∈ exts → all_dots base = false →
  category_of (base +:+ ext) = cat.
Proof.
  intros Hcat Hext Hbase.
  destruct (listed_extension _ _ _ Hcat Hext) as (Hfirst & e & He & Hdot).
  destruct (lower_dot _ _ He) as (ext' & -> & He').
  assert (dotless ext' = true) as Hd by (by rewrite <- dotless_lower, He').
  unfold category_of, file_ext. rewrite splitext_ext by done.
  cbn [snd]. exact Hfirst.
Qed.

Lemma category_of_known_extension_witness :
  category_of "Holiday.2024.JPG" = "Images"%string.
Proof.
  apply (category_of_known_extension "Holiday.2024" ".JPG" "Images"
           [".jpg"; ".jpeg"; ".png"; ".gif"; ".bmp"]%string).
  - unfold FILE_CATEGORIES. apply list_elem_of_here.
  - vm_compute. apply list_elem_of_here.
  - reflexivity.
Defined.

(** X2: a name that has no dot after its leading dots has no extension and
    goes to [Others]. *)
Theorem category_of_no_extension (dots rest : string) :
  all_dots dots = true → dotless rest = true →
  category_of (dots +:+ rest) = "Others"%string.
Proof.
  intros Hd Hr. unfold category_of, file_ext. by rewrite splitext_dots.
Qed.

Lemma category_of_no_extension_witness :
  category_of "Makefile" = "Others"%string ∧ category_of ".jpg" = "Others"%string.
Proof.
  split.
  - apply (category_of_no_extension "" "Makefile"); reflexivity.
  - apply (category_of_no_extension "." "jpg"); reflexivity.
Defined.

(** X3: the letter case of a name does not matter to its category. *)
Theorem category_of_lower (filename : string) :
  category_of (lower filename) = category_of filename.
Proof.
  unfold category_of, file_ext. rewrite splitext_lower. cbn [snd].
  by rewrite lower_idemp.
Qed.

(** X25: [str.lower] knows the letters outside ASCII: the Kelvin sign is
    lowered to [k], so that a name with the extension [.m<Kelvin sign>v] is
    filed under [Videos], like [.mkv] and [.MKV]. *)
Theorem category_of_kelvin_sign (base : string) :
  all_dots base = false →
  file_ext (base +:+ ".m" +:+ kelvin_sign +:+ "v") = ".mkv"%string
  ∧ category_of (base +:+ ".m" +:+ kelvin_sign +:+ "v") = "Videos"%string.
Proof.
  intros Hbase. unfold category_of, file_ext.
  change (base +:+ ".m" +:+ kelvin_sign +:+ "v")
    with (base +:+ String "." ("m" +:+ kelvin_sign +:+ "v")).
  by rewrite splitext_ext.
Qed.

Lemma category_of_kelvin_sign_witness :
  category_of ("film.m" +:+ kelvin_sign +:+ "v") = "Videos"%string
  ∧ category_of "film.MKV" = "Videos"%string.
Proof.
  split; [|reflexivity].
  by apply (category_of_kelvin_sign "film").
Defined.

(** X4: the name chosen to avoid a collision is classified as the name it
    replaces. *)
Theorem category_of_candidate (filename : string) (k : nat) :
  file_ext (candidate filename k) = file_ext filename
  ∧ category_of (candidate filename k) = category_of filename.
Proof.
  unfold category_of, file_ext. by rewrite splitext_candidate.
Qed.

(** X5: every name is filed under one of the six folders of the table. *)
Theorem category_of_listed (filename : string) :
  category_of filename ∈ FILE_CATEGORIES.*1.
Proof.
  unfold category_of.
  destruct (first_category_listed (file_ext filename) FILE_CATEGORIES "Others")
    as [H| ->]; [done|].
  unfold FILE_CATEGORIES. simpl. rewrite !elem_of_cons. tauto.
Qed.

(** X6: [get_file_hash] never raises and never touches the file system.  It
    returns the digest of the bytes of a readable regular file and logs
    nothing; for anything else it returns [None] and logs one error. *)
Theorem get_file_hash_total (md5 : list byte → string) (file_path : path) (w : world) :
  ∃ (r : option string) (w' : world),
    get_file_hash md5 file_path w = (Return r, w')
    ∧ fs w' = fs w
    ∧ (∀ f, stat file_path (fs w) = IsFile f → readable f = true →
            r = Some (md5 (data f)) ∧ w' = w)
    ∧ ((∀ f, stat file_path (fs w) = IsFile f → readable f = false) →
       r = None
       ∧ ∃ e, log w' = log w ++ [(LoggingError, ErrorHashing file_path e)]).
Proof.
  rewrite get_file_hash_spec. unfold OS.read_bytes.
  destruct (stat file_path (fs w)) as [| |f] eqn:Hf.
  1,2: eexists _, _; split; [done|]; split; [done|]; split; [done|]; by eauto.
  destruct (readable f) eqn:Hr.
  - eexists _, _. split; [done|]. split; [done|]. split.
    + by intros g [= <-] _.
    + intros H. specialize (H f eq_refl). congruence.
  - eexists _, _. split; [done|]. split; [done|]. split.
    + intros g [= <-] ?. congruence.
    + by eauto.
Qed.

(** The three ways [organize_files] starts. *)
Lemma organize_files_cases md5 src dd w :
  (stat src (fs w) = Absent
   ∧ organize_files md5 src dd w =
       (Return (0, 0),
        World (fs w) (log w ++ [(LoggingError, DirectoryDoesNotExist src);
                                (Printed, DirectoryDoesNotExist src)])))
  ∨ (∃ f, stat src (fs w) = IsFile f
          ∧ organize_files md5 src dd w = (Raise NotADirectoryError, w))
  ∨ (∃ es, lookup src (fs w) = Some (Dir es) ∧ stat src (fs w) = IsDir
           ∧ organize_files md5 src dd w =
               match for_each (organize_entry md5 src dd) es.*1 (Tally ∅ 0 0) w with
               | (Return t, w') => (Return (moved_count t, duplicate_count t), w')
               | (Raise e, w') => (Raise e, w')
               | (Hang, w') => (Hang, w')
               end).
Proof.
  destruct (stat src (fs w)) as [| |f] eqn:Hsrc.
  - left. split; [done|]. apply organize_files_absent. unfold exists_. by rewrite Hsrc.
  - right. right. pose proof Hsrc as [es Hes]%stat_IsDir. exists es.
    split; [done|]. split; [done|]. by apply organize_files_listing.
  - right. left. exists f. split; [done|]. unfold organize_files. run.
    unfold exists_, OS.listdir. rewrite Hsrc. apply stat_IsFile in Hsrc. by rewrite Hsrc.
Qed.

(** What a run takes out of a well-formed file system and what it adds to
    it, however it ends: the files in [lost], which are as many as the
    duplicates it reports, and the copies in [gained]. *)
Lemma organize_files_weigh md5 src dd w :
  wf (fs w) →
  ∃ lost gained : list file,
    (∀ μ, weigh μ (fs (organize_files md5 src dd w).2) + sum_list_with μ lost
          = weigh μ (fs w) + sum_list_with μ gained)
    ∧ (dd = false → lost = [])
    ∧ (∀ moved dups, (organize_files md5 src dd w).1 = Return (moved, dups) →
                     dups = length lost ∧ wf (fs (organize_files md5 src dd w).2)).
Proof.
  intros Hwf.
  destruct (organize_files_cases md5 src dd w)
    as [[_ ->]|[(f & _ & ->)|(es & _ & _ & ->)]].
  1,2: exists [], []; (split; [intros μ; simpl; lia|]); (split; [done|]);
       intros moved dups [=]; by subst.
  destruct (loop_weigh md5 src dd es.*1 (Tally ∅ 0 0) w Hwf)
    as (lost & gained & Hw & Hoff & Hd).
  exists lost, gained.
  destruct (for_each _ _ _ _) as [[t| |] w1] eqn:Hloop; cbn [fst snd] in *.
  2,3: split; [done|]; by split.
  split; [done|]. split; [done|]. intros moved dups [= <- <-].
  split; [by rewrite (Hd t eq_refl)|]. by eapply loop_wf.
Qed.

(** X7: a directory without a regular file directly in it (an empty one, or
    one that holds only folders) is left as it is: the run returns [(0, 0)]
    and writes nothing, not even to the log. *)
Theorem organize_files_nothing_to_do (md5 : list byte → string) (source_dir : path)
    (delete_duplicates : bool) (w : world) :
  stat source_dir (fs w) = IsDir →
  (∀ name f, stat (source_dir ++ [name]) (fs w) ≠ IsFile f) →
  organize_files md5 source_dir delete_duplicates w = (Return (0, 0), w).
Proof.
  intros Hsrc Hnone.
  destruct (organize_files_cases md5 source_dir delete_duplicates w)
    as [[H _]|[(f & H & _)|(es & _ & _ & ->)]]; [congruence|congruence|].
  rewrite loop_skips; [done|]. intros name f _. apply Hnone.
Qed.

Lemma organize_files_nothing_to_do_witness :
  organize_files Samples.toy_md5 ["tmp"; "u"] true Samples.nested_tmp = (Return (0, 0), Samples.nested_tmp).
Proof.
  apply organize_files_nothing_to_do.
  - reflexivity.
  - intros name f H.
    by_listing ["tmp"; "u"] [(".cache", Dir [("y", Samples.plain "12345")])] H.
Defined.

(** X8: given the path of a regular file, [organize_files] ends with the
    [NotADirectoryError] of [os.listdir], having changed and logged
    nothing. *)
Theorem organize_files_on_regular_file (md5 : list byte → string) (source_dir : path)
    (delete_duplicates : bool) (w : world) (f : file) :
  stat source_dir (fs w) = IsFile f →
  organize_files md5 source_dir delete_duplicates w = (Raise NotADirectoryError, w).
Proof.
  intros Hsrc.
  destruct (organize_files_cases md5 source_dir delete_duplicates w)
    as [[H _]|[(g & _ & H)|(es & _ & H & _)]]; [congruence|done|congruence].
Qed.

Lemma organize_files_on_regular_file_witness :
  organize_files Samples.toy_md5 ["dl"; "a.txt"] false Samples.twin_world
  = (Raise NotADirectoryError, Samples.twin_world).
Proof.
  apply (organize_files_on_regular_file _ _ _ _ (mkFile (Samples.bytes_of "A") true false)).
  reflexivity.
Defined.

(** X9: a run always comes to an end: the loop of lines 91-93 finds a free
    name for every file it has to rename, so that no round of the loop over
    the listing goes on for ever. *)
Theorem organize_files_ends (md5 : list byte → string) (source_dir : path)
    (delete_duplicates : bool) (w : world) :
  (organize_files md5 source_dir delete_duplicates w).1 ≠ Hang
  ∧ ∀ t filename, (organize_entry md5 source_dir delete_duplicates t filename w).1 ≠ Hang.
Proof.
  split; [apply organize_files_no_hang|]. intros t filename.
  apply organize_entry_no_hang.
Qed.

(** X11: however a run ends, it has changed nothing outside the source
    directory, has left every regular file that was in a subfolder of the
    source directory where and as it was, and has removed no directory. *)
Theorem organize_files_spares (md5 : list byte → string) (source_dir : path)
    (delete_duplicates : bool) (w : world) :
  let w' := (organize_files md5 source_dir delete_duplicates w).2 in
  (∀ q, ¬ source_dir `prefix_of` q → stat q (fs w') = stat q (fs w))
  ∧ (∀ folder x r f, stat (source_dir ++ folder :: x :: r) (fs w) = IsFile f →
                     stat (source_dir ++ folder :: x :: r) (fs w') = IsFile f)
  ∧ (∀ q, stat q (fs w) = IsDir → stat q (fs w') = IsDir).
Proof.
  cbn zeta.
  destruct (organize_files_cases md5 source_dir delete_duplicates w)
    as [[_ ->]|[(f & _ & ->)|(es & _ & _ & ->)]]; [done|done|].
  pose proof (loop_spares md5 source_dir delete_duplicates es.*1 (Tally ∅ 0 0) w) as H.
  by destruct (for_each _ _ _ _) as [[t| |] w'].
Qed.

(** X12: without duplicate deletion no file is ever lost, however the run
    ends: every regular file is still where it was, or, if it was directly
    in the source directory, under a candidate name in its category folder;
    the file system holds at least as many regular files, and as many bytes
    in them, as before (more when a failed move has left a copy). *)
Theorem organize_files_keeps_every_file (md5 : list byte → string) (source_dir : path)
    (w : world) :
  let w' := (organize_files md5 source_dir false w).2 in
  (∀ q f, stat q (fs w) = IsFile f →
     stat q (fs w') = IsFile f
     ∨ ∃ name k, q = source_dir ++ [name]
         ∧ stat (source_dir ++ [category_of name; candidate name k]) (fs w') = IsFile f)
  ∧ (wf (fs w) →
     file_count (fs w) ≤ file_count (fs w') ∧ total_bytes (fs w) ≤ total_bytes (fs w')).
Proof.
  cbn zeta. split.
  - intros q f Hq.
    destruct (organize_files_cases md5 source_dir false w)
      as [[_ ->]|[(g & _ & ->)|(es & _ & _ & ->)]]; [by left|by left|].
    pose proof (loop_keeps md5 source_dir false es.*1 (Tally ∅ 0 0) w q f eq_refl Hq) as H.
    destruct (for_each _ _ _ _) as [[t| |] w1]; cbn [snd] in *;
      (destruct H as [?|(name & k & _ & ? & ?)]; [by left|right; by exists name, k]).
  - intros Hwf.
    destruct (organize_files_weigh md5 source_dir false w Hwf)
      as (lost & gained & Hw & Hoff & _).
    rewrite (Hoff eq_refl) in Hw. unfold file_count, total_bytes.
    pose proof (Hw (λ _, 1)) as H1. pose proof (Hw (λ f, length (data f))) as H2.
    simpl in H1, H2. lia.
Qed.

Lemma organize_files_keeps_every_file_witness :
  (organize_files Samples.toy_md5 ["dl"] false Samples.mixed_world).1 = Return (3, 0)
  ∧ 4 ≤ file_count (fs (organize_files Samples.toy_md5 ["dl"] false Samples.mixed_world).2)
  ∧ 4 ≤ total_bytes (fs (organize_files Samples.toy_md5 ["dl"] false Samples.mixed_world).2).
Proof.
  split; [by vm_compute|].
  destruct (organize_files_keeps_every_file Samples.toy_md5 ["dl"] Samples.mixed_world) as [_ H].
  apply H. simpl. wf_tree.
Defined.

(** X13: a run that returns has taken no more regular files out of the file
    system than it reports duplicates deleted. *)
Theorem organize_files_loses_only_duplicates (md5 : list byte → string)
    (source_dir : path) (delete_duplicates : bool) (w w' : world)
    (moved dups : nat) :
  wf (fs w) →
  organize_files md5 source_dir delete_duplicates w = (Return (moved, dups), w') →
  file_count (fs w) ≤ file_count (fs w') + dups.
Proof.
  intros Hwf Hrun.
  destruct (organize_files_weigh md5 source_dir delete_duplicates w Hwf)
    as (lost & gained & Hw & _ & Hd).
  rewrite Hrun in Hw, Hd. cbn [fst snd] in Hw, Hd.
  destruct (Hd moved dups eq_refl) as [-> _].
  unfold file_count. specialize (Hw (λ _, 1)). rewrite sum_list_ones in Hw. lia.
Qed.

Lemma organize_files_loses_only_duplicates_witness :
  ∃ w', organize_files Samples.toy_md5 ["dl"] true Samples.twin_world = (Return (1, 1), w')
        ∧ 2 ≤ file_count (fs w') + 1.
Proof.
  eexists. split; [by vm_compute|].
  apply (organize_files_loses_only_duplicates Samples.toy_md5 ["dl"] true Samples.twin_world
           (organize_files Samples.toy_md5 ["dl"] true Samples.twin_world).2 1 1).
  - simpl. wf_tree.
  - by vm_compute.
Defined.

(** X14: every regular file of the listing is accounted for when the run
    returns: it has been moved, or deleted as a duplicate, or it is still in
    the directory; and no regular file is in the directory that was not
    listed. *)
Theorem organize_files_accounts (md5 : list byte → string) (source_dir : path)
    (delete_duplicates : bool) (w w' : world) (es : entries) (moved dups : nat) :
  lookup source_dir (fs w) = Some (Dir es) → NoDup es.*1 →
  organize_files md5 source_dir delete_duplicates w = (Return (moved, dups), w') →
  length (files_in source_dir (fs w) es.*1)
    = moved + dups + length (files_in source_dir (fs w') es.*1)
  ∧ ∀ name f, stat (source_dir ++ [name]) (fs w') = IsFile f → name ∈ es.*1.
Proof.
  intros Hes Hnd Hrun.
  rewrite (organize_files_listing _ _ _ _ es Hes) in Hrun.
  destruct (for_each _ _ _ _) as [[t| |] w1] eqn:Hloop; [|done|done].
  injection Hrun as <- <- <-.
  destruct (loop_accounts md5 source_dir delete_duplicates _ _ _ _ _ Hnd Hloop) as [_ Hacc].
  split; [cbn [moved_count duplicate_count] in Hacc; lia|].
  intros name f Hf.
  assert (stat source_dir (fs w) = IsDir) as Hdir by (apply stat_IsDir; eauto).
  destruct (loop_settles md5 source_dir delete_duplicates _ _ _ _ _ Hdir Hloop)
    as (_ & Hfiles & _).
  apply Hfiles in Hf. rewrite (stat_child _ _ _ es Hes) in Hf.
  destruct (assoc name es) as [c|] eqn:Hc; [|done]. by eapply assoc_Some_elem.
Qed.

Lemma organize_files_accounts_witness :
  ∃ w', organize_files Samples.toy_md5 ["dl"] false Samples.mixed_world = (Return (3, 0), w')
        ∧ length (files_in ["dl"] (fs w') Samples.mixed_entries.*1) = 1.
Proof.
  eexists. split; [by vm_compute|].
  destruct (organize_files_accounts Samples.toy_md5 ["dl"] false Samples.mixed_world
              (organize_files Samples.toy_md5 ["dl"] false Samples.mixed_world).2
              Samples.mixed_entries 3 0) as [Hacc _].
  - reflexivity.
  - apply (bool_decide_unpack _). by vm_compute.
  - by vm_compute.
  - change (length (files_in ["dl"] (fs Samples.mixed_world) Samples.mixed_entries.*1)) with 4 in Hacc.
    set (n := length _) in *. lia.
Defined.

(** X15: when no two readable regular files of the directory have the same
    digest, a run with duplicate deletion that returns has deleted nothing:
    the duplicate count is 0 and the file system holds no fewer regular
    files than before. *)
Theorem organize_files_twinless (md5 : list byte → string) (source_dir : path)
    (w w' : world) (moved dups : nat) :
  wf (fs w) →
  (∀ n1 n2 f1 f2, n1 ≠ n2 →
     stat (source_dir ++ [n1]) (fs w) = IsFile f1 →
     stat (source_dir ++ [n2]) (fs w) = IsFile f2 →
     readable f1 = true → readable f2 = true → md5 (data f1) ≠ md5 (data f2)) →
  organize_files md5 source_dir true w = (Return (moved, dups), w') →
  dups = 0 ∧ file_count (fs w) ≤ file_count (fs w').
Proof.
  intros Hwf Htw Hrun.
  destruct (organize_files_cases md5 source_dir true w)
    as [[_ H]|[(f & _ & H)|(es & Hes & Hdir & H)]]; rewrite H in Hrun; clear H;
    [by injection Hrun as <- <- <-|done|].
  destruct (loop_weigh md5 source_dir true es.*1 (Tally ∅ 0 0) w Hwf)
    as (lost & gained & Hw & _ & Hd).
  destruct (for_each _ _ _ _) as [[t| |] w1] eqn:Hloop; [|done|done].
  injection Hrun as <- <- <-. cbn [fst snd] in Hw, Hd.
  assert (NoDup es.*1) as Hnd by (by apply (wf_lookup _ _ _ Hwf), wf_Dir in Hes as [? _]).
  assert (duplicate_count t = 0) as Hzero.
  { apply (loop_twinless md5 source_dir true (fs w) es.*1 [] (Tally ∅ 0 0) w t w1 Htw Hnd);
      [|done|done| |done].
    - intros x _. apply not_elem_of_nil.
    - intros h [p Hp]. cbn [file_hashes] in Hp. by rewrite lookup_empty in Hp. }
  rewrite Hzero. split; [done|].
  specialize (Hd t eq_refl). specialize (Hw (λ _, 1)).
  rewrite sum_list_ones in Hw. cbn [duplicate_count] in Hd. unfold file_count. lia.
Qed.

Lemma organize_files_twinless_witness :
  (organize_files Samples.toy_md5 ["dl"] true Samples.mixed_world).1 = Return (3, 0)
  ∧ 4 ≤ file_count (fs (organize_files Samples.toy_md5 ["dl"] true Samples.mixed_world).2).
Proof.
  split; [by vm_compute|].
  destruct (organize_files_twinless Samples.toy_md5 ["dl"] Samples.mixed_world
              (organize_files Samples.toy_md5 ["dl"] true Samples.mixed_world).2 3 0) as [_ Hc].
  - simpl. wf_tree.
  - intros n1 n2 f1 f2 Hne H1 H2 _ _.
    by_listing ["dl"] Samples.mixed_entries H1; by_listing ["dl"] Samples.mixed_entries H2.
    all: try done.
    all: injection H1 as <-; injection H2 as <-; by vm_compute.
  - by vm_compute.
  - exact Hc.
Defined.

(** X23: if a run of [organize_files] returns, a second run with the same
    arguments on the file system it leaves returns [(0, 0)]: it moves no
    file and deletes none, and whatever is directly in the source directory
    is afterwards what it was.  The regular files still directly in the
    directory are files of the first listing whose move failed, and it fails
    again, leaving one more copy in the category folder of a file that can
    be read; whatever was relocated sits in a subfolder, which the scan
    skips.  The names in a directory are taken to be distinct, as they are
    in any file system. *)
Theorem second_run_moves_nothing (md5 : list byte → string) (source_dir : path)
    (delete_duplicates : bool) (w w1 : world) (counts : nat * nat) :
  wf (fs w) →
  organize_files md5 source_dir delete_duplicates w = (Return counts, w1) →
  ∃ w2 : world,
    organize_files md5 source_dir delete_duplicates w1 = (Return (0, 0), w2)
    ∧ (∀ name, stat (source_dir ++ [name]) (fs w2) = stat (source_dir ++ [name]) (fs w1))
    ∧ ∀ name f, stat (source_dir ++ [name]) (fs w1) = IsFile f →
                locked f = true ∧ stat (source_dir ++ [name]) (fs w) = IsFile f.
Proof.
  intros Hwf Hrun.
  destruct (stat source_dir (fs w)) as [| |f] eqn:Hsrc.
  - rewrite organize_files_absent in Hrun by (unfold exists_; by rewrite Hsrc).
    injection Hrun as <- <-. eexists. split; [|split].
    + rewrite organize_files_absent; [done|].
      unfold exists_. cbn [fs]. by rewrite Hsrc.
    + done.
    + intros name g. cbn [fs]. by rewrite stat_child_Absent by (by rewrite Hsrc).
  - pose proof Hsrc as Hes. apply stat_IsDir in Hes as [es Hes].
    rewrite (organize_files_listing _ _ _ _ es Hes) in Hrun.
    destruct (for_each _ _ _ _) as [[t| |] w'] eqn:Hloop; [|done|done].
    injection Hrun as <- <-.
    destruct (loop_stuck md5 source_dir delete_duplicates _ _ _ _ _ Hes Hloop)
      as (Hstuck & Hsrc' & Hfiles).
    pose proof (loop_wf md5 source_dir delete_duplicates _ _ _ _ _ Hwf Hloop) as Hwf'.
    pose proof Hsrc' as Hes'. apply stat_IsDir in Hes' as [es' Hes'].
    assert (NoDup es'.*1) as Hnd.
    { by apply (wf_lookup _ _ _ Hwf'), wf_Dir in Hes' as [? _]. }
    destruct (loop_idles md5 source_dir delete_duplicates es'.*1 (Tally ∅ 0 0) w' Hnd Hstuck)
      as (t2 & w2 & Hloop2 & Hfs & Hm & Hd).
    { intros h [p Hp]. cbn [file_hashes] in Hp. by rewrite lookup_empty in Hp. }
    exists w2. rewrite (organize_files_listing _ _ _ _ es' Hes'), Hloop2.
    cbn [moved_count duplicate_count] in Hm, Hd. rewrite Hm, Hd.
    split; [done|]. split; [done|]. intros name g Hg. split; [|by apply Hfiles].
    by destruct (proj1 Hstuck name g Hg).
  - unfold organize_files in Hrun. revert Hrun. run.
    unfold exists_, OS.listdir. rewrite Hsrc.
    apply stat_IsFile in Hsrc. rewrite Hsrc. done.
Qed.

Lemma second_run_moves_nothing_witness :
  ∃ w1 w2 : world,
    organize_files Samples.toy_md5 ["dl"] true Samples.mixed_world = (Return (3, 0), w1)
    ∧ organize_files Samples.toy_md5 ["dl"] true w1 = (Return (0, 0), w2)
    ∧ stat ["dl"; "busy.mp3"] (fs w2) = IsFile (mkFile (Samples.bytes_of "M") true true)
    ∧ stat ["dl"; "a.txt"] (fs w2) = Absent.
Proof.
  eexists.
  destruct (second_run_moves_nothing Samples.toy_md5 ["dl"] true Samples.mixed_world
              (organize_files Samples.toy_md5 ["dl"] true Samples.mixed_world).2 (3, 0))
    as (w2 & Hrun2 & Hfs & _).
  - simpl. wf_tree.
  - by vm_compute.
  - exists w2. split; [by vm_compute|]. split; [exact Hrun2|].
    split.
    + change (stat (["dl"] ++ ["busy.mp3"]) (fs w2) = IsFile (mkFile (Samples.bytes_of "M") true true)).
      rewrite Hfs. reflexivity.
    + change (stat (["dl"] ++ ["a.txt"]) (fs w2) = Absent). rewrite Hfs. reflexivity.
Defined.

(** The only answers that confirm. *)
Lemma lower_y answer :
  PathName.lower answer = "y"%string → answer = "y"%string ∨ answer = "Y"%string.
Proof.
  intros H. destruct answer as [|c s]; [done|].
  destruct (kelvin_head (String c s)) eqn:E.
  - apply kelvin_head_true in E as [s' E]. by rewrite E, lower_kelvin in H.
  - rewrite lower_cons in H by done. injection H as Hc Hs.
    assert (s = EmptyString) as ->.
    { destruct s as [|d s]; [done|]. destruct (kelvin_head (String d s)) eqn:E'.
      - apply kelvin_head_true in E' as [s' E']. by rewrite E', lower_kelvin in Hs.
      - by rewrite lower_cons in Hs. }
    destruct c as [[] [] [] [] [] [] [] []]; try done; auto.
Qed.

(** X16: on a system that is not in the table the purge finds no location:
    whatever the answer, it returns [(0, 0)] and leaves the file system
    alone. *)
Theorem clean_temp_files_unknown_system (env : environ) (system answer : string)
    (w : world) :
  system ∉ ["Windows"; "Linux"; "Darwin"]%string →
  ∃ w', clean_temp_files env system answer w = (Return (0, 0), w') ∧ fs w' = fs w.
Proof.
  intros Hsys. rewrite !not_elem_of_cons in Hsys. destruct Hsys as (H1 & H2 & H3 & _).
  assert (dict_get system (TEMP_DIRS env) [] = []) as Hnone.
  { unfold TEMP_DIRS. cbn [dict_get]. by rewrite !decide_False by done. }
  unfold clean_temp_files. rewrite Hnone. run.
  destruct (decide (PathName.lower answer ≠ "y"%string)); by eauto.
Qed.

Lemma clean_temp_files_unknown_system_witness :
  ∃ w', clean_temp_files Samples.linux_env "FreeBSD" "y" Samples.busy_tmp = (Return (0, 0), w')
        ∧ fs w' = fs Samples.busy_tmp.
Proof.
  apply clean_temp_files_unknown_system.
  rewrite !not_elem_of_cons. repeat split; try discriminate. apply not_elem_of_nil.
Defined.

(** X17: only the answers [y] and [Y] let the purge go ahead; any other
    answer, [yes] and the empty line among them, aborts it. *)
Theorem clean_temp_files_other_answer (env : environ) (system answer : string)
    (w : world) :
  answer ≠ "y"%string → answer ≠ "Y"%string →
  clean_temp_files env system answer w =
    (Return (0, 0),
     World (fs w) (log w ++ [(Printed, CleanupWarning); (Printed, CleanupAborted)])).
Proof.
  intros Hy HY. unfold clean_temp_files. run.
  rewrite decide_True by (intros [?|?]%lower_y; done).
  cbn [fs log]. by rewrite <- app_assoc.
Qed.

Lemma clean_temp_files_other_answer_witness :
  fs (clean_temp_files Samples.linux_env "Linux" "yes" Samples.busy_tmp).2 = fs Samples.busy_tmp
  ∧ (clean_temp_files Samples.linux_env "Linux" "" Samples.busy_tmp).1 = Return (0, 0).
Proof.
  split.
  - rewrite (clean_temp_files_other_answer Samples.linux_env "Linux" "yes" Samples.busy_tmp);
      [reflexivity | discriminate | discriminate].
  - rewrite (clean_temp_files_other_answer Samples.linux_env "Linux" "" Samples.busy_tmp);
      [reflexivity | discriminate | discriminate].
Defined.

(** X18: a confirmed purge only removes: whatever is in the file system
    afterwards was there before, at the same path, as the same kind of
    thing and, for a regular file, with the same content. *)
Theorem clean_temp_files_only_removes (env : environ) (system answer : string)
    (w : world) :
  PathName.lower answer = "y"%string → wf (fs w) →
  ∃ (counts : nat * nat) (w' : world),
    clean_temp_files env system answer w = (Return counts, w')
    ∧ ∀ q, stat q (fs w') = Absent ∨ stat q (fs w') = stat q (fs w).
Proof.
  intros Hyes Hwf. rewrite clean_temp_files_confirmed by done.
  destruct (purge_locations_dwindles (dict_get system (TEMP_DIRS env) []) (0, 0)
              (World (fs w) (log w ++ [(Printed, CleanupWarning)])) Hwf)
    as (acc' & w' & Hrun & _ & Hw).
  exists acc', w'. split; [done|]. exact Hw.
Qed.

Lemma clean_temp_files_only_removes_witness :
  ∃ (counts : nat * nat) (w' : world),
    clean_temp_files Samples.linux_env "Linux" "y" Samples.busy_tmp = (Return counts, w')
    ∧ (stat ["tmp"; "d"; "y"] (fs w') = Absent
       ∨ stat ["tmp"; "d"; "y"] (fs w')
         = IsFile (mkFile (Samples.bytes_of "12345") true true)).
Proof.
  destruct (clean_temp_files_only_removes Samples.linux_env "Linux" "y" Samples.busy_tmp)
    as (counts & w' & Hrun & Hw).
  - reflexivity.
  - simpl. wf_tree.
  - exists counts, w'. split; [exact Hrun|]. apply (Hw ["tmp"; "d"; "y"]).
Defined.

(** The purge always returns, and counts the files it takes away. *)
Lemma clean_temp_files_tally env system answer w :
  wf (fs w) →
  ∃ deleted_count total_size w',
    clean_temp_files env system answer w = (Return (deleted_count, total_size), w')
    ∧ wf (fs w')
    ∧ file_count (fs w) = file_count (fs w') + deleted_count.
Proof.
  intros Hwf. destruct (decide (PathName.lower answer = "y"%string)) as [Hyes|Hno].
  - rewrite clean_temp_files_confirmed by done.
    destruct (purge_locations_counts (dict_get system (TEMP_DIRS env) []) (0, 0)
                (World (fs w) (log w ++ [(Printed, CleanupWarning)])) Hwf)
      as ([c b] & w' & Hrun & [Hc _] & Ht & _).
    exists c, b, w'. split; [done|]. split; [by eapply tame_wf|].
    cbn [fst fs] in Hc. lia.
  - exists 0, 0. eexists. split; [|split].
    + unfold clean_temp_files. run. by rewrite decide_True by done.
    + done.
    + cbn [fs]. lia.
Qed.

(** X20: when [run_automation] returns, the summary is the last thing written,
    to the log and to the terminal, and its counts cover every regular file
    that has left the file system: no more files are gone than it reports
    duplicates and temp files deleted. *)
Theorem run_automation_accounts (md5 : list byte → string) (env : environ)
    (system : string) (stdin : option string) (source_dir : option path)
    (delete_duplicates clean_temp : bool) (s s' : session) :
  wf (disk s) →
  run_automation md5 env system stdin source_dir delete_duplicates clean_temp s
    = (Return (), s') →
  ∃ (moved dups deleted size : nat) (lines : list (channel * (message + notice))),
    journal s' = journal s ++ (LoggingInfo, inr Starting) :: lines
                 ++ [(LoggingInfo, inr (Summary moved dups deleted size));
                     (Printed, inr (Summary moved dups deleted size))]
    ∧ file_count (disk s) ≤ file_count (disk s') + dups + deleted
    ∧ (source_dir = None → moved = 0 ∧ dups = 0)
    ∧ (clean_temp = false → deleted = 0 ∧ size = 0).
Proof.
  intros Hwf Hrun. unfold run_automation in Hrun. cbn zeta in Hrun.
  set (s0 := note LoggingInfo Starting s) in Hrun.
  assert (∃ moved dups lines1 s1,
            match source_dir with
            | Some d => component (organize_files md5 d delete_duplicates) s0
            | None => (Return (0, 0), s0)
            end = (Return (moved, dups), s1)
            ∧ journal s1 = journal s ++ (LoggingInfo, inr Starting) :: lines1
            ∧ wf (disk s1)
            ∧ file_count (disk s) ≤ file_count (disk s1) + dups
            ∧ (source_dir = None → moved = 0 ∧ dups = 0))
    as (moved & dups & lines1 & s1 & Hfirst & Hj1 & Hwf1 & Hc1 & Hnone).
  { destruct source_dir as [d|].
    - unfold component in *. cbn [disk journal s0 note] in *.
      destruct (organize_files_weigh md5 d delete_duplicates (World (disk s) []) Hwf)
        as (lost & gained & Hw & _ & Hd).
      destruct (organize_files md5 d delete_duplicates (World (disk s) []))
        as [[[moved dups]| |] w1] eqn:Horg; [|done|done].
      cbn [fst snd fs] in Hw, Hd. destruct (Hd moved dups eq_refl) as [-> Hwf1].
      eexists moved, _, _, _. split; [done|]. cbn [journal disk].
      split; [by rewrite <- app_assoc|]. split; [done|]. split; [|done].
      specialize (Hw (λ _, 1)). rewrite sum_list_ones in Hw. unfold file_count. lia.
    - exists 0, 0, [], s0. split; [done|]. split; [done|]. split; [done|].
      cbn [disk s0 note]. split; [lia|done]. }
  rewrite Hfirst in Hrun.
  assert (∃ deleted size lines2 s2,
            (if clean_temp then component (clean_temp_files_at_prompt env system stdin) s1
             else (Return (0, 0), s1)) = (Return (deleted, size), s2)
            ∧ journal s2 = journal s1 ++ lines2
            ∧ file_count (disk s1) = file_count (disk s2) + deleted
            ∧ (clean_temp = false → deleted = 0 ∧ size = 0))
    as (deleted & size & lines2 & s2 & Hsecond & Hj2 & Hc2 & Hoff).
  { destruct clean_temp.
    - destruct stdin as [answer|]; [|done].
      unfold component, clean_temp_files_at_prompt.
      destruct (clean_temp_files_tally env system answer (World (disk s1) []) Hwf1)
        as (c & b & w2 & -> & _ & Hc).
      eexists c, b, _, _. split; [done|]. cbn [journal disk fs] in *.
      split; [done|]. split; [done|]. done.
    - exists 0, 0, [], s1. split; [done|]. split; [by rewrite app_nil_r|].
      split; [lia|done]. }
  rewrite Hsecond in Hrun. injection Hrun as <-.
  exists moved, dups, deleted, size, (lines1 ++ lines2). cbn [journal disk note].
  split; [|split; [lia|by split]].
  rewrite Hj2, Hj1. by rewrite <- !app_assoc.
Qed.

Lemma run_automation_accounts_witness :
  ∃ (s' : session) (dups deleted : nat),
    run_automation Samples.toy_md5 Samples.linux_env "Linux" (Some "y") (Some ["tmp"]) true true
      (Session (fs Samples.busy_tmp) []) = (Return (), s')
    ∧ 3 ≤ file_count (disk s') + dups + deleted.
Proof.
  destruct (run_automation_accounts Samples.toy_md5 Samples.linux_env "Linux" (Some "y")
              (Some ["tmp"]) true true (Session (fs Samples.busy_tmp) [])
              (run_automation Samples.toy_md5 Samples.linux_env "Linux" (Some "y") (Some ["tmp"])
                 true true (Session (fs Samples.busy_tmp) [])).2)
    as (moved & dups & deleted & size & lines & _ & Hc & _).
  - simpl. wf_tree.
  - by vm_compute.
  - eexists _, dups, deleted. split; [by vm_compute|]. exact Hc.
Defined.

(** X21: [run_automation] returns whenever [organize_files] does and, if the
    cleanup is asked for, there is a line to read at the prompt: with an
    answer the cleanup never raises, whatever the answer and whatever it
    meets. *)
Theorem run_automation_returns (md5 : list byte → string) (env : environ)
    (system : string) (stdin : option string) (source_dir : option path)
    (delete_duplicates clean_temp : bool) (s : session) :
  wf (disk s) →
  (∀ d, source_dir = Some d →
        ∃ counts, (organize_files md5 d delete_duplicates (World (disk s) [])).1
                  = Return counts) →
  (clean_temp = true → ∃ answer, stdin = Some answer) →
  ∃ s', run_automation md5 env system stdin source_dir delete_duplicates clean_temp s
        = (Return (), s').
Proof.
  intros Hwf Horg Hline. unfold run_automation. cbn zeta.
  set (s0 := note LoggingInfo Starting s).
  assert (∃ moved dups s1,
            match source_dir with
            | Some d => component (organize_files md5 d delete_duplicates) s0
            | None => (Return (0, 0), s0)
            end = (Return (moved, dups), s1) ∧ wf (disk s1))
    as (moved & dups & s1 & -> & Hwf1).
  { destruct source_dir as [d|]; [|by exists 0, 0, s0].
    unfold component. cbn [disk journal s0 note].
    destruct (Horg d eq_refl) as [[moved dups] Hret].
    destruct (organize_files_weigh md5 d delete_duplicates (World (disk s) []) Hwf)
      as (lost & gained & _ & _ & Hd).
    destruct (Hd moved dups Hret) as [_ Hwf1].
    destruct (organize_files md5 d delete_duplicates (World (disk s) []))
      as [r w1]. cbn [fst snd] in *. subst r. by eexists moved, dups, _. }
  destruct clean_temp; [|by eauto].
  destruct (Hline eq_refl) as [answer ->].
  unfold component, clean_temp_files_at_prompt.
  destruct (clean_temp_files_tally env system answer (World (disk s1) []) Hwf1)
    as (c & b & w2 & -> & _). by eauto.
Qed.

Lemma run_automation_returns_witness :
  ∃ s', run_automation Samples.toy_md5 Samples.linux_env "Linux" (Some "n") (Some ["dl"]) false true
          (Session (fs Samples.mixed_world) []) = (Return (), s').
Proof.
  apply run_automation_returns.
  - simpl. wf_tree.
  - intros d [= <-]. eexists. by vm_compute.
  - intros _. by eexists.
Defined.

(** X24: when the cleanup is asked for and standard input has no line to
    give, [run_automation] is left by the [EOFError] of [input], once the
    organizer has returned: the warning is the last thing written, no
    summary follows, and the cleanup has changed nothing. *)
Theorem run_automation_end_of_input (md5 : list byte → string) (env : environ)
    (system : string) (source_dir : option path) (delete_duplicates : bool)
    (s : session) :
  (∀ d, source_dir = Some d →
        ∃ counts, (organize_files md5 d delete_duplicates (World (disk s) [])).1
                  = Return counts) →
  ∃ s', run_automation md5 env system None source_dir delete_duplicates true s
        = (Raise EOFError, s')
    ∧ last (journal s') = Some (Printed, inl CleanupWarning)
    ∧ disk s' = match source_dir with
                | Some d => fs (organize_files md5 d delete_duplicates
                                  (World (disk s) [])).2
                | None => disk s
                end.
Proof.
  intros Horg. unfold run_automation. cbn zeta.
  destruct source_dir as [d|].
  - destruct (Horg d eq_refl) as [[moved dups] Hret].
    unfold component. cbn [disk journal note].
    destruct (organize_files md5 d delete_duplicates (World (disk s) []))
      as [r w1]. cbn [fst snd] in *. subst r.
    eexists. split; [reflexivity|]. cbn [journal disk fs log].
    split; [|done]. apply last_snoc.
  - eexists. split; [reflexivity|]. cbn [journal disk fs log note].
    split; [|done]. apply last_snoc.
Qed.

Lemma run_automation_end_of_input_witness :
  ∃ s', run_automation Samples.toy_md5 Samples.linux_env "Linux" None None false true
          (Session (fs Samples.busy_tmp) []) = (Raise EOFError, s')
        ∧ disk s' = fs Samples.busy_tmp.
Proof.
  destruct (run_automation_end_of_input Samples.toy_md5 Samples.linux_env "Linux" None false
              (Session (fs Samples.busy_tmp) [])) as (s' & Hrun & _ & Hdisk).
  - intros d [=].
  - exists s'. split; [exact Hrun|exact Hdisk].
Defined.
